(** * Dendron: schema path matching, header rename and vault add

    A shallow embedding of the excerpted Dendron sources:
    - the schema matching exercised by [enginev2.spec] ([matchPath],
      [matchDomain]),
    - the CLI entry point exercised by [setupEngine.spec],
    - [RenameHeaderCommand] (plugin-core/src/commands/RenameHeader.ts),
    - [VaultAddCommand] (the vault-add command).

    Asynchronous command code is embedded in a state-and-error monad whose
    state records, in program order, every call the command makes to the
    editor host, the markdown processor, git, the workspace service and the
    engine.  Diagnostic logging ([this.L.info], [Logger.info]) is not a call
    of that kind and is left out of the trace. *)

From Stdlib Require Import Ascii.
From stdpp Require Import functions base option list strings gmap.

(** ** Dotted hierarchical names *)

Module Hierarchy.

Definition dot : ascii := "."%char.

(** [splitAt acc s]: every prefix of [acc +:+ s] that ends right before a
    dot of [s], shortest first. *)
Fixpoint splitAt (acc s : string) : list string :=
  match s with
  | EmptyString => []
  | String c s' =>
      if Ascii.eqb c dot
      then acc :: splitAt (acc +:+ String c EmptyString) s'
      else splitAt (acc +:+ String c EmptyString) s'
  end.

(** The proper ancestors of a dotted name, the domain first:
    [ancestors "a.b.c" = ["a"; "a.b"]]. *)
Definition ancestors (fname : string) : list string := splitAt "" fname.

(** [N.<suffix>] *)
Definition child (N suffix : string) : string := N +:+ "." +:+ suffix.

(** A name with no dot: a domain. *)
Fixpoint isDomain (s : string) : bool :=
  match s with
  | EmptyString => true
  | String c s' => negb (Ascii.eqb c dot) && isDomain s'
  end.

(** [isChildPath N p]: [p] is [N.<suffix>] for some suffix. *)
Definition isChildPath (N p : string) : bool := String.prefix (N +:+ ".") p.

End Hierarchy.

(** ** Schema modules and [SchemaUtilsV2.matchPath] *)

Module Schema.
Import Hierarchy.

(** [schema.data]: [namespace] may be unset. *)
Record SchemaData := { namespace : option bool }.

Record SchemaProps := { id : string; data : SchemaData }.

(** A schema module as the tests use it: [schema.root.id] and
    [schema.schemas[schema.root.id].data.namespace]. *)
Record SchemaModuleProps := {
  root : SchemaProps;
  schemas : gmap string SchemaProps
}.

(** [engine.schemas]: module id to schema module. *)
Abbreviation SchemaModuleDict := (gmap string SchemaModuleProps).

(** What [matchPath] returns: [resp.schema.id] is read by the tests; the
    module that owns the schema is kept beside it. *)
Record SchemaMatchResult := {
  schema : SchemaProps;
  schemaModule : SchemaModuleProps
}.

(** [data.namespace || false] *)
Definition isNamespace (s : SchemaProps) : bool :=
  default false (namespace (data s)).

(** Modelled from the spec: [SchemaUtilsV2.createModuleProps] is not among
    the sources; section 6 gives [createModuleProps({fname}) -> schema
    module with root id].  The root is registered in [schemas] under its
    id, which is where the tests flag it as a namespace. *)
Definition createModuleProps (fname : string) : SchemaModuleProps :=
  let r := {| id := fname; data := {| namespace := None |} |} in
  {| root := r; schemas := {[ fname := r ]} |}.

(** [schema.schemas[schema.root.id].data.namespace = true] *)
Definition setRootNamespace (b : bool) (m : SchemaModuleProps)
  : SchemaModuleProps :=
  {| root := root m;
     schemas :=
       alter (fun s => {| id := id s; data := {| namespace := Some b |} |})
             (id (root m)) (schemas m) |}.

(** Modelled from the spec: the matching of one schema node against a note
    path is not among the sources.  Glossary: a schema node matches its
    own path, and a namespace schema matches its own path and all
    descendants. *)
Definition schemaMatches (s : SchemaProps) (notePath : string) : bool :=
  String.eqb notePath (id s) || (isNamespace s && isChildPath (id s) notePath).

(** The root schema of a module, looked up as the tests do, when it
    matches the path. *)
Definition matchRoot (m : SchemaModuleProps) (notePath : string)
  : option SchemaMatchResult :=
  match schemas m !! id (root m) with
  | Some s =>
      if schemaMatches s notePath
      then Some {| schema := s; schemaModule := m |}
      else None
  | None => None
  end.

(** The first module, among those registered under the given names, whose
    root matches the path. *)
Fixpoint firstMatch (names : list string) (notePath : string)
    (schemaModDict : SchemaModuleDict) : option SchemaMatchResult :=
  match names with
  | [] => None
  | k :: names' =>
      match schemaModDict !! k with
      | Some m =>
          match matchRoot m notePath with
          | Some r => Some r
          | None => firstMatch names' notePath schemaModDict
          end
      | None => firstMatch names' notePath schemaModDict
      end
  end.

(** Modelled from the spec: [SchemaUtilsV2.matchPath] is not among the
    sources; only its tests are.  Section 4: it resolves a dotted note
    path against a dictionary of schema modules, with namespace schemas
    matching themselves and all child paths, and its contract is
    [matchPath(notePath, schemaModDict) -> {schema: {id}} | undefined].
    The dictionary is consulted under the names on the path, from the
    domain down to the path itself, as the tests' titles ("match path on
    domain") have it. *)
Definition matchPath (notePath : string) (schemaModDict : SchemaModuleDict)
  : option SchemaMatchResult :=
  firstMatch (ancestors notePath ++ [notePath]) notePath schemaModDict.

(** The module [m] is registered in the dictionary under the name [N] of
    its root schema [s]. *)
Definition rootedAt (schemaModDict : SchemaModuleDict) (N : string)
    (m : SchemaModuleProps) (s : SchemaProps) : Prop :=
  schemaModDict !! N = Some m ∧ id (root m) = N
  ∧ schemas m !! id (root m) = Some s ∧ id s = N.

(** The answer of [matchPath] is a schema with id [N]:
    [resp?.schema.id] equals [N]. *)
Definition resolvesTo (resp : option SchemaMatchResult) (N : string) : Prop :=
  ∃ r, resp = Some r ∧ id (schema r) = N.

(** No module registered under a proper ancestor of [N] matches the path
    itself. *)
Definition unshadowed (schemaModDict : SchemaModuleDict) (N notePath : string)
  : Prop :=
  ∀ A m, A ∈ ancestors N → schemaModDict !! A = Some m →
         matchRoot m notePath = None.

End Schema.

(** ** The engine's notes and [engine.init] *)

Module Engine.
Import Hierarchy.

(** A note's schema association: [{ moduleId, schemaId }]. *)
Record NoteSchema := { moduleId : string; schemaId : string }.

(** [NoteUtilsV2.create({ fname, id, created, updated })]; the schema
    association is absent until the engine computes it. *)
Record NoteProps := {
  fname : string;
  id : string;
  created : string;
  updated : string;
  schema : option NoteSchema
}.

(** The vault on disk, read by [FileStorageV2]: the note files by name and
    the [*.schema.yml] files by module id. *)
Record FileStorage := {
  noteFiles : gmap string NoteProps;
  schemaFiles : gmap string Schema.SchemaModuleProps
}.

(** [DEngineV2]: [engine.notes], [engine.schemas] and the store behind
    them. *)
Record DEngine := {
  store : FileStorage;
  notes : gmap string NoteProps;
  schemas : gmap string Schema.SchemaModuleProps
}.

(** Modelled from the spec: the constructor of [DendronEngineV2] is not
    among the sources; nothing is loaded before [init]. *)
Definition create (st : FileStorage) : DEngine :=
  {| store := st; notes := ∅; schemas := ∅ |}.

Definition withSchema (n : NoteProps) (s : option NoteSchema) : NoteProps :=
  {| fname := fname n; id := id n; created := created n;
     updated := updated n; schema := s |}.

(** The association a match gives a note: the id of the module and the id
    of the schema inside it. *)
Definition toNoteSchema (r : Schema.SchemaMatchResult) : NoteSchema :=
  {| moduleId := Schema.id (Schema.root (Schema.schemaModule r));
     schemaId := Schema.id (Schema.schema r) |}.

(** Modelled from the spec: the schema matching done while the engine loads
    its notes is not among the sources; the [matchDomain] tests read its
    result from [engine.notes[fname].schema].  Section 3: a note is
    identified by its hierarchical name and has a schema association
    (moduleId/schemaId pair); here the pair is the one of the module that
    [matchPath] resolves the note's name to, and a note that matches no
    module keeps the association it was stored with. *)
Definition matchNote (schemaModDict : gmap string Schema.SchemaModuleProps)
    (n : NoteProps) : NoteProps :=
  match Schema.matchPath (fname n) schemaModDict with
  | Some r => withSchema n (Some (toNoteSchema r))
  | None => n
  end.

(** Modelled from the spec: [DendronEngineV2.init] is not among the
    sources.  Section 6: the engine exposes [init()], [notes] (note name to
    note record with schema field) and [schemas] (module id to schema
    module).  [init] loads both from the store and matches every note. *)
Definition init (e : DEngine) : DEngine :=
  {| store := store e;
     schemas := schemaFiles (store e);
     notes := matchNote (schemaFiles (store e)) <$> noteFiles (store e) |}.

(** Modelled from the spec: [engine.updateSchema(schema)] is not among the
    sources; the tests look the module up under its root id afterwards. *)
Definition updateSchema (m : Schema.SchemaModuleProps) (e : DEngine) : DEngine :=
  {| store := store e;
     notes := notes e;
     schemas := <[ Schema.id (Schema.root m) := m ]> (schemas e) |}.

End Engine.

(** ** The CLI entry point [setupEngine] *)

Module Cli.

(** A handle on an engine process: the TCP port it listens on. *)
Record EngineServer := { serverPort : nat }.

(** The machine: the engines served, by TCP port; the port of the engine
    process running for a workspace, by workspace root; the workspaces on
    disk; and the next port the system hands out. *)
Record World := {
  listening : gmap nat Engine.DEngine;
  enginePort : gmap string nat;
  workspaces : gmap string Engine.FileStorage;
  freePort : nat
}.

(** [setupEngine({ wsRoot, noWritePort, attach, target })] *)
Record SetupEngineOpts := {
  wsRoot : string;
  noWritePort : bool;
  attach : bool;
  target : string
}.

(** [{ engine, port, server }] *)
Record SetupEngineResp := {
  engine : Engine.DEngine;
  port : nat;
  server : EngineServer
}.

(** Modelled from the spec: connecting to a port is not among the
    sources.  An engine client connected to a port holds what the process
    listening on that port serves. *)
Definition connect (w : World) (p : nat) : option Engine.DEngine :=
  e ← listening w !! p;
  Some {| Engine.store := Engine.store e;
          Engine.notes := Engine.notes e;
          Engine.schemas := Engine.schemas e |}.

(** Modelled from the spec: spawning an engine is not among the sources.
    An engine process for a workspace on disk gets a fresh port and an
    initialised engine behind it, and the port is recorded for the
    workspace unless [noWritePort]. *)
Definition spawn (opts : SetupEngineOpts) (st : Engine.FileStorage) (w : World)
  : SetupEngineResp * World :=
  let p := freePort w in
  let e := Engine.init (Engine.create st) in
  ({| engine := e; port := p; server := {| serverPort := p |} |},
   {| listening := <[ p := e ]> (listening w);
      enginePort := if noWritePort opts then enginePort w
                    else <[ wsRoot opts := p ]> (enginePort w);
      workspaces := workspaces w;
      freePort := S p |}).

(** Modelled from the spec: [setupEngine] (dendron-cli) is not among the
    sources; only its test is.  Section 6:
    [setupEngine({wsRoot, noWritePort, attach, target}) -> {engine, port,
    server}], used to attach to an already-running engine process via a TCP
    port rather than spawning a new one.  With [attach] and an engine
    running for the workspace, the port is that engine's and the engine is
    a client connected to it; otherwise a new engine process is spawned. *)
Definition setupEngine (opts : SetupEngineOpts) (w : World)
  : option (SetupEngineResp * World) :=
  let attached :=
    if attach opts then
      p ← enginePort w !! wsRoot opts;
      e ← connect w p;
      Some ({| engine := e; port := p; server := {| serverPort := p |} |}, w)
    else None in
  match attached with
  | Some r => Some r
  | None => st ← workspaces w !! wsRoot opts; Some (spawn opts st w)
  end.

End Cli.

(** ** Errors and the command monad *)

Module Host.

(** [ERROR_STATUS]: the member the commands use. *)
Inductive ERROR_STATUS := INVALID_STATE.

(** [DendronError]: a message and an optional status code. *)
Record DendronError := {
  message : string;
  status : option ERROR_STATUS
}.

(** [new DendronError({ message })] *)
Definition mkError (msg : string) : DendronError :=
  {| message := msg; status := None |}.

(** [DendronError.createFromStatus({ status, message })] *)
Definition createFromStatus (s : ERROR_STATUS) (msg : string) : DendronError :=
  {| message := msg; status := Some s |}.

(** How an awaited call ends: with a value, with a thrown error, or never
    (a promise that nothing settles). *)
Inductive Res (A : Type) :=
| Ok (a : A)
| Throw (e : DendronError)
| Pending.
Arguments Ok {A} a.
Arguments Throw {A} e.
Arguments Pending {A}.

(** A command step over a host state [S]; the state reached is kept also
    when the step throws, since what was done before stays done. *)
Definition M (S A : Type) : Type := S → Res A * S.

Definition ret {S A} (a : A) : M S A := fun s => (Ok a, s).

Definition bind {S A B} (m : M S A) (f : A → M S B) : M S B :=
  fun s =>
    match m s with
    | (Ok a, s') => f a s'
    | (Throw e, s') => (Throw e, s')
    | (Pending, s') => (Pending, s')
    end.

Definition throw {S A} (e : DendronError) : M S A := fun s => (Throw e, s).

Definition pending {S A} : M S A := fun s => (Pending, s).

Definition gets {S A} (f : S → A) : M S A := fun s => (Ok (f s), s).

Definition modify {S} (f : S → S) : M S unit := fun s => (Ok tt, f s).

(** [for (const x of xs) { await body(x) }] *)
Fixpoint forEach {S A} (xs : list A) (body : A → M S unit) : M S unit :=
  match xs with
  | [] => ret tt
  | x :: xs' => bind (body x) (fun _ => forEach xs' body)
  end.

(** Modelled from the spec: [PickerUtilsV2.isInputEmpty] is not among the
    sources; section 7 treats an empty or cancelled prompt as abandonment,
    so both the missing answer and the empty string are empty. *)
Definition isInputEmpty (value : option string) : bool :=
  match value with
  | None => true
  | Some s => String.eqb s ""
  end.

(** JavaScript truthiness of an optional string: [undefined] and the empty
    string are falsy. *)
Definition truthy (value : option string) : bool :=
  match value with
  | None => false
  | Some s => negb (String.eqb s "")
  end.

End Host.

Declare Scope cmd_scope.
Delimit Scope cmd_scope with cmd.
Notation "'do' x <~ m ;; k" := (Host.bind m (fun x => k))
  (at level 10, x name, m at level 99, k at level 200,
   format "'[v' 'do'  x  <~  m  ;; '/' k ']'") : cmd_scope.
Notation "'call' m ;; k" := (Host.bind m (fun _ => k))
  (at level 10, m at level 99, k at level 200,
   format "'[v' 'call'  m  ;; '/' k ']'") : cmd_scope.

(** ** [RenameHeaderCommand] *)

Module RenameHeader.
Import Host.
Local Open Scope cmd_scope.

(** A [vscode.Position] and a [vscode.Range]. *)
Record Position := { line : nat; character : nat }.
Record Range := { start : Position; end_ : Position }.

(** [DVault], as far as the command reads it: its [fsPath] and its
    optional [name]. *)
Record DVault := {
  fsPath : string;
  vaultName : option string
}.

(** [NoteProps], as far as the command reads it. *)
Record NoteProps := {
  fname : string;
  vault : DVault
}.

(** The open document: its lines and whether it has unsaved edits. *)
Record TextDocument := {
  lines : list string;
  isDirty : bool
}.

(** The active text editor: its document and its selection. *)
Record TextEditor := {
  document : TextDocument;
  selection : option Range
}.

(** [oldHeader]: the contents of the old header and the region of the
    document that holds them. *)
Record OldHeader := { text : string; range : Range }.

(** [CommandOpts]: every field optional, and the whole may be
    [undefined]. *)
Record Opts := {
  oldHeader : option OldHeader;
  newHeader : option string;
  source : option string;
  note : option NoteProps
}.
Definition CommandOpts := option Opts.

(** [Required<CommandOpts>], what [gatherInputs] returns. *)
Record Inputs := {
  inOldHeader : OldHeader;
  inNewHeader : string;
  inSource : string;
  inNote : NoteProps
}.

(** A note location with an anchor:
    [{ fname, vaultName, anchorHeader, alias }]. *)
Record DNoteLoc := {
  locFname : string;
  locVaultName : string;
  anchorHeader : string;
  alias : string
}.

(** The collaborators the command imports and the sources do not contain:
    the markdown processor ([MDUtilsV5.procRemarkParseNoData(..).parse],
    [visit] over heading nodes, [AnchorUtils]), the slugger, which keeps
    the slugs it has given ([getSlugger], [slugger.slug]),
    [VSCodeUtils.position2VSCodeRange], [VaultUtils.getName], the
    engine's answer to [renameNote], a [RespV2<RenameNotePayload>], and
    the editor: what it holds once [editor.edit] has replaced a range by a
    text ([applyEdit]) and once [editor.document.save] has returned
    ([afterSave]). *)
Class Collaborators := {
  Root : Type;
  Heading : Type;
  UnistPosition : Type;
  Slugger : Type;
  RespV2 : Type;
  parse : string → Root;
  headings : Root → list Heading;
  headerText : Heading → string;
  headerTextPosition : Heading → UnistPosition;
  position2VSCodeRange : UnistPosition → nat → Range;
  getSlugger : Slugger;
  slug : Slugger → string → string * Slugger;
  getName : DVault → string;
  renameNote : DNoteLoc → DNoteLoc → RespV2;
  applyEdit : TextEditor → Range → string → TextEditor;
  afterSave : TextEditor → TextEditor
}.

(** What the command does to the editor host, the markdown processor and
    the engine, in program order. *)
Inductive Event :=
| EParse (input : string)
| EShowInputBox (value : string)
| EEdit (r : Range) (newText : string)
| ESave
| EUpdateDecorations
| ERenameNote (oldLoc newLoc : DNoteLoc).

(** The editor host as the command sees it. *)
Record State := {
  activeNote : option NoteProps;
  activeTextEditor : option TextEditor;
  getNoteFromDocument : TextDocument → option NoteProps;
  inputBox : list (option string);
  trace : list Event
}.

Global Instance Position_eq_dec : EqDecision Position.
Proof. solve_decision. Defined.
Global Instance Range_eq_dec : EqDecision Range.
Proof. solve_decision. Defined.
Global Instance DNoteLoc_eq_dec : EqDecision DNoteLoc.
Proof. solve_decision. Defined.
Global Instance Event_eq_dec : EqDecision Event.
Proof. solve_decision. Defined.

(** Where an event first occurs in a trace, and one event occurring before
    another. *)
Definition indexOf (e : Event) (t : list Event) : option nat :=
  fst <$> list_find (fun x => x = e) t.

Definition precedes (a b : Event) (t : list Event) : Prop :=
  ∃ i j, indexOf a t = Some i ∧ indexOf b t = Some j ∧ i < j.

Definition emit (e : Event) : M State unit :=
  modify (fun st =>
    {| activeNote := activeNote st;
       activeTextEditor := activeTextEditor st;
       getNoteFromDocument := getNoteFromDocument st;
       inputBox := inputBox st;
       trace := trace st ++ [e] |}).

(** [window.showInputBox({ ..., value })]: the next answer of the user;
    [None] is a dismissed prompt. *)
Definition showInputBox (value : string) : M State (option string) :=
  fun st =>
    (Ok (mjoin (head (inputBox st))),
     {| activeNote := activeNote st;
        activeTextEditor := activeTextEditor st;
        getNoteFromDocument := getNoteFromDocument st;
        inputBox := tail (inputBox st);
        trace := trace st ++ [EShowInputBox value] |}).

(** Modelled from the spec: [VSCodeUtils.getSelection] is not among the
    sources; it gives the active editor and its selection, and neither when
    no editor is active. *)
Definition getSelection : M State (option TextEditor * option Range) :=
  gets (fun st =>
    match activeTextEditor st with
    | Some ed => (Some ed, selection ed)
    | None => (None, None)
    end).

(** [editor.document.lineAt(n).text]; the host keeps the selection inside
    the document. *)
Definition lineAt (d : TextDocument) (n : nat) : string :=
  default "" (lines d !! n).

Definition setActiveTextEditor (ed : option TextEditor) (st : State) : State :=
  {| activeNote := activeNote st;
     activeTextEditor := ed;
     getNoteFromDocument := getNoteFromDocument st;
     inputBox := inputBox st;
     trace := trace st |}.

(** The host after the prompt: one answer is consumed and the trace has
    grown; nothing else has changed. *)
Definition prompted (st : State) (steps : list Event) : State :=
  {| activeNote := activeNote st;
     activeTextEditor := activeTextEditor st;
     getNoteFromDocument := getNoteFromDocument st;
     inputBox := tail (inputBox st);
     trace := trace st ++ steps |}.

Section Command.
Context `{Collaborators}.

(** [await editor.edit((editBuilder) => editBuilder.replace(range, text))]:
    the call is made and the editor holds what the host makes of it. *)
Definition edit (ed : TextEditor) (r : Range) (newText : string) : M State unit :=
  call modify (setActiveTextEditor (Some (applyEdit ed r newText))) ;;
  emit (EEdit r newText).

(** [await editor.document.save()] *)
Definition save : M State unit :=
  call modify (fun st =>
         setActiveTextEditor (afterSave <$> activeTextEditor st) st) ;;
  emit ESave.

(** [proc.parse(input)] *)
Definition procParse (input : string) : M State Root :=
  call emit (EParse input) ;;
  ret (parse input).

(** The heading the line holds: the visitor returns [false] at the first
    heading, which ends the visit. *)
Definition firstHeading (parsed : Root) : option Heading :=
  head (headings parsed).

(** [gatherInputs], lines 69 to 96: the old header is parsed from the
    selected line when the caller gave none. *)
Definition gatherOldHeader (given : option OldHeader)
    (editor : option TextEditor) (sel : option Range) : M State OldHeader :=
  match given with
  | Some h => ret h
  | None =>
      match editor, sel with
      | Some ed, Some s =>
          let ln := lineAt (document ed) (line (start s)) in
          do parsedLine <~ procParse ln ;;
          match firstHeading parsedLine with
          | None =>
              throw (mkError
                "You must first select the header you want to rename.")
          | Some header =>
              ret {| text := headerText header;
                     range := position2VSCodeRange
                                (headerTextPosition header) (line (start s)) |}
          end
      | _, _ =>
          throw (mkError "You must first select the header you want to rename.")
      end
  end.

(** [RenameHeaderCommand.gatherInputs] *)
Definition gatherInputs (opts : CommandOpts) : M State (option Inputs) :=
  let oldHeader0 := opts ≫= oldHeader in
  let newHeader0 := opts ≫= newHeader in
  let source0 := opts ≫= source in
  do es <~ getSelection ;;
  let '(editor, sel) := es in
  do note <~ gets activeNote ;;
  match note with
  | None => throw (mkError "You must first open a note to rename a header.")
  | Some note =>
      do oldHeader <~ gatherOldHeader oldHeader0 editor sel ;;
      do newHeader <~
        match newHeader0 with
        | Some h => ret (Some h)
        | None =>
            do answer <~ showInputBox (text oldHeader) ;;
            ret (if truthy answer then answer else None)
        end ;;
      match newHeader with
      | None => ret None
      | Some newHeader =>
          ret (Some {| inOldHeader := oldHeader;
                       inNewHeader := newHeader;
                       inSource := default "command palette" source0;
                       inNote := note |})
      end
  end.

(** The text the anchor takes from the re-parsed header: every heading
    visited overwrites it, so the last one stays. *)
Definition newAnchorHeaderOf (newHeader : string) (parsed : Root) : string :=
  foldl (fun _ node => headerText node) newHeader (headings parsed).

(** [RenameHeaderCommand.execute] *)
Definition execute (opts : CommandOpts)
  : M State (option RespV2) :=
  let oldHeader := opts ≫= oldHeader in
  let newHeader := opts ≫= newHeader in
  do editor <~ gets activeTextEditor ;;
  match newHeader, oldHeader, editor with
  | Some newHeader, Some oldHeader, Some editor =>
      do resolve <~ gets getNoteFromDocument ;;
      match resolve (document editor) with
      | None => ret None
      | Some note =>
          let slugger := getSlugger in
          call edit editor (range oldHeader) newHeader ;;
          do parsed <~ procParse ("## " +:+ newHeader) ;;
          let newAnchorHeader := newAnchorHeaderOf newHeader parsed in
          call save ;;
          call emit EUpdateDecorations ;;
          let '(oldSlug, slugger) := slug slugger (text oldHeader) in
          let '(newSlug, _) := slug slugger newAnchorHeader in
          let oldLoc :=
            {| locFname := fname note;
               locVaultName := getName (vault note);
               anchorHeader := oldSlug;
               alias := text oldHeader |} in
          let newLoc :=
            {| locFname := fname note;
               locVaultName := getName (vault note);
               anchorHeader := newSlug;
               alias := newAnchorHeader |} in
          call emit (ERenameNote oldLoc newLoc) ;;
          ret (Some (renameNote oldLoc newLoc))
      end
  | _, _, _ => ret None
  end.

(** The locations [execute] hands to [engine.renameNote] for a note, the
    old header text and the new header: the anchors are the slugs of the
    old text and of the new text as re-parsed, in that order from one
    slugger. *)
Definition renameLocs (note : NoteProps) (oldText newHeader : string)
  : DNoteLoc * DNoteLoc :=
  let newAnchorHeader :=
    newAnchorHeaderOf newHeader (parse ("## " +:+ newHeader)) in
  let oldSlug := slug getSlugger oldText in
  let newSlug := slug (snd oldSlug) newAnchorHeader in
  ({| locFname := fname note;
      locVaultName := getName (vault note);
      anchorHeader := fst oldSlug;
      alias := oldText |},
   {| locFname := fname note;
      locVaultName := getName (vault note);
      anchorHeader := fst newSlug;
      alias := newAnchorHeader |}).

(** The steps of the command in the order the specification lists them:
    parse the line, prompt, edit and save, re-parse the new text, rename. *)
Definition stepsAsSpecified (ln : string) (old : OldHeader)
    (newHeader : string) (locs : DNoteLoc * DNoteLoc) : list Event :=
  [EParse ln; EShowInputBox (text old); EEdit (range old) newHeader; ESave;
   EParse ("## " +:+ newHeader); ERenameNote (fst locs) (snd locs)].

(** The steps of [execute] in the order the code takes them. *)
Definition executeSteps (old : OldHeader) (newHeader : string)
    (locs : DNoteLoc * DNoteLoc) : list Event :=
  [EEdit (range old) newHeader; EParse ("## " +:+ newHeader); ESave;
   EUpdateDecorations; ERenameNote (fst locs) (snd locs)].

(** What [gatherInputs] returns, handed to [execute]. *)
Definition toOpts (i : Inputs) : CommandOpts :=
  Some {| oldHeader := Some (inOldHeader i);
          newHeader := Some (inNewHeader i);
          source := Some (inSource i);
          note := Some (inNote i) |}.

(** Modelled from the spec: [BasicCommand.run] (commands/base) is not among
    the sources.  Section 4 has the command gather its inputs and then
    transform; section 5 has a dismissed prompt end the command by plain
    early return.  [execute] runs on what [gatherInputs] returned, unless
    that is [undefined]. *)
Definition run (opts : CommandOpts) : M State (option RespV2) :=
  do inputs <~ gatherInputs opts ;;
  match inputs with
  | None => ret None
  | Some i => execute (toOpts i)
  end.

End Command.

End RenameHeader.

(** ** [VaultAddCommand] *)

Module VaultAdd.
Import Host.
Local Open Scope cmd_scope.

(** [VaultRemoteSource] *)
Inductive VaultRemoteSource := local | remote.

(** [WorkspaceType] *)
Inductive WorkspaceType := NATIVE | CODE.

(** [DVault], as far as the command reads and writes it. *)
Record DVault := {
  fsPath : string;
  name : option string;
  selfContained : option bool
}.

(** [DWorkspace], as far as the command reads it: its [name] and its
    [vaults]. *)
Record DWorkspace := {
  wsName : string;
  wsVaults : list DVault
}.

(** [CommandOpts]; [optName] is its [name]. *)
Record CommandOpts := {
  type : VaultRemoteSource;
  path : string;
  pathRemote : option string;
  optName : option string;
  isSelfContained : option bool
}.

(** [CommandOutput] *)
Record CommandOutput := { vaults : list DVault }.

(** [SourceQuickPickEntry] *)
Record SourceQuickPickEntry := {
  label : string;
  description : string;
  alwaysShow : option bool;
  src : string
}.

(** An entry of [DENDRON_REMOTE_VAULTS]. *)
Record RemoteVaultPreset := {
  presetName : string;
  presetDescription : string;
  presetData : string
}.

(** An entry of the [folders] list of [dendron.code-workspace]: its [path]
    and its optional [name]. *)
Record WorkspaceFolderRaw := {
  folderPath : string;
  folderName : option string
}.

(** The settings of [dendron.code-workspace]: the folders and whatever
    else the file holds. *)
Record WorkspaceSettings := {
  folders : list WorkspaceFolderRaw;
  rest : string
}.

(** The part of the workspace config the command reads: [config.vaults]
    and [config.dev?.enableSelfContainedVaults]. *)
Record DendronConfig := {
  configVaults : option (list DVault);
  enableSelfContainedVaults : option bool
}.

(** What [GitUtils.getVaultsFromRepo] returns.  The vaults are JavaScript
    objects, so the result is a store and the addresses in it: [objects]
    gives the vault object at each address, [vaultRefs] the addresses the
    [vaults] array holds, and [workspaceRefs], when a workspace was found,
    its [name] and the addresses its [vaults] array holds, which may be
    those of [vaults]. *)
Record Discovered := {
  objects : nat → DVault;
  vaultRefs : list nat;
  workspaceRefs : option (string * list nat)
}.

(** The helpers the command imports and the sources do not contain. *)
Class Collaborators := {
  DENDRON_REMOTE_VAULTS : list RemoteVaultPreset;
  DEPENDENCIES : string;
  LOCAL_DEPENDENCY : string;
  pathJoin : list string → string;
  getRepoNameFromURL : string → string;
  remoteUrlToDependencyPath : string → string → string;
  getName : DVault → string;
  getRelPath : DVault → string;
  toWorkspaceFolder : DVault → WorkspaceFolderRaw;
  normVaultPath : string → string → string;
  isSelfContainedVault : DVault → bool;
  getVaultsFromRepo : string → string → option string → Discovered
}.

(** What the command does to the editor host, git, the workspace service
    and the files of the workspace, in program order. *)
Inductive Event :=
| EShowQuickPick (labels : list string)
| EQuickPickShow (items : list SourceQuickPickEntry)
| EQuickPickHide
| EShowInputBox (prompt : string) (value : option string)
| EShowInformationMessage (msg : string)
| EProgress (msg : string)
| EGitClone (repoPath : option string) (localPath : string)
| EGetVaultsFromRepo (repoPath : string)
| ECreateVault (v : DVault)
| ECreateSelfContainedVault (v : DVault)
| EAddWorkspace (w : DWorkspace)
| EWriteCodeWorkspaceSettings (s : WorkspaceSettings)
| EAddToGitignore (addPath root : string) (noCreateIfMissing : bool)
| EEnsureDir (dir : string)
| EReloadWindow.

(** The editor host and the workspace on disk as the command sees them.
    [quickPick] is the user's answer to the source type pick, [accepts]
    the accepts of the preset pick (the text typed and the item selected),
    [inputBox] the answers to the input boxes, in order; a missing answer
    is a dismissed prompt. *)
Record State := {
  wsType : WorkspaceType;
  wsRoot : string;
  config : DendronConfig;
  codeWorkspace : option WorkspaceSettings;
  quickPick : option VaultRemoteSource;
  accepts : list (string * SourceQuickPickEntry);
  inputBox : list (option string);
  trace : list Event
}.

Definition setTrace (t : list Event) (st : State) : State :=
  {| wsType := wsType st; wsRoot := wsRoot st; config := config st;
     codeWorkspace := codeWorkspace st; quickPick := quickPick st;
     accepts := accepts st; inputBox := inputBox st; trace := t |}.

Definition setInputBox (i : list (option string)) (st : State) : State :=
  {| wsType := wsType st; wsRoot := wsRoot st; config := config st;
     codeWorkspace := codeWorkspace st; quickPick := quickPick st;
     accepts := accepts st; inputBox := i; trace := trace st |}.

Definition setAccepts (a : list (string * SourceQuickPickEntry)) (st : State)
  : State :=
  {| wsType := wsType st; wsRoot := wsRoot st; config := config st;
     codeWorkspace := codeWorkspace st; quickPick := quickPick st;
     accepts := a; inputBox := inputBox st; trace := trace st |}.

Definition setCodeWorkspace (c : option WorkspaceSettings) (st : State) : State :=
  {| wsType := wsType st; wsRoot := wsRoot st; config := config st;
     codeWorkspace := c; quickPick := quickPick st;
     accepts := accepts st; inputBox := inputBox st; trace := trace st |}.

Definition emit (e : Event) : M State unit :=
  modify (fun st => setTrace (trace st ++ [e]) st).

(** The events that ask something of the user or tell the user
    something. *)
Definition isPrompt (e : Event) : bool :=
  match e with
  | EShowQuickPick _ | EQuickPickShow _ | EQuickPickHide
  | EShowInputBox _ _ | EShowInformationMessage _ => true
  | _ => false
  end.

(** The events that register a vault or a workspace with the workspace
    service, or patch the files of the workspace ([dendron.code-workspace],
    [.gitignore], the vault directory). *)
Definition isRegistrationOrPatch (e : Event) : bool :=
  match e with
  | ECreateVault _ | ECreateSelfContainedVault _ | EAddWorkspace _
  | EWriteCodeWorkspaceSettings _ | EAddToGitignore _ _ _ | EEnsureDir _ => true
  | _ => false
  end.

(** The host [st'] is [st] after the events [ps], all of them prompts:
    the workspace, its config and its files are as they were. *)
Definition prompted (st st' : State) (ps : list Event) : Prop :=
  trace st' = trace st ++ ps
  ∧ Forall (fun e => isPrompt e = true) ps
  ∧ wsType st' = wsType st
  ∧ wsRoot st' = wsRoot st
  ∧ config st' = config st
  ∧ codeWorkspace st' = codeWorkspace st.

(** A step that only asks: whatever the host and however the step ends, it
    has added prompts and nothing else. *)
Definition asks {A} (m : M State A) : Prop :=
  ∀ st, ∃ ps, prompted st (snd (m st)) ps.

(** A step that raises no error but those in [P]. *)
Definition raisesOnly {A} (P : DendronError → Prop) (m : M State A) : Prop :=
  ∀ st e, fst (m st) = Throw e → P e.

(** The host [st'] is [st] after the events [body], all of them
    registrations or patches; the kind and the root of the workspace are
    the same and a [dendron.code-workspace] that was there still is. *)
Definition patched (st st' : State) (body : list Event) : Prop :=
  trace st' = trace st ++ body
  ∧ Forall (fun e => isRegistrationOrPatch e = true) body
  ∧ wsType st' = wsType st
  ∧ wsRoot st' = wsRoot st
  ∧ (is_Some (codeWorkspace st) → is_Some (codeWorkspace st')).

(** [VSCodeUtils.showQuickPick([{ label: "local", picked: true },
    { label: "remote" }])] *)
Definition showQuickPick : M State (option VaultRemoteSource) :=
  call emit (EShowQuickPick ["local"; "remote"]) ;;
  gets quickPick.

(** [VSCodeUtils.showInputBox({ prompt, value, ... })]: the call, which
    opens the input box, and the answer its promise is fulfilled with. *)
Definition openInputBox (prompt : string) (value : option string)
  : M State unit :=
  emit (EShowInputBox prompt value).

Definition awaitInputBox : M State (option string) :=
  do answers <~ gets inputBox ;;
  call modify (setInputBox (tail answers)) ;;
  ret (mjoin (head answers)).

(** [await VSCodeUtils.showInputBox({ prompt, value, ... })] *)
Definition showInputBox (prompt : string) (value : option string)
  : M State (option string) :=
  call openInputBox prompt value ;;
  awaitInputBox.

(** [window.showInformationMessage(msg)] *)
Definition showInformationMessage (msg : string) : M State unit :=
  emit (EShowInformationMessage msg).

(** [GitUtils.addToGitignore({ addPath, root, noCreateIfMissing })] *)
Definition addToGitignore (addPath root : string) (noCreateIfMissing : bool)
  : M State unit :=
  emit (EAddToGitignore addPath root noCreateIfMissing).

(** Modelled from the spec: [assignJSONWithComment] is not among the
    sources; section 4 has the command patch the workspace-folder list.
    For [assignJSONWithComment({ folders }, wsSettings)] the folders are
    replaced and the rest of the file is kept. *)
Definition assignFolders (fs : list WorkspaceFolderRaw) (s : WorkspaceSettings)
  : WorkspaceSettings :=
  {| folders := fs; rest := rest s |}.

(** Modelled from the spec: [WorkspaceUtils.writeCodeWorkspaceSettings] is
    not among the sources; the settings given become the content of
    [dendron.code-workspace]. *)
Definition writeCodeWorkspaceSettings (s : WorkspaceSettings) : M State unit :=
  call modify (setCodeWorkspace (Some s)) ;;
  emit (EWriteCodeWorkspaceSettings s).

(** The first call of [resolve] settles the promise; later calls do
    nothing. *)
Definition resolve {A} (v : A) (settled : option A) : option A :=
  match settled with
  | Some _ => settled
  | None => Some v
  end.

Definition withName (n : option string) (v : DVault) : DVault :=
  {| fsPath := fsPath v; name := n; selfContained := selfContained v |}.

(** [handleRemoteRepo], lines 229 to 231:
    [if (_.size(vaults) === 1 && opts.name) vaults[0].name = opts.name] *)
Definition overrideName (opts : CommandOpts) (vs : list DVault) : list DVault :=
  if Nat.eqb (length vs) 1 && truthy (optName opts)
  then match vs with
       | v :: vs' => withName (optName opts) v :: vs'
       | [] => []
       end
  else vs.

(** The same assignment on the store of the discovered objects: the
    object at the address [vaults[0]] is changed in place, for every array
    that holds this address. *)
Definition renameFirst (opts : CommandOpts) (d : Discovered) : nat → DVault :=
  if Nat.eqb (length (vaultRefs d)) 1 && truthy (optName opts)
  then match vaultRefs d with
       | r :: _ => <[ r := withName (optName opts) (objects d r) ]> (objects d)
       | [] => objects d
       end
  else objects d.

(** The [vaults] array and the [workspace] read through a store. *)
Definition readVaults (store : nat → DVault) (d : Discovered) : list DVault :=
  map store (vaultRefs d).

Definition readWorkspace (store : nat → DVault) (d : Discovered)
  : option DWorkspace :=
  (fun w => {| wsName := fst w; wsVaults := map store (snd w) |})
    <$> workspaceRefs d.

Section Command.
Context `{Collaborators}.

(** [generateRemoteEntries] *)
Definition generateRemoteEntries : list SourceQuickPickEntry :=
  map (fun p => {| label := presetName p;
                   description := presetDescription p;
                   alwaysShow := None;
                   src := presetData p |}) DENDRON_REMOTE_VAULTS
  ++ [{| label := "custom"; description := "custom endpoint";
         alwaysShow := Some true; src := "" |}].

Definition localVaultPathPlaceholder : string := "vault2".

(** The end of the [qp.onDidAccept] callback, lines 103 to 110: what it
    does from the answer to the name prompt on. *)
Definition nameAnswered (sourceType : VaultRemoteSource)
    (sourcePath sourceRemotePath : string)
    (settled : option (option CommandOpts))
  : M State (option (option CommandOpts)) :=
  do sourceName <~ awaitInputBox ;;
  call emit EQuickPickHide ;;
  ret (resolve (Some {| type := sourceType;
                        path := sourcePath;
                        pathRemote := Some sourceRemotePath;
                        optName := sourceName;
                        isSelfContained := None |}) settled).

(** The [qp.onDidAccept] callback of [gatherVaultStandard], run on one
    accept with the text typed and the item selected; it returns the
    promise as it is when [gatherVaultStandard] can go on.  After an empty
    path the promise is settled with [undefined] and the callback goes on
    (line 94 has no [return]): it opens the name prompt and waits for its
    answer.  The promise being settled, [gatherVaultStandard] returns at
    that point; the callback is left waiting, and what it does once the
    name prompt is answered is [nameAnswered], whose [resolve] does
    nothing then. *)
Definition onDidAccept (sourceType : VaultRemoteSource) (value : string)
    (selected : SourceQuickPickEntry) (settled : option (option CommandOpts))
  : M State (option (option CommandOpts)) :=
  let custom := String.eqb (label selected) "custom" in
  if custom && isInputEmpty (Some value) then
    call showInformationMessage "please enter an endpoint" ;;
    ret settled
  else
    let sourceRemotePath := if custom then value else src selected in
    let path2Vault :=
      if custom then getRepoNameFromURL sourceRemotePath else label selected in
    let placeHolder := path2Vault in
    do out <~ showInputBox
      "Path to your new vault (relative to your workspace root)"
      (Some path2Vault) ;;
    let settled := if isInputEmpty out then resolve None settled else settled in
    let sourcePath := default "" out in
    call openInputBox
      "Name of new vault (optional, press enter to skip)" (Some placeHolder) ;;
    match settled with
    | Some _ => ret settled
    | None => nameAnswered sourceType sourcePath sourceRemotePath settled
    end.

(** The accepts of the preset pick, one after the other, until one of them
    settles the promise. *)
Fixpoint acceptLoop (sourceType : VaultRemoteSource)
    (events : list (string * SourceQuickPickEntry))
  : M State (option (option CommandOpts)) :=
  match events with
  | [] => ret None
  | (value, selected) :: events' =>
      call modify (setAccepts events') ;;
      do settled <~ onDidAccept sourceType value selected None ;;
      match settled with
      | Some r => ret (Some r)
      | None => acceptLoop sourceType events'
      end
  end.

(** [gatherVaultStandard] *)
Definition gatherVaultStandard (sourceType : VaultRemoteSource)
  : M State (option CommandOpts) :=
  match sourceType with
  | remote =>
      call emit (EQuickPickShow generateRemoteEntries) ;;
      do events <~ gets accepts ;;
      do settled <~ acceptLoop sourceType events ;;
      match settled with
      | Some r => ret r
      | None => pending
      end
  | local =>
      do out <~ showInputBox
        "Path to your new vault (relative to your workspace root)" None ;;
      if isInputEmpty out then ret None
      else
        let sourcePath := default "" out in
        do sourceName <~ showInputBox
          "Name of new vault (optional, press enter to skip)" None ;;
        ret (Some {| type := sourceType;
                     path := sourcePath;
                     pathRemote := None;
                     optName := sourceName;
                     isSelfContained := None |})
  end.

Definition duplicateVaultError (vaultName : string) : DendronError :=
  mkError ("There is already a vault with the name " +:+ vaultName
           +:+ ", please pick a different name.").

(** [config.vaults?.map(VaultUtils.getName).includes(vaultName)] *)
Definition vaultNameTaken (c : DendronConfig) (vaultName : string) : bool :=
  match configVaults c with
  | Some vs => bool_decide (vaultName ∈ map getName vs)
  | None => false
  end.

(** [gatherVaultSelfContained] *)
Definition gatherVaultSelfContained (sourceType : VaultRemoteSource)
  : M State (option CommandOpts) :=
  do vaultName <~ showInputBox "Name for the new vault" None ;;
  if isInputEmpty vaultName then ret None
  else
    let vaultName := default "" vaultName in
    do c <~ gets config ;;
    if vaultNameTaken c vaultName then throw (duplicateVaultError vaultName)
    else
      match sourceType with
      | local =>
          ret (Some {| type := sourceType;
                       path := pathJoin [DEPENDENCIES; LOCAL_DEPENDENCY; vaultName];
                       pathRemote := None;
                       optName := Some vaultName;
                       isSelfContained := Some true |})
      | remote =>
          do url <~ showInputBox "Enter the URL for the git remote" None ;;
          if isInputEmpty url then ret None
          else
            ret (Some {| type := sourceType;
                         path := pathJoin
                           [DEPENDENCIES;
                            remoteUrlToDependencyPath vaultName (default "" url)];
                         pathRemote := None;
                         optName := Some vaultName;
                         isSelfContained := Some true |})
      end.

(** [gatherInputs] *)
Definition gatherInputs : M State (option CommandOpts) :=
  do sourceTypeSelected <~ showQuickPick ;;
  match sourceTypeSelected with
  | None => ret None
  | Some sourceType =>
      do c <~ gets config ;;
      if default false (enableSelfContainedVaults c)
      then gatherVaultSelfContained sourceType
      else gatherVaultStandard sourceType
  end.

Definition noCodeWorkspaceError : DendronError :=
  createFromStatus INVALID_STATE "no dendron.code-workspace found".

(** A step that only registers and patches: whatever the host, it adds
    registration and patch events and either completes or throws the error
    of the missing [dendron.code-workspace], which it does only in a code
    workspace whose file is missing. *)
Definition registers (m : M State unit) : Prop :=
  ∀ st, ∃ body,
    patched st (snd (m st)) body
    ∧ (fst (m st) = Ok tt
       ∨ (fst (m st) = Throw noCodeWorkspaceError
          ∧ wsType st = CODE ∧ codeWorkspace st = None)).

(** [_.find(wsSettings.folders, (ent) => ent.path ===
    VaultUtils.getRelPath(vault))] *)
Definition findFolder (v : DVault) (s : WorkspaceSettings)
  : option WorkspaceFolderRaw :=
  find (fun ent => String.eqb (folderPath ent) (getRelPath v)) (folders s).

(** The folders list of [dendron.code-workspace] has an entry for the
    vault: the vault's own folder entry, or one with its relative path. *)
Definition hasFolder (v : DVault) (st : State) : Prop :=
  ∃ ws ent, codeWorkspace st = Some ws ∧ ent ∈ folders ws
            ∧ (ent = toWorkspaceFolder v ∨ folderPath ent = getRelPath v).

(** [addVaultToWorkspace] *)
Definition addVaultToWorkspace (v : DVault) : M State unit :=
  do ty <~ gets wsType ;;
  match ty with
  | NATIVE => ret tt
  | CODE =>
      do root <~ gets wsRoot ;;
      do resp <~ gets codeWorkspace ;;
      match resp with
      | None => throw noCodeWorkspaceError
      | Some wsSettings =>
          call match findFolder v wsSettings with
               | Some _ => ret tt
               | None =>
                   let vault2Folder := toWorkspaceFolder v in
                   let fs := [vault2Folder] ++ folders wsSettings in
                   writeCodeWorkspaceSettings (assignFolders fs wsSettings)
               end ;;
          call addToGitignore (fsPath v) root true ;;
          let vaultDir := pathJoin [root; fsPath v] in
          call emit (EEnsureDir vaultDir) ;;
          addToGitignore ".dendron.cache.*" vaultDir false
      end
  end.

(** [addWorkspaceToWorkspace] *)
Definition addWorkspaceToWorkspace (w : DWorkspace) : M State unit :=
  do root <~ gets wsRoot ;;
  call forEach (wsVaults w) addVaultToWorkspace ;;
  call addToGitignore (wsName w) root true ;;
  let workspaceDir := pathJoin [root; wsName w] in
  call emit (EEnsureDir workspaceDir) ;;
  addToGitignore ".dendron.cache.*" workspaceDir false.

(** The body of the loop of [handleRemoteRepo]: register the vault with
    the workspace service, then add it to the workspace. *)
Definition createAndAdd (v : DVault) : M State unit :=
  call emit (ECreateVault v) ;;
  addVaultToWorkspace v.

(** [handleRemoteRepo], lines 239 to 250: a workspace found in the clone
    is added as a whole, otherwise the vaults are added one at a time. *)
Definition registerDiscovered (vs : list DVault) (workspace : option DWorkspace)
  : M State unit :=
  match workspace with
  | Some w =>
      call emit (EAddWorkspace w) ;;
      addWorkspaceToWorkspace w
  | None => forEach vs createAndAdd
  end.

(** [handleRemoteRepo]: the name is assigned in the store of the
    discovered objects, and the vaults and the workspace are read through
    that store from then on. *)
Definition handleRemoteRepo (opts : CommandOpts)
  : M State (list DVault * option DWorkspace) :=
  call emit (EProgress "cloning repo") ;;
  do baseDir <~ gets wsRoot ;;
  call emit (EGitClone (pathRemote opts) (path opts)) ;;
  let repoPath := pathJoin [baseDir; path opts] in
  call emit (EGetVaultsFromRepo repoPath) ;;
  let found := getVaultsFromRepo repoPath baseDir (pathRemote opts) in
  let store := renameFirst opts found in
  let vs := readVaults store found in
  let workspace := readWorkspace store found in
  call emit (EProgress "adding vault") ;;
  call registerDiscovered vs workspace ;;
  ret (vs, workspace).

(** [execute] *)
Definition execute (opts : CommandOpts) : M State CommandOutput :=
  do vs <~
    match type opts with
    | remote =>
        do r <~ handleRemoteRepo opts ;;
        ret (fst r)
    | local =>
        do root <~ gets wsRoot ;;
        let v := {| fsPath := normVaultPath (path opts) root;
                    name := optName opts;
                    selfContained := isSelfContained opts |} in
        call (if isSelfContainedVault v
              then emit (ECreateSelfContainedVault v)
              else emit (ECreateVault v)) ;;
        call addVaultToWorkspace v ;;
        ret [v]
    end ;;
  call showInformationMessage "finished adding vault" ;;
  call emit EReloadWindow ;;
  ret {| vaults := vs |}.

(** Modelled from the spec: [BasicCommand.run] (commands/base) is not among
    the sources.  Section 4 has the wizard prompt and then act; section 5
    has a dismissed prompt end the command by plain early return.
    [execute] runs on what [gatherInputs] returned, unless that is
    [undefined]. *)
Definition run : M State (option CommandOutput) :=
  do opts <~ gatherInputs ;;
  match opts with
  | None => ret None
  | Some o =>
      do out <~ execute o ;;
      ret (Some out)
  end.

End Command.

End VaultAdd.

(** ** The analytics of [RenameHeaderCommand] *)

Module Analytics.
Import Host.
Local Open Scope cmd_scope.

(** The values the tracked properties and the payload hold. *)
Inductive Value :=
| VNumber (n : nat)
| VString (s : string)
| VStrings (l : list string)
| VUndefined.

(** A JavaScript object of such values, by key. *)
Abbreviation Props := (gmap string Value).

(** [{ ...a, ...b }]: the keys of both, those of [b] winning. *)
Definition spread (a b : Props) : Props := b ∪ a.

(** [NoteProps], as far as [trackProxyMetrics] reads it. *)
Record NoteProps := {
  traits : option (list string);
  children : list string;
  links : list string;
  body : string
}.

(** [CommandOpts], as far as the analytics read it: [source] and [note];
    the whole may be [undefined]. *)
Record Opts := {
  source : option string;
  note : option NoteProps
}.

(** [RespV2<RenameNotePayload>]: [out.data] may be undefined. *)
Record RespV2 (Payload : Type) := { data : option Payload }.
Arguments data {Payload} r.

(** The helpers the analytics import and the sources do not contain:
    [this.key], [EngagementEvents.RefactoringCommandUsed],
    [extractNoteChangeEntryCounts], [getAnalyticsPayload] and
    [DNodeUtils.getDepth]. *)
Class Collaborators := {
  RenameNotePayload : Type;
  key : string;
  RefactoringCommandUsed : string;
  extractNoteChangeEntryCounts : RenameNotePayload → Props;
  getAnalyticsPayload : option string → Props;
  getDepth : NoteProps → nat
}.

(** What the analytics do: a call of [AnalyticsUtils.track] and a call of
    [this.L.error]. *)
Inductive Event :=
| ETrack (event : string) (props : Props)
| ELogError (e : DendronError).

(** The extension as the analytics see it: the number of vaults of the
    engine, the error [AnalyticsUtils.track] fails with, if it fails, and
    the calls made. *)
Record State := {
  numVaults : nat;
  trackError : option DendronError;
  trace : list Event
}.

Definition emit (e : Event) : M State unit :=
  modify (fun st =>
    {| numVaults := numVaults st; trackError := trackError st;
       trace := trace st ++ [e] |}).

(** [AnalyticsUtils.track(event, props)]: the call is made, and fails with
    the error of the host when there is one. *)
Definition track (event : string) (props : Props) : M State unit :=
  call emit (ETrack event props) ;;
  do failure <~ gets trackError ;;
  match failure with
  | Some e => throw e
  | None => ret tt
  end.

(** [try { m } catch (error) { handler(error) }] *)
Definition tryCatch {A} (m : M State A) (handler : DendronError → M State A)
  : M State A :=
  fun st =>
    match m st with
    | (Throw e, st') => handler e st'
    | r => r
    end.

Section Command.
Context `{Collaborators}.

(** The object literal of [trackProxyMetrics]: [command], then the counts
    spread over it, then the metrics of the note, each key assigned in the
    order written. *)
Definition trackedProps (n : NoteProps) (noteChangeEntryCounts : Props)
    (vaults : nat) : Props :=
  <[ "noteDepth" := VNumber (getDepth n) ]>
  (<[ "numChars" := VNumber (String.length (body n)) ]>
  (<[ "numLinks" := VNumber (length (links n)) ]>
  (<[ "numChildren" := VNumber (length (children n)) ]>
  (<[ "traits" := from_option VStrings VUndefined (traits n) ]>
  (<[ "numVaults" := VNumber vaults ]>
  (spread {[ "command" := VString key ]} noteChangeEntryCounts)))))).

(** [trackProxyMetrics] *)
Definition trackProxyMetrics (opts : option Opts) (noteChangeEntryCounts : Props)
  : M State unit :=
  match opts with
  | None => ret tt
  | Some o =>
      match note o with
      | None => ret tt
      | Some n =>
          do vaults <~ gets numVaults ;;
          track RefactoringCommandUsed
            (trackedProps n noteChangeEntryCounts vaults)
      end
  end.

(** [out && out.data !== undefined
      ? { ...extractNoteChangeEntryCounts(out.data) } : {}] *)
Definition countsOf (out : option (RespV2 RenameNotePayload)) : Props :=
  match out with
  | Some o =>
      match data o with
      | Some d => extractNoteChangeEntryCounts d
      | None => ∅
      end
  | None => ∅
  end.

(** [addAnalyticsPayload] *)
Definition addAnalyticsPayload (opts : option Opts)
    (out : option (RespV2 RenameNotePayload)) : M State Props :=
  let noteChangeEntryCounts := countsOf out in
  call tryCatch (trackProxyMetrics opts noteChangeEntryCounts)
         (fun error => emit (ELogError error)) ;;
  ret (spread noteChangeEntryCounts (getAnalyticsPayload (opts ≫= source))).

End Command.

End Analytics.

(** ** What [VaultAddCommand] adds to the trace and to the folders *)

Module VaultAddTrace.
Import Host VaultAdd.

(** The events a step has added when it takes the host from [st] to
    [st']. *)
Definition added (st st' : State) : list Event :=
  drop (length (trace st)) (trace st').

(** The events that patch the files of the workspace. *)
Definition isPatch (e : Event) : bool :=
  match e with
  | EWriteCodeWorkspaceSettings _ | EAddToGitignore _ _ _ | EEnsureDir _ => true
  | _ => false
  end.

(** A step all of whose events are of one kind. *)
Definition emitsOnly {A} (P : Event → bool) (m : M State A) : Prop :=
  ∀ st, ∃ evs, trace (snd (m st)) = trace st ++ evs
               ∧ Forall (fun e => P e = true) evs.

(** A step that keeps the folders: a [dendron.code-workspace] that is
    missing stays missing, and the folders of one that is there are still
    there afterwards, in their order, behind whatever was put in front;
    the other settings of the file are as they were. *)
Definition keepsFolders {A} (m : M State A) : Prop :=
  ∀ st,
    match codeWorkspace st with
    | None => codeWorkspace (snd (m st)) = None
    | Some ws =>
        ∃ new ws1, codeWorkspace (snd (m st)) = Some ws1
                   ∧ folders ws1 = new ++ folders ws
                   ∧ rest ws1 = rest ws
    end.

Section Steps.
Context `{Collaborators}.

(** What [addVaultToWorkspace] adds for a vault, in a workspace of the
    given kind and root: nothing in a native workspace; in a code
    workspace at most one write of [dendron.code-workspace], with the
    folder of the vault in front, then the [.gitignore] entry of the
    vault, its directory and the cache entry in it. *)
Definition vaultPatch (ty : WorkspaceType) (root : string) (v : DVault)
    (seg : list Event) : Prop :=
  match ty with
  | NATIVE => seg = []
  | CODE =>
      let vaultDir := pathJoin [root; fsPath v] in
      ∃ write,
        seg = write ++ [EAddToGitignore (fsPath v) root true;
                        EEnsureDir vaultDir;
                        EAddToGitignore ".dendron.cache.*" vaultDir false]
        ∧ (write = []
           ∨ ∃ s, write = [EWriteCodeWorkspaceSettings s]
                  ∧ head (folders s) = Some (toWorkspaceFolder v))
  end.



End Steps.

End VaultAddTrace.

(** ** Concrete dictionaries, hosts and workspaces *)

Module Examples.
Import Hierarchy.

(** The dictionary of the [matchPath] tests after
    [engine.updateSchema(schema)]: the module [foo] of the preset and the
    namespace module [bond]. *)
Definition bond : Schema.SchemaModuleProps :=
  Schema.setRootNamespace true (Schema.createModuleProps "bond").

Definition bondRoot : Schema.SchemaProps :=
  {| Schema.id := "bond";
     Schema.data := {| Schema.namespace := Some true |} |}.

Definition testDict : gmap string Schema.SchemaModuleProps :=
  <[ "bond" := bond ]> {[ "foo" := Schema.createModuleProps "foo" ]}.

(** Two namespace modules, one rooted under the other. *)
Definition nestedDict : gmap string Schema.SchemaModuleProps :=
  <[ "a.b" := Schema.setRootNamespace true (Schema.createModuleProps "a.b") ]>
    {[ "a" := Schema.setRootNamespace true (Schema.createModuleProps "a") ]}.

(** The vault of the [matchDomain] tests: the notes [foo] and [bond.ch1]
    ([NoteUtilsV2.create({ fname, id, created: "1", updated: "1" })]) and
    the schema files of [testDict]. *)
Definition mkNote (fname : string) : Engine.NoteProps :=
  {| Engine.fname := fname; Engine.id := fname; Engine.created := "1";
     Engine.updated := "1"; Engine.schema := None |}.

Definition testStore : Engine.FileStorage :=
  {| Engine.noteFiles :=
       <[ "bond.ch1" := mkNote "bond.ch1" ]> {[ "foo" := mkNote "foo" ]};
     Engine.schemaFiles := testDict |}.

(** A machine on which an engine for the workspace [/ws] is already
    running on port 3005, and the options of the [setupEngine] test. *)
Definition runningEngine : Engine.DEngine :=
  Engine.init (Engine.create testStore).

Definition testWorld : Cli.World :=
  {| Cli.listening := {[ 3005 := runningEngine ]};
     Cli.enginePort := {[ "/ws" := 3005 ]};
     Cli.workspaces := {[ "/ws" := testStore ]};
     Cli.freePort := 3006 |}.

Definition attachOpts : Cli.SetupEngineOpts :=
  {| Cli.wsRoot := "/ws"; Cli.noWritePort := true; Cli.attach := true;
     Cli.target := "cli" |}.

(** A small markdown processor and slugger for the header rename: a line
    that starts with [#] is a heading whose text follows the marks and one
    blank; the slug of a text is the text itself, with [-1] appended when
    the slugger gave that slug before. *)
Fixpoint stripMarks (s : string) : string :=
  match s with
  | String "#" s' => stripMarks s'
  | String " " s' => s'
  | _ => s
  end.

Definition isHeadingLine (s : string) : bool := String.prefix "#" s.

Definition demoSlug (given : list string) (s : string) : string * list string :=
  (if bool_decide (s ∈ given) then s +:+ "-1" else s, s :: given).

Definition demoRange (p : nat * nat) (ln : nat) : RenameHeader.Range :=
  {| RenameHeader.start :=
       {| RenameHeader.line := ln; RenameHeader.character := p.1 |};
     RenameHeader.end_ :=
       {| RenameHeader.line := ln; RenameHeader.character := p.2 |} |}.

Definition demoVaultName (v : RenameHeader.DVault) : string :=
  default (RenameHeader.fsPath v) (RenameHeader.vaultName v).

(** The editor of the example host replaces a range inside one line and
    keeps the selection; a saved document is clean. *)
Definition demoApplyEdit (ed : RenameHeader.TextEditor)
    (r : RenameHeader.Range) (newText : string) : RenameHeader.TextEditor :=
  let ls := RenameHeader.lines (RenameHeader.document ed) in
  let n := RenameHeader.line (RenameHeader.start r) in
  let ln := default "" (ls !! n) in
  let from := RenameHeader.character (RenameHeader.start r) in
  let to := RenameHeader.character (RenameHeader.end_ r) in
  {| RenameHeader.document :=
       {| RenameHeader.lines :=
            <[ n := String.substring 0 from ln +:+ newText
                    +:+ String.substring to (String.length ln - to) ln ]> ls;
          RenameHeader.isDirty := true |};
     RenameHeader.selection := RenameHeader.selection ed |}.

Definition demoAfterSave (ed : RenameHeader.TextEditor)
  : RenameHeader.TextEditor :=
  {| RenameHeader.document :=
       {| RenameHeader.lines := RenameHeader.lines (RenameHeader.document ed);
          RenameHeader.isDirty := false |};
     RenameHeader.selection := RenameHeader.selection ed |}.

Definition renameCollaborators : RenameHeader.Collaborators :=
  {| RenameHeader.Root := string;
     RenameHeader.Heading := string;
     RenameHeader.UnistPosition := nat * nat;
     RenameHeader.Slugger := list string;
     RenameHeader.RespV2 := RenameHeader.DNoteLoc * RenameHeader.DNoteLoc;
     RenameHeader.parse := fun s => s;
     RenameHeader.headings := fun s => if isHeadingLine s then [s] else [];
     RenameHeader.headerText := stripMarks;
     RenameHeader.headerTextPosition := fun h =>
       (String.length h - String.length (stripMarks h), String.length h);
     RenameHeader.position2VSCodeRange := demoRange;
     RenameHeader.getSlugger := [];
     RenameHeader.slug := demoSlug;
     RenameHeader.getName := demoVaultName;
     RenameHeader.renameNote := fun o n => (o, n);
     RenameHeader.applyEdit := demoApplyEdit;
     RenameHeader.afterSave := demoAfterSave |}.

Definition demoNote : RenameHeader.NoteProps :=
  {| RenameHeader.fname := "foo";
     RenameHeader.vault :=
       {| RenameHeader.fsPath := "vault"; RenameHeader.vaultName := None |} |}.

Definition demoEditor : RenameHeader.TextEditor :=
  {| RenameHeader.document :=
       {| RenameHeader.lines := ["# Foo"; "## Old header"; "body"];
          RenameHeader.isDirty := false |};
     RenameHeader.selection := Some (demoRange (0, 0) 1) |}.

(** The note [foo] is open, the cursor is on its header line, and the user
    answers the prompt with [New header]. *)
Definition renameHost : RenameHeader.State :=
  {| RenameHeader.activeNote := Some demoNote;
     RenameHeader.activeTextEditor := Some demoEditor;
     RenameHeader.getNoteFromDocument := fun _ => Some demoNote;
     RenameHeader.inputBox := [Some "New header"];
     RenameHeader.trace := [] |}.

(** The same host when the user dismisses the prompt. *)
Definition renameHostCancelled : RenameHeader.State :=
  {| RenameHeader.activeNote := Some demoNote;
     RenameHeader.activeTextEditor := Some demoEditor;
     RenameHeader.getNoteFromDocument := fun _ => Some demoNote;
     RenameHeader.inputBox := [None];
     RenameHeader.trace := [] |}.

(** The helpers of the vault-add command on a POSIX workspace: paths are
    joined with [/], a vault is named after its folder unless it has a
    name, and the folder entry of a vault carries its relative path.  The
    repository cloned to [/ws/multi] holds two vaults, the one cloned to
    [/ws/solo] a workspace [solo] whose single vault is the object of the
    [vaults] array, any other a single vault at the root of the clone. *)
Definition joinPath (parts : list string) : string :=
  match parts with
  | [] => ""
  | p :: ps => foldl (fun acc q => acc +:+ "/" +:+ q) p ps
  end.

Definition vaultAt (fsPath : string) : VaultAdd.DVault :=
  {| VaultAdd.fsPath := fsPath; VaultAdd.name := None;
     VaultAdd.selfContained := None |}.

Definition vaultCollaborators : VaultAdd.Collaborators :=
  {| VaultAdd.DENDRON_REMOTE_VAULTS :=
       [{| VaultAdd.presetName := "dendron";
           VaultAdd.presetDescription := "dendron.so notes";
           VaultAdd.presetData := "https://example.org/dendron-site.git" |}];
     VaultAdd.DEPENDENCIES := "dependencies";
     VaultAdd.LOCAL_DEPENDENCY := "localhost";
     VaultAdd.pathJoin := joinPath;
     VaultAdd.getRepoNameFromURL := fun url => url;
     VaultAdd.remoteUrlToDependencyPath := fun vaultName url =>
       url +:+ "/" +:+ vaultName;
     VaultAdd.getName := fun v =>
       default (VaultAdd.fsPath v) (VaultAdd.name v);
     VaultAdd.getRelPath := VaultAdd.fsPath;
     VaultAdd.toWorkspaceFolder := fun v =>
       {| VaultAdd.folderPath := VaultAdd.fsPath v;
          VaultAdd.folderName := VaultAdd.name v |};
     VaultAdd.normVaultPath := fun p _ => p;
     VaultAdd.isSelfContainedVault := fun v =>
       bool_decide (VaultAdd.selfContained v = Some true);
     VaultAdd.getVaultsFromRepo := fun repoPath _ _ =>
       if String.eqb repoPath "/ws/multi"
       then {| VaultAdd.objects := fun r =>
                 if Nat.eqb r 0 then vaultAt "multi/a" else vaultAt "multi/b";
               VaultAdd.vaultRefs := [0; 1];
               VaultAdd.workspaceRefs := None |}
       else if String.eqb repoPath "/ws/solo"
       then {| VaultAdd.objects := fun _ => vaultAt "solo/notes";
               VaultAdd.vaultRefs := [0];
               VaultAdd.workspaceRefs := Some ("solo", [0]) |}
       else {| VaultAdd.objects := fun _ => vaultAt "site";
               VaultAdd.vaultRefs := [0];
               VaultAdd.workspaceRefs := None |} |}.

Definition presetEntry : VaultAdd.SourceQuickPickEntry :=
  {| VaultAdd.label := "dendron";
     VaultAdd.description := "dendron.so notes";
     VaultAdd.alwaysShow := None;
     VaultAdd.src := "https://example.org/dendron-site.git" |}.

Definition vaultSettings : VaultAdd.WorkspaceSettings :=
  {| VaultAdd.folders :=
       [{| VaultAdd.folderPath := "vault"; VaultAdd.folderName := None |}];
     VaultAdd.rest := "" |}.

(** A code workspace at [/ws] with one vault; the user picks the remote
    source, accepts the preset, keeps the proposed path [site] and names
    the vault [docs]. *)
Definition vaultHost : VaultAdd.State :=
  {| VaultAdd.wsType := VaultAdd.CODE;
     VaultAdd.wsRoot := "/ws";
     VaultAdd.config :=
       {| VaultAdd.configVaults := Some [vaultAt "vault"];
          VaultAdd.enableSelfContainedVaults := None |};
     VaultAdd.codeWorkspace := Some vaultSettings;
     VaultAdd.quickPick := Some VaultAdd.remote;
     VaultAdd.accepts := [("", presetEntry)];
     VaultAdd.inputBox := [Some "site"; Some "docs"];
     VaultAdd.trace := [] |}.

(** The same workspace when the user picks the local source, gives the
    path [vault2] and dismisses the optional name prompt. *)
Definition vaultHostLocal : VaultAdd.State :=
  {| VaultAdd.wsType := VaultAdd.CODE;
     VaultAdd.wsRoot := "/ws";
     VaultAdd.config :=
       {| VaultAdd.configVaults := Some [vaultAt "vault"];
          VaultAdd.enableSelfContainedVaults := None |};
     VaultAdd.codeWorkspace := Some vaultSettings;
     VaultAdd.quickPick := Some VaultAdd.local;
     VaultAdd.accepts := [];
     VaultAdd.inputBox := [Some "vault2"; None];
     VaultAdd.trace := [] |}.

(** The same workspace with self contained vaults enabled, when the user
    picks the local source and names the new vault [vault], a name that is
    taken. *)
Definition vaultHostTaken : VaultAdd.State :=
  {| VaultAdd.wsType := VaultAdd.CODE;
     VaultAdd.wsRoot := "/ws";
     VaultAdd.config :=
       {| VaultAdd.configVaults := Some [vaultAt "vault"];
          VaultAdd.enableSelfContainedVaults := Some true |};
     VaultAdd.codeWorkspace := Some vaultSettings;
     VaultAdd.quickPick := Some VaultAdd.local;
     VaultAdd.accepts := [];
     VaultAdd.inputBox := [Some "vault"];
     VaultAdd.trace := [] |}.

(** A code workspace whose [dendron.code-workspace] is missing. *)
Definition vaultHostNoFile : VaultAdd.State :=
  {| VaultAdd.wsType := VaultAdd.CODE;
     VaultAdd.wsRoot := "/ws";
     VaultAdd.config :=
       {| VaultAdd.configVaults := Some [vaultAt "vault"];
          VaultAdd.enableSelfContainedVaults := None |};
     VaultAdd.codeWorkspace := None;
     VaultAdd.quickPick := None;
     VaultAdd.accepts := [];
     VaultAdd.inputBox := [];
     VaultAdd.trace := [] |}.

Definition remoteOpts (path : string) (name : option string)
  : VaultAdd.CommandOpts :=
  {| VaultAdd.type := VaultAdd.remote;
     VaultAdd.path := path;
     VaultAdd.pathRemote := Some "https://example.org/dendron-site.git";
     VaultAdd.optName := name;
     VaultAdd.isSelfContained := None |}.

Definition localOpts (path : string) (name : option string)
  : VaultAdd.CommandOpts :=
  {| VaultAdd.type := VaultAdd.local;
     VaultAdd.path := path;
     VaultAdd.pathRemote := None;
     VaultAdd.optName := name;
     VaultAdd.isSelfContained := None |}.

End Examples.

(** ** Further hosts of the vault-add command *)

Module MoreExamples.
Import Examples.

(** A workspace found in a clone: two vaults under [team]. *)
Definition teamWorkspace : VaultAdd.DWorkspace :=
  {| VaultAdd.wsName := "team";
     VaultAdd.wsVaults := [vaultAt "team/a"; vaultAt "team/b"] |}.

(** The helpers of [vaultCollaborators], on a machine where every clone
    holds the workspace [team]. *)
Definition workspaceCollaborators : VaultAdd.Collaborators :=
  {| VaultAdd.DENDRON_REMOTE_VAULTS :=
       @VaultAdd.DENDRON_REMOTE_VAULTS vaultCollaborators;
     VaultAdd.DEPENDENCIES := "dependencies";
     VaultAdd.LOCAL_DEPENDENCY := "localhost";
     VaultAdd.pathJoin := joinPath;
     VaultAdd.getRepoNameFromURL := fun url => url;
     VaultAdd.remoteUrlToDependencyPath := fun vaultName url =>
       url +:+ "/" +:+ vaultName;
     VaultAdd.getName := fun v =>
       default (VaultAdd.fsPath v) (VaultAdd.name v);
     VaultAdd.getRelPath := VaultAdd.fsPath;
     VaultAdd.toWorkspaceFolder := fun v =>
       {| VaultAdd.folderPath := VaultAdd.fsPath v;
          VaultAdd.folderName := VaultAdd.name v |};
     VaultAdd.normVaultPath := fun p _ => p;
     VaultAdd.isSelfContainedVault := fun v =>
       bool_decide (VaultAdd.selfContained v = Some true);
     VaultAdd.getVaultsFromRepo := fun _ _ _ =>
       {| VaultAdd.objects := fun r =>
            if Nat.eqb r 0 then vaultAt "team/a" else vaultAt "team/b";
          VaultAdd.vaultRefs := [0; 1];
          VaultAdd.workspaceRefs := Some ("team", [0; 1]) |} |}.

(** A native workspace at [/ws]: there is no [dendron.code-workspace]. *)
Definition nativeHost : VaultAdd.State :=
  {| VaultAdd.wsType := VaultAdd.NATIVE;
     VaultAdd.wsRoot := "/ws";
     VaultAdd.config :=
       {| VaultAdd.configVaults := Some [vaultAt "vault"];
          VaultAdd.enableSelfContainedVaults := None |};
     VaultAdd.codeWorkspace := None;
     VaultAdd.quickPick := None;
     VaultAdd.accepts := [];
     VaultAdd.inputBox := [];
     VaultAdd.trace := [] |}.

Definition customEntry : VaultAdd.SourceQuickPickEntry :=
  {| VaultAdd.label := "custom";
     VaultAdd.description := "custom endpoint";
     VaultAdd.alwaysShow := Some true;
     VaultAdd.src := "" |}.

(** The user accepts the custom entry with nothing typed, then the
    preset. *)
Definition vaultHostRetry : VaultAdd.State :=
  {| VaultAdd.wsType := VaultAdd.CODE;
     VaultAdd.wsRoot := "/ws";
     VaultAdd.config :=
       {| VaultAdd.configVaults := Some [vaultAt "vault"];
          VaultAdd.enableSelfContainedVaults := None |};
     VaultAdd.codeWorkspace := Some vaultSettings;
     VaultAdd.quickPick := Some VaultAdd.remote;
     VaultAdd.accepts := [("", customEntry); ("", presetEntry)];
     VaultAdd.inputBox := [Some "site"; Some "docs"];
     VaultAdd.trace := [] |}.

(** The user accepts the preset, dismisses the path prompt and answers
    the name prompt. *)
Definition vaultHostDismissed : VaultAdd.State :=
  {| VaultAdd.wsType := VaultAdd.CODE;
     VaultAdd.wsRoot := "/ws";
     VaultAdd.config :=
       {| VaultAdd.configVaults := Some [vaultAt "vault"];
          VaultAdd.enableSelfContainedVaults := None |};
     VaultAdd.codeWorkspace := Some vaultSettings;
     VaultAdd.quickPick := Some VaultAdd.remote;
     VaultAdd.accepts := [("", presetEntry)];
     VaultAdd.inputBox := [None; Some "docs"];
     VaultAdd.trace := [] |}.

(** Self contained vaults enabled; the user picks the remote source,
    names the vault [notes] and gives the URL of its remote. *)
Definition vaultHostSelfContained : VaultAdd.State :=
  {| VaultAdd.wsType := VaultAdd.CODE;
     VaultAdd.wsRoot := "/ws";
     VaultAdd.config :=
       {| VaultAdd.configVaults := Some [vaultAt "vault"];
          VaultAdd.enableSelfContainedVaults := Some true |};
     VaultAdd.codeWorkspace := Some vaultSettings;
     VaultAdd.quickPick := Some VaultAdd.remote;
     VaultAdd.accepts := [];
     VaultAdd.inputBox := [Some "notes"; Some "example.org/notes.git"];
     VaultAdd.trace := [] |}.

(** The old header of the note [foo], as a caller supplies it. *)
Definition demoOldHeader : RenameHeader.OldHeader :=
  {| RenameHeader.text := "Old header";
     RenameHeader.range := demoRange (3, 13) 1 |}.

End MoreExamples.

(** * Properties *)

(** ** Dotted names *)

Module HierarchyFacts.
Import Hierarchy.

Lemma append_cons (x : ascii) (a b : string) :
  String x a +:+ b = String x (a +:+ b).
Proof. reflexivity. Qed.

Lemma append_nil_l (b : string) : "" +:+ b = b.
Proof. reflexivity. Qed.

Lemma append_assoc (a b c : string) : (a +:+ b) +:+ c = a +:+ (b +:+ c).
Proof.
  induction a as [|x a IH]; [done|].
  by rewrite !append_cons, IH.
Qed.

Lemma append_nil_r (a : string) : a +:+ "" = a.
Proof.
  induction a as [|x a IH]; [done|].
  by rewrite append_cons, IH.
Qed.

Lemma splitAt_app (s1 s2 acc : string) :
  splitAt acc (s1 +:+ s2) = splitAt acc s1 ++ splitAt (acc +:+ s1) s2.
Proof.
  revert acc. induction s1 as [|c s1 IH]; intros acc.
  - by rewrite append_nil_l, append_nil_r.
  - rewrite append_cons. simpl. rewrite !IH.
    replace ((acc +:+ String c "") +:+ s1) with (acc +:+ String c s1)
      by (by rewrite append_assoc).
    destruct (Ascii.eqb c dot); done.
Qed.

(** The names on the way to a child path: those on the way to the parent,
    the parent, and those below it. *)
Lemma ancestors_child (N suffix : string) :
  ancestors (child N suffix)
  = ancestors N ++ N :: splitAt (N +:+ ".") suffix.
Proof.
  unfold ancestors, child. rewrite splitAt_app.
  by rewrite append_cons, append_nil_l.
Qed.

(** A domain has no ancestors. *)
Lemma splitAt_domain (s acc : string) : isDomain s = true → splitAt acc s = [].
Proof.
  revert acc. induction s as [|c s IH]; intros acc; simpl; [done|].
  destruct (Ascii.eqb c dot); simpl; [done | auto].
Qed.

Lemma ancestors_domain (N : string) : isDomain N = true → ancestors N = [].
Proof. apply splitAt_domain. Qed.

Lemma prefix_app (a b : string) : String.prefix a (a +:+ b) = true.
Proof.
  induction a as [|x a IH]; [by destruct b|].
  rewrite append_cons. simpl.
  destruct (ascii_dec x x); [done | congruence].
Qed.

Lemma isChildPath_child (N suffix : string) :
  isChildPath N (child N suffix) = true.
Proof.
  unfold isChildPath, child.
  rewrite <- append_assoc. apply prefix_app.
Qed.

End HierarchyFacts.

(** ** [matchPath] *)

Module SchemaFacts.
Import Hierarchy HierarchyFacts Schema.

Lemma firstMatch_skip (names rest : list string) (notePath : string)
    (d : gmap string SchemaModuleProps) :
  (∀ A m, A ∈ names → d !! A = Some m → matchRoot m notePath = None) →
  firstMatch (names ++ rest) notePath d = firstMatch rest notePath d.
Proof.
  induction names as [|k names IH]; intros Hnone; [done|].
  simpl. destruct (d !! k) as [m|] eqn:Hk.
  - rewrite (Hnone k m); [|left|done].
    apply IH. intros A m' HA. apply Hnone. by right.
  - apply IH. intros A m' HA. apply Hnone. by right.
Qed.

Lemma firstMatch_hit (k : string) (rest : list string) (notePath : string)
    (d : gmap string SchemaModuleProps) (m : SchemaModuleProps)
    (r : SchemaMatchResult) :
  d !! k = Some m → matchRoot m notePath = Some r →
  firstMatch (k :: rest) notePath d = Some r.
Proof. intros Hk Hm. simpl. by rewrite Hk, Hm. Qed.

(** Whatever [firstMatch] returns is the matching root of a registered
    module. *)
Lemma firstMatch_Some (names : list string) (notePath : string)
    (d : gmap string SchemaModuleProps) (r : SchemaMatchResult) :
  firstMatch names notePath d = Some r →
  ∃ k m, k ∈ names ∧ d !! k = Some m ∧ matchRoot m notePath = Some r.
Proof.
  induction names as [|k names IH]; [done|]. simpl.
  destruct (d !! k) as [m|] eqn:Hk.
  - destruct (matchRoot m notePath) as [r'|] eqn:Hm.
    + intros [= <-]. exists k, m. split; [left | done].
    + intros (k' & m' & ? & ?)%IH. exists k', m'. split; [by right | done].
  - intros (k' & m' & ? & ?)%IH. exists k', m'. split; [by right | done].
Qed.

Lemma matchRoot_Some (m : SchemaModuleProps) (notePath : string)
    (r : SchemaMatchResult) :
  matchRoot m notePath = Some r →
  schemaModule r = m ∧ schemas m !! id (root m) = Some (schema r)
  ∧ schemaMatches (schema r) notePath = true.
Proof.
  unfold matchRoot. destruct (schemas m !! id (root m)) as [s|]; [|done].
  destruct (schemaMatches s notePath) eqn:Hs; [|done].
  by intros [= <-].
Qed.

Lemma matchRoot_own (m : SchemaModuleProps) (s : SchemaProps) :
  schemas m !! id (root m) = Some s →
  matchRoot m (id s) = Some {| schema := s; schemaModule := m |}.
Proof.
  intros Hs. unfold matchRoot, schemaMatches.
  by rewrite Hs, String.eqb_refl.
Qed.

Lemma matchRoot_child (m : SchemaModuleProps) (s : SchemaProps)
    (suffix : string) :
  schemas m !! id (root m) = Some s → isNamespace s = true →
  matchRoot m (child (id s) suffix)
  = Some {| schema := s; schemaModule := m |}.
Proof.
  intros Hs Hns. unfold matchRoot, schemaMatches.
  by rewrite Hs, Hns, isChildPath_child, orb_true_r.
Qed.

(** Two namespace modules, one rooted under the other, both claim the
    inner module's own path; no resolution, whatever it is, can give that
    path to both. *)
Lemma nested_namespaces_conflict
    (resolve : string → gmap string SchemaModuleProps → option SchemaMatchResult) :
  ¬ (resolvesTo (resolve "a.b" Examples.nestedDict) "a"
     ∧ resolvesTo (resolve "a.b" Examples.nestedDict) "a.b").
Proof.
  intros [(r & Hr & Ha) (r' & Hr' & Hab)].
  rewrite Hr in Hr'. injection Hr' as <-. by rewrite Ha in Hab.
Qed.

(** C1, as stated, fails: in a dictionary that holds the namespace module
    [a] and the namespace module [a.b], the path [a.b] of the inner module
    is resolved to [a], not to [a.b]. *)
Lemma matchPath_nested_namespace_counterexample :
  ∃ m s, rootedAt Examples.nestedDict "a.b" m s
         ∧ isNamespace s = true
         ∧ resolvesTo (matchPath "a.b" Examples.nestedDict) "a"
         ∧ ¬ resolvesTo (matchPath "a.b" Examples.nestedDict) "a.b".
Proof.
  exists (setRootNamespace true (createModuleProps "a.b")),
         {| id := "a.b"; data := {| namespace := Some true |} |}.
  assert (resolvesTo (matchPath "a.b" Examples.nestedDict) "a") as Ha.
  { eexists. split; [by vm_compute | done]. }
  split; [|split; [|split]].
  - repeat split; by vm_compute.
  - by vm_compute.
  - exact Ha.
  - intros Hab. by apply (nested_namespaces_conflict matchPath).
Qed.

Lemma matchPath_own (d : gmap string SchemaModuleProps) (N : string)
    (m : SchemaModuleProps) (s : SchemaProps) :
  rootedAt d N m s → unshadowed d N N →
  matchPath N d = Some {| schema := s; schemaModule := m |}.
Proof.
  intros (Hd & _ & Hs & <-) Hun. unfold matchPath.
  rewrite firstMatch_skip by exact Hun.
  apply (firstMatch_hit _ _ _ _ m); [done | by apply matchRoot_own].
Qed.

Lemma matchPath_child (d : gmap string SchemaModuleProps) (N suffix : string)
    (m : SchemaModuleProps) (s : SchemaProps) :
  rootedAt d N m s → isNamespace s = true →
  unshadowed d N (child N suffix) →
  matchPath (child N suffix) d = Some {| schema := s; schemaModule := m |}.
Proof.
  intros (Hd & _ & Hs & <-) Hns Hun. unfold matchPath.
  rewrite ancestors_child, <- app_assoc.
  rewrite firstMatch_skip by exact Hun.
  apply (firstMatch_hit _ _ _ _ m); [done | by apply matchRoot_child].
Qed.

Lemma matchPath_exact_only (d : gmap string SchemaModuleProps)
    (notePath : string) (r : SchemaMatchResult) :
  matchPath notePath d = Some r → isNamespace (schema r) = false →
  notePath = id (schema r).
Proof.
  intros Hr Hns. unfold matchPath in Hr.
  apply firstMatch_Some in Hr as (k & m' & _ & _ & Hr).
  apply matchRoot_Some in Hr as (_ & _ & Hmatch).
  unfold schemaMatches in Hmatch. rewrite Hns in Hmatch.
  rewrite andb_false_l, orb_false_r in Hmatch.
  by apply String.eqb_eq.
Qed.

Lemma matchPath_module_root (d : gmap string SchemaModuleProps)
    (notePath : string) (r : SchemaMatchResult) :
  matchPath notePath d = Some r →
  schemas (schemaModule r) !! id (root (schemaModule r)) = Some (schema r).
Proof.
  intros Hr. unfold matchPath in Hr.
  apply firstMatch_Some in Hr as (k & m' & _ & _ & Hr).
  by apply matchRoot_Some in Hr as (-> & ? & _).
Qed.

(** C1 (amended).  Let a module be registered under the name [N] of its
    root schema.  When no module registered under a proper ancestor of [N]
    matches the path too, [matchPath] resolves the path [N] to that module,
    and, if the root is flagged namespace, every child path [N.<suffix>] as
    well (the schema returned is the root, whose id is [N]).  If the root is
    not flagged namespace, [N] is the only path that resolves to the
    module. *)
Theorem matchPath_resolves (d : gmap string SchemaModuleProps) (N : string)
    (m : SchemaModuleProps) (s : SchemaProps) :
  rootedAt d N m s →
  (unshadowed d N N →
     matchPath N d = Some {| schema := s; schemaModule := m |})
  ∧ (isNamespace s = true → ∀ suffix, unshadowed d N (child N suffix) →
       matchPath (child N suffix) d
       = Some {| schema := s; schemaModule := m |})
  ∧ (isNamespace s = false → ∀ notePath r,
       matchPath notePath d = Some r → schemaModule r = m → notePath = N).
Proof.
  intros Hroot. split; [|split].
  - by apply matchPath_own.
  - intros Hns suffix. by apply matchPath_child.
  - intros Hns notePath r Hr Hm.
    pose proof (matchPath_module_root _ _ _ Hr) as Hs'.
    destruct Hroot as (_ & _ & Hs & <-).
    rewrite Hm, Hs in Hs'. injection Hs' as Heq.
    rewrite Heq. apply (matchPath_exact_only d); [done|].
    by rewrite <- Heq.
Qed.

(** The dictionary of the tests: [bond] and [bond.foo] resolve to the
    namespace module [bond]. *)
Lemma matchPath_resolves_witness :
  matchPath "bond" Examples.testDict
  = Some {| schema := Examples.bondRoot; schemaModule := Examples.bond |}
  ∧ matchPath "bond.foo" Examples.testDict
    = Some {| schema := Examples.bondRoot; schemaModule := Examples.bond |}.
Proof.
  assert (rootedAt Examples.testDict "bond" Examples.bond Examples.bondRoot)
    as Hroot by (repeat split; vm_compute; reflexivity).
  assert (∀ p, unshadowed Examples.testDict "bond" p) as Hun.
  { intros p A m HA. vm_compute in HA. by apply elem_of_nil in HA. }
  destruct (matchPath_resolves _ _ _ _ Hroot) as (Hown & Hchild & _).
  split.
  - apply Hown, Hun.
  - apply (Hchild eq_refl "foo"), Hun.
Defined.

End SchemaFacts.

(** ** [engine.init] *)

Module EngineFacts.
Import Hierarchy HierarchyFacts Schema SchemaFacts.

Lemma init_lookup (e : Engine.DEngine) (k : string) :
  Engine.notes (Engine.init e) !! k
  = Engine.matchNote (Engine.schemaFiles (Engine.store e))
      <$> Engine.noteFiles (Engine.store e) !! k.
Proof. unfold Engine.init. simpl. apply lookup_fmap. Qed.

Lemma matchNote_schema (d : gmap string SchemaModuleProps)
    (n : Engine.NoteProps) (r : SchemaMatchResult) :
  matchPath (Engine.fname n) d = Some r →
  Engine.schema (Engine.matchNote d n) = Some (Engine.toNoteSchema r).
Proof. intros Hr. unfold Engine.matchNote. by rewrite Hr. Qed.

(** A domain module is the first one consulted for its own name and for
    every path below it. *)
Lemma unshadowed_domain (d : gmap string SchemaModuleProps) (N p : string) :
  isDomain N = true → unshadowed d N p.
Proof.
  intros HN A m HA. rewrite (ancestors_domain N HN) in HA.
  by apply elem_of_nil in HA.
Qed.

(** C2.  After [engine.init()] every stored note whose name [matchPath]
    resolves to a schema module carries the pair of that module's id and
    the matched schema's id.  In particular a note named [F], with [F] a
    domain module, has [{ moduleId: F, schemaId: F }], and a note named
    [N.<child>] under a namespace domain module [N] has
    [{ moduleId: N, schemaId: N }]. *)
Theorem init_schema_association (e : Engine.DEngine) (key : string)
    (n : Engine.NoteProps) :
  Engine.noteFiles (Engine.store e) !! key = Some n →
  let d := Engine.schemaFiles (Engine.store e) in
  (∀ r, matchPath (Engine.fname n) d = Some r →
     Engine.schema <$> Engine.notes (Engine.init e) !! key
     = Some (Some (Engine.toNoteSchema r)))
  ∧ (∀ F m s, Engine.fname n = F → isDomain F = true → rootedAt d F m s →
       Engine.schema <$> Engine.notes (Engine.init e) !! key
       = Some (Some {| Engine.moduleId := F; Engine.schemaId := F |}))
  ∧ (∀ N suffix m s, Engine.fname n = child N suffix → isDomain N = true →
       rootedAt d N m s → isNamespace s = true →
       Engine.schema <$> Engine.notes (Engine.init e) !! key
       = Some (Some {| Engine.moduleId := N; Engine.schemaId := N |})).
Proof.
  intros Hn d.
  assert (∀ r, matchPath (Engine.fname n) d = Some r →
     Engine.schema <$> Engine.notes (Engine.init e) !! key
     = Some (Some (Engine.toNoteSchema r))) as Hgen.
  { intros r Hr. rewrite init_lookup, Hn. simpl.
    by rewrite (matchNote_schema _ _ r). }
  split; [exact Hgen | split].
  - intros F m s HF Hdom Hroot.
    rewrite (Hgen {| schema := s; schemaModule := m |}).
    + destruct Hroot as (_ & Hm & _ & Hs).
      unfold Engine.toNoteSchema. simpl. by rewrite Hm, Hs.
    + rewrite HF. by apply matchPath_own, unshadowed_domain.
  - intros N suffix m s HF Hdom Hroot Hns.
    rewrite (Hgen {| schema := s; schemaModule := m |}).
    + destruct Hroot as (_ & Hm & _ & Hs).
      unfold Engine.toNoteSchema. simpl. by rewrite Hm, Hs.
    + rewrite HF. by apply matchPath_child, unshadowed_domain.
Qed.

(** The vault of the tests: after [init], [bond.ch1] carries
    [{ moduleId: "bond", schemaId: "bond" }]. *)
Lemma init_schema_association_witness :
  Engine.schema
    <$> Engine.notes (Engine.init (Engine.create Examples.testStore))
        !! "bond.ch1"
  = Some (Some {| Engine.moduleId := "bond"; Engine.schemaId := "bond" |}).
Proof.
  assert (Engine.noteFiles
            (Engine.store (Engine.create Examples.testStore)) !! "bond.ch1"
          = Some (Examples.mkNote "bond.ch1")) as Hn by (by vm_compute).
  destruct (init_schema_association _ _ _ Hn) as (_ & _ & Hns).
  apply (Hns "bond" "ch1" Examples.bond Examples.bondRoot);
    try reflexivity.
  repeat split; by vm_compute.
Defined.

End EngineFacts.

(** ** [setupEngine] *)

Module CliFacts.
Import Cli.

(** C6.  With [attach: true], on a machine where an engine is already
    running for the workspace, [setupEngine] attaches to it: the port
    returned is the running engine's port, the notes of the engine returned
    are the running engine's notes, and no engine is spawned (the machine
    is left as it was). *)
Theorem setupEngine_attach (opts : SetupEngineOpts) (w : World) (p : nat)
    (e : Engine.DEngine) :
  attach opts = true →
  enginePort w !! wsRoot opts = Some p →
  listening w !! p = Some e →
  ∃ resp, setupEngine opts w = Some (resp, w)
          ∧ port resp = p
          ∧ serverPort (server resp) = p
          ∧ Engine.notes (engine resp) = Engine.notes e.
Proof.
  intros Hattach Hport He. unfold setupEngine, connect.
  rewrite Hattach, Hport. simpl. rewrite He. simpl.
  eexists. split; [reflexivity | done].
Qed.

(** The machine of the test: the port is 3005 and the notes are those of
    the engine that was running. *)
Lemma setupEngine_attach_witness :
  ∃ resp, setupEngine Examples.attachOpts Examples.testWorld
          = Some (resp, Examples.testWorld)
          ∧ port resp = 3005
          ∧ serverPort (server resp) = 3005
          ∧ Engine.notes (engine resp) = Engine.notes Examples.runningEngine.
Proof.
  apply (setupEngine_attach Examples.attachOpts Examples.testWorld 3005
           Examples.runningEngine); by vm_compute.
Defined.

(** Without [attach] a new engine is spawned on the next free port. *)
Lemma setupEngine_spawn (opts : SetupEngineOpts) (w : World)
    (st : Engine.FileStorage) :
  attach opts = false → workspaces w !! wsRoot opts = Some st →
  setupEngine opts w = Some (spawn opts st w).
Proof. intros Hattach Hst. unfold setupEngine. by rewrite Hattach, Hst. Qed.

End CliFacts.

(** ** Running the command monad *)

(** Case analysis on whatever the next step of a command inspects. *)
Ltac case_step :=
  match goal with
  | |- context [match ?x with _ => _ end] =>
      lazymatch x with
      | context [match _ with _ => _ end] => fail
      | _ => first [ is_var x; destruct x | destruct x eqn:? ]
      end
  end.

Ltac run_cmd := repeat (simpl in *; try case_step).

(** Settles a goal [(r, s) = (r', s') → P] at a leaf of the analysis. *)
Ltac leaf :=
  let Heq := fresh "Heq" in
  intros Heq; inversion Heq; subst; simpl in *; auto.

(** ** [RenameHeaderCommand] *)

Module RenameHeaderFacts.
Import Host RenameHeader.

Section Facts.
Context `{Collaborators}.

Lemma truthy_Some (s : string) : s ≠ "" → truthy (Some s) = true.
Proof. intros Hs. simpl. by apply negb_true_iff, String.eqb_neq. Qed.

(** [execute] on full inputs, with an editor open on a note. *)
Lemma execute_steps (st : State) (ed : TextEditor) (note : NoteProps)
    (old : OldHeader) (newH : string) (src : option string)
    (nt : option NoteProps) :
  activeTextEditor st = Some ed →
  getNoteFromDocument st (document ed) = Some note →
  let locs := renameLocs note (text old) newH in
  ∃ st', execute (Some {| oldHeader := Some old; newHeader := Some newH;
                          source := src; note := nt |}) st
         = (Ok (Some (renameNote (fst locs) (snd locs))), st')
         ∧ trace st' = trace st ++ executeSteps old newH locs
         ∧ inputBox st' = inputBox st.
Proof.
  intros Hed Hnote locs. subst locs. unfold renameLocs.
  destruct st as [an ate gnd ib tr]. simpl in *. subst ate.
  unfold execute, bind, gets. simpl. rewrite Hnote.
  destruct (slug getSlugger (text old)) as [oldSlug sl] eqn:Hold. simpl.
  destruct (slug sl (newAnchorHeaderOf newH (parse ("## " +:+ newH))))
    as [newSlug sl'] eqn:Hnew.
  unfold edit, save, procParse, emit, modify, bind, ret, setActiveTextEditor.
  simpl.
  eexists. split; [reflexivity|]. simpl.
  split; [|done]. unfold executeSteps. simpl.
  by rewrite <- !app_assoc.
Qed.

(** [gatherInputs] with nothing supplied: the selected line is parsed and
    the user is prompted with the old header text. *)
Lemma gatherInputs_parsed (st : State) (note0 : NoteProps) (ed : TextEditor)
    (sel : Range) (header : Heading) :
  activeNote st = Some note0 →
  activeTextEditor st = Some ed →
  selection ed = Some sel →
  let ln := lineAt (document ed) (line (start sel)) in
  firstHeading (parse ln) = Some header →
  let old := {| text := headerText header;
                range := position2VSCodeRange (headerTextPosition header)
                           (line (start sel)) |} in
  let answer := mjoin (head (inputBox st)) in
  gatherInputs None st
  = (Ok (if truthy answer
         then Some {| inOldHeader := old; inNewHeader := default "" answer;
                      inSource := "command palette"; inNote := note0 |}
         else None),
     prompted st [EParse ln; EShowInputBox (text old)]).
Proof.
  intros Hnote Hed Hsel ln Hh old answer. subst ln old answer.
  destruct st as [an ate gnd ib tr]. simpl in *. subst an ate.
  unfold gatherInputs, getSelection, gatherOldHeader, procParse, showInputBox,
    emit, modify, bind, gets, ret, prompted. simpl.
  rewrite Hsel. simpl. rewrite Hh. simpl.
  destruct (mjoin (head ib)) as [a|] eqn:Ha; simpl.
  - destruct (negb (String.eqb a "")); simpl; by rewrite <- app_assoc.
  - by rewrite <- app_assoc.
Qed.

(** [gatherInputs] with the old header supplied: no line is parsed. *)
Lemma gatherInputs_given (st : State) (note0 : NoteProps) (old : OldHeader)
    (src : option string) (nt : option NoteProps) :
  activeNote st = Some note0 →
  let answer := mjoin (head (inputBox st)) in
  gatherInputs (Some {| oldHeader := Some old; newHeader := None;
                        source := src; note := nt |}) st
  = (Ok (if truthy answer
         then Some {| inOldHeader := old; inNewHeader := default "" answer;
                      inSource := default "command palette" src;
                      inNote := note0 |}
         else None),
     prompted st [EShowInputBox (text old)]).
Proof.
  intros Hnote answer. subst answer.
  destruct st as [an ate gnd ib tr]. simpl in *. subst an.
  unfold gatherInputs, getSelection, gatherOldHeader, showInputBox,
    emit, modify, bind, gets, ret, prompted. simpl.
  destruct ate as [ed|]; simpl;
    (destruct (mjoin (head ib)) as [a|] eqn:Ha; simpl;
     [destruct (negb (String.eqb a "")) |]; reflexivity).
Qed.

(** Every error [gatherInputs] raises is one of its two [DendronError]s,
    without a status code, and is raised before anything is asked of the
    user. *)
Lemma gatherInputs_throws (opts : CommandOpts) (st st' : State)
    (e : DendronError) :
  gatherInputs opts st = (Throw e, st') →
  (e = mkError "You must first open a note to rename a header."
   ∨ e = mkError "You must first select the header you want to rename.")
  ∧ inputBox st' = inputBox st
  ∧ activeTextEditor st' = activeTextEditor st.
Proof.
  destruct st as [an ate gnd ib tr].
  unfold gatherInputs, getSelection, gatherOldHeader, procParse, showInputBox,
    emit, modify, bind, gets, ret, throw.
  run_cmd; leaf.
Qed.

(** [gatherInputs] never hangs. *)
Lemma gatherInputs_settles (opts : CommandOpts) (st : State) :
  (gatherInputs opts st).1 ≠ Pending.
Proof.
  destruct st as [an ate gnd ib tr].
  unfold gatherInputs, getSelection, gatherOldHeader, procParse, showInputBox,
    emit, modify, bind, gets, ret, throw.
  run_cmd; done.
Qed.

(** [execute] raises no error of its own and never hangs. *)
Lemma execute_returns (opts : CommandOpts) (st : State) :
  ∃ r st', execute opts st = (Ok r, st').
Proof.
  destruct st as [an ate gnd ib tr].
  unfold execute, edit, save, procParse, emit, modify, bind, gets, ret.
  run_cmd; by eexists _, _.
Qed.

(** [run] is [gatherInputs] followed, on inputs, by [execute]. *)
Lemma run_gathered (opts : CommandOpts) (st st1 : State) (i : Inputs) :
  gatherInputs opts st = (Ok (Some i), st1) →
  run opts st = execute (toOpts i) st1.
Proof. intros Hg. unfold run, bind. by rewrite Hg. Qed.

Lemma run_abandoned (opts : CommandOpts) (st st1 : State) :
  gatherInputs opts st = (Ok None, st1) → run opts st = (Ok None, st1).
Proof. intros Hg. unfold run, bind. by rewrite Hg. Qed.

(** What [gatherInputs] throws, [run] throws: nothing is caught on the
    way. *)
Lemma run_throws_gathered (opts : CommandOpts) (st : State)
    (e : DendronError) :
  fst (gatherInputs opts st) = Throw e → fst (run opts st) = Throw e.
Proof.
  intros Hg. unfold run, bind.
  destruct (gatherInputs opts st) as [r st1]. simpl in Hg. by subst r.
Qed.

(** Without an open note [gatherInputs] throws at once. *)
Lemma gatherInputs_no_note (opts : CommandOpts) (st : State) :
  activeNote st = None →
  gatherInputs opts st
  = (Throw (mkError "You must first open a note to rename a header."), st).
Proof.
  intros Hn. destruct st as [an ate gnd ib tr]. simpl in Hn. subst an.
  unfold gatherInputs, getSelection, bind, gets, throw. simpl.
  by destruct ate.
Qed.

Lemma renameLocs_anchors (note : NoteProps) (oldText newH : string) :
  let locs := renameLocs note oldText newH in
  anchorHeader (fst locs) = fst (slug getSlugger oldText)
  ∧ anchorHeader (snd locs)
    = fst (slug (snd (slug getSlugger oldText))
             (newAnchorHeaderOf newH (parse ("## " +:+ newH)))).
Proof. done. Qed.

(** C3 (amended).  With a note open, the cursor on a header line and a
    non-empty answer to the prompt, the command performs exactly these
    steps in this order: it parses the selected line into a heading and
    takes the header text from it (a header supplied by the caller is used
    as it is, without parsing); prompts for the replacement text; applies
    the edit to the open document; re-parses the new text to normalise it;
    saves the document; refreshes the decorations; and calls
    [engine.renameNote] with an [oldLoc] and a [newLoc] whose
    [anchorHeader]s are the slugs of the old header text and of the
    normalised new text. *)
Theorem rename_header_steps (st : State) (note0 note : NoteProps)
    (ed : TextEditor) (answer : string) :
  activeNote st = Some note0 →
  activeTextEditor st = Some ed →
  getNoteFromDocument st (document ed) = Some note →
  mjoin (head (inputBox st)) = Some answer →
  answer ≠ "" →
  (∀ sel header,
     selection ed = Some sel →
     let ln := lineAt (document ed) (line (start sel)) in
     firstHeading (parse ln) = Some header →
     let old := {| text := headerText header;
                   range := position2VSCodeRange (headerTextPosition header)
                              (line (start sel)) |} in
     let locs := renameLocs note (text old) answer in
     ∃ st', run None st = (Ok (Some (renameNote (fst locs) (snd locs))), st')
       ∧ trace st'
         = trace st
           ++ [EParse ln; EShowInputBox (text old);
               EEdit (range old) answer; EParse ("## " +:+ answer);
               ESave; EUpdateDecorations;
               ERenameNote (fst locs) (snd locs)]
       ∧ anchorHeader (fst locs) = fst (slug getSlugger (text old))
       ∧ anchorHeader (snd locs)
         = fst (slug (snd (slug getSlugger (text old)))
                  (newAnchorHeaderOf answer (parse ("## " +:+ answer)))))
  ∧ (∀ old src nt,
       let locs := renameLocs note (text old) answer in
       ∃ st', run (Some {| oldHeader := Some old; newHeader := None;
                           source := src; note := nt |}) st
              = (Ok (Some (renameNote (fst locs) (snd locs))), st')
         ∧ trace st'
           = trace st
             ++ [EShowInputBox (text old);
                 EEdit (range old) answer; EParse ("## " +:+ answer);
                 ESave; EUpdateDecorations;
                 ERenameNote (fst locs) (snd locs)]).
Proof.
  intros Hnote Hed Hdoc Hans Hne. split.
  - intros sel header Hsel ln Hh old locs.
    pose proof (gatherInputs_parsed st note0 ed sel header Hnote Hed Hsel Hh)
      as Hg.
    simpl in Hg. rewrite Hans, (truthy_Some _ Hne) in Hg. simpl in Hg.
    rewrite (run_gathered _ _ _ _ Hg). unfold toOpts. simpl.
    destruct (execute_steps (prompted st [EParse ln; EShowInputBox (text old)])
                ed note old answer (Some "command palette") (Some note0))
      as (st' & Hex & Htr & _); [done | done |].
    exists st'. split; [exact Hex|]. split; [|by split].
    rewrite Htr. simpl. by rewrite <- app_assoc.
  - intros old src nt locs.
    pose proof (gatherInputs_given st note0 old src nt Hnote) as Hg.
    simpl in Hg. rewrite Hans, (truthy_Some _ Hne) in Hg. simpl in Hg.
    rewrite (run_gathered _ _ _ _ Hg). unfold toOpts. simpl.
    destruct (execute_steps (prompted st [EShowInputBox (text old)])
                ed note old answer
                (Some (default "command palette" src)) (Some note0))
      as (st' & Hex & Htr & _); [done | done |].
    exists st'. split; [exact Hex|].
    rewrite Htr. simpl. by rewrite <- app_assoc.
Qed.

(** C10.  [execute] returns [undefined] and leaves the host as it was (no
    edit, no save, no call of [engine.renameNote], nothing added to the
    trace) whenever the new header is undefined, the old header is
    undefined, there is no active text editor, or the active document does
    not resolve to a note. *)
Theorem execute_precondition_fails (opts : CommandOpts) (st : State) :
  opts ≫= newHeader = None
  ∨ opts ≫= oldHeader = None
  ∨ activeTextEditor st = None
  ∨ (∃ ed, activeTextEditor st = Some ed
           ∧ getNoteFromDocument st (document ed) = None) →
  execute opts st = (Ok None, st).
Proof.
  destruct st as [an ate gnd ib tr]. simpl.
  unfold execute, bind, gets, ret. simpl.
  destruct (opts ≫= newHeader) as [nh|]; [|done].
  destruct (opts ≫= oldHeader) as [oh|]; [|done].
  destruct ate as [ed'|]; [|done].
  intros [Hn | [Ho | [He | (ed & He & Hd)]]]; try discriminate.
  injection He as ->. simpl. by rewrite Hd.
Qed.

End Facts.

(** On the example host the steps are taken in the amended order. *)
Lemma rename_header_steps_witness :
  ∃ st', @run Examples.renameCollaborators None Examples.renameHost
         = (Ok (Some (@renameLocs Examples.renameCollaborators
                        Examples.demoNote "Old header" "New header")), st')
    ∧ trace st'
      = [EParse "## Old header"; EShowInputBox "Old header";
         EEdit (Examples.demoRange (3, 13) 1) "New header";
         EParse "## New header"; ESave; EUpdateDecorations;
         ERenameNote
           (fst (@renameLocs Examples.renameCollaborators
                   Examples.demoNote "Old header" "New header"))
           (snd (@renameLocs Examples.renameCollaborators
                   Examples.demoNote "Old header" "New header"))].
Proof.
  assert ("New header" ≠ "") as Hne by discriminate.
  destruct (@rename_header_steps Examples.renameCollaborators
              Examples.renameHost Examples.demoNote Examples.demoNote
              Examples.demoEditor "New header"
              eq_refl eq_refl eq_refl eq_refl Hne)
    as [Hparsed _].
  destruct (Hparsed (Examples.demoRange (0, 0) 1) "## Old header"
              eq_refl eq_refl)
    as (st' & Hrun & Htr & _).
  exists st'. split; [exact Hrun | exact Htr].
Defined.

(** C3, as stated, fails: on the example host the new text is re-parsed
    before the document is saved, not after, and the decorations are
    refreshed between the save and the rename. *)
Lemma rename_header_order_counterexample :
  let t := trace (snd (@run Examples.renameCollaborators None
                         Examples.renameHost)) in
  t ≠ @stepsAsSpecified "## Old header"
        {| text := "Old header"; range := Examples.demoRange (3, 13) 1 |}
        "New header"
        (@renameLocs Examples.renameCollaborators
           Examples.demoNote "Old header" "New header")
  ∧ precedes (EParse "## New header") ESave t
  ∧ ¬ precedes ESave (EParse "## New header") t.
Proof.
  split; [by vm_compute | split].
  - exists 3, 4. split; [by vm_compute | split; [by vm_compute | lia]].
  - intros (i & j & Hi & Hj & Hlt).
    vm_compute in Hi, Hj. injection Hi as <-. injection Hj as <-. lia.
Qed.

(** With no options at all [execute] does nothing. *)
Lemma execute_precondition_fails_witness :
  @execute Examples.renameCollaborators None Examples.renameHost
  = (Ok None, Examples.renameHost).
Proof.
  apply (@execute_precondition_fails Examples.renameCollaborators).
  by left.
Defined.

End RenameHeaderFacts.

(** ** [VaultAddCommand] *)

Module VaultAddFacts.
Import Host VaultAdd VaultAddTrace.

Lemma added_app (st st' : State) (evs : list Event) :
  trace st' = trace st ++ evs → added st st' = evs.
Proof. intros Ht. unfold added. by rewrite Ht, drop_app_length. Qed.

Lemma patched_refl (st : State) : patched st st [].
Proof. unfold patched. rewrite app_nil_r. by repeat split. Qed.

Lemma patched_trans (st st1 st2 : State) (b1 b2 : list Event) :
  patched st st1 b1 → patched st1 st2 b2 → patched st st2 (b1 ++ b2).
Proof.
  intros (Ht1 & Hf1 & Hty1 & Hr1 & Hc1) (Ht2 & Hf2 & Hty2 & Hr2 & Hc2).
  unfold patched. rewrite Ht2, Ht1, app_assoc.
  repeat split; [by apply Forall_app | congruence | congruence | auto].
Qed.

Lemma prompted_refl (st : State) : prompted st st [].
Proof. unfold prompted. rewrite app_nil_r. by repeat split. Qed.

Lemma prompted_trans (st st1 st2 : State) (p1 p2 : list Event) :
  prompted st st1 p1 → prompted st1 st2 p2 → prompted st st2 (p1 ++ p2).
Proof.
  intros (Ht1 & Hf1 & Hty1 & Hr1 & Hc1 & Hw1) (Ht2 & Hf2 & Hty2 & Hr2 & Hc2 & Hw2).
  unfold prompted. rewrite Ht2, Ht1, app_assoc.
  repeat split; [by apply Forall_app | congruence..].
Qed.

Lemma asks_ret {A} (a : A) : asks (ret a).
Proof. intros st. exists []. apply prompted_refl. Qed.

Lemma asks_throw {A} (e : DendronError) : asks (@throw State A e).
Proof. intros st. exists []. apply prompted_refl. Qed.

Lemma asks_pending {A} : asks (@pending State A).
Proof. intros st. exists []. apply prompted_refl. Qed.

Lemma asks_gets {A} (f : State → A) : asks (gets f).
Proof. intros st. exists []. apply prompted_refl. Qed.

Lemma asks_emit (e : Event) : isPrompt e = true → asks (emit e).
Proof.
  intros He st. exists [e]. destruct st. unfold prompted. simpl.
  repeat split; auto.
Qed.

Lemma asks_setInputBox (i : list (option string)) : asks (modify (setInputBox i)).
Proof.
  intros st. exists []. destruct st. unfold prompted. simpl.
  rewrite app_nil_r. by repeat split.
Qed.

Lemma asks_setAccepts (a : list (string * SourceQuickPickEntry)) :
  asks (modify (setAccepts a)).
Proof.
  intros st. exists []. destruct st. unfold prompted. simpl.
  rewrite app_nil_r. by repeat split.
Qed.

Lemma asks_bind {A B} (m : M State A) (k : A → M State B) :
  asks m → (∀ a, asks (k a)) → asks (bind m k).
Proof.
  intros Hm Hk st. unfold bind.
  destruct (Hm st) as (p1 & Hp1).
  destruct (m st) as [[a|e|] st1]; simpl in *.
  - destruct (Hk a st1) as (p2 & Hp2).
    exists (p1 ++ p2). by eapply prompted_trans.
  - by exists p1.
  - by exists p1.
Qed.

Lemma asks_showInputBox (prompt : string) (value : option string) :
  asks (showInputBox prompt value).
Proof.
  unfold showInputBox, openInputBox, awaitInputBox.
  apply asks_bind; [by apply asks_emit | intros _].
  apply asks_bind; [apply asks_gets | intros answers].
  apply asks_bind; [apply asks_setInputBox | intros _; apply asks_ret].
Qed.

Lemma asks_showQuickPick : asks showQuickPick.
Proof.
  unfold showQuickPick.
  apply asks_bind; [by apply asks_emit | intros _; apply asks_gets].
Qed.

Section Facts.
Context `{Collaborators}.

Lemma asks_onDidAccept (sourceType : VaultRemoteSource) (value : string)
    (selected : SourceQuickPickEntry) (settled : option (option CommandOpts)) :
  asks (onDidAccept sourceType value selected settled).
Proof.
  unfold onDidAccept, showInformationMessage.
  destruct (_ && _).
  - apply asks_bind; [by apply asks_emit | intros _; apply asks_ret].
  - apply asks_bind; [apply asks_showInputBox | intros out].
    apply asks_bind; [by apply asks_emit | intros _].
    destruct (if isInputEmpty out then _ else _); [apply asks_ret|].
    unfold nameAnswered, awaitInputBox.
    apply asks_bind;
      [apply asks_bind; [apply asks_gets | intros answers];
       apply asks_bind; [apply asks_setInputBox | intros _; apply asks_ret]
      | intros sourceName].
    apply asks_bind; [by apply asks_emit | intros _; apply asks_ret].
Qed.

Lemma asks_acceptLoop (sourceType : VaultRemoteSource)
    (events : list (string * SourceQuickPickEntry)) :
  asks (acceptLoop sourceType events).
Proof.
  induction events as [|[value selected] events IH]; simpl.
  - apply asks_ret.
  - apply asks_bind; [apply asks_setAccepts | intros _].
    apply asks_bind; [apply asks_onDidAccept | intros [r|]];
      [apply asks_ret | exact IH].
Qed.

Lemma asks_gatherVaultStandard (sourceType : VaultRemoteSource) :
  asks (gatherVaultStandard sourceType).
Proof.
  unfold gatherVaultStandard. destruct sourceType.
  - apply asks_bind; [apply asks_showInputBox | intros out].
    destruct (isInputEmpty out); [apply asks_ret|].
    apply asks_bind; [apply asks_showInputBox | intros n; apply asks_ret].
  - apply asks_bind; [by apply asks_emit | intros _].
    apply asks_bind; [apply asks_gets | intros events].
    apply asks_bind; [apply asks_acceptLoop | intros [r|]];
      [apply asks_ret | apply asks_pending].
Qed.

Lemma asks_gatherVaultSelfContained (sourceType : VaultRemoteSource) :
  asks (gatherVaultSelfContained sourceType).
Proof.
  unfold gatherVaultSelfContained.
  apply asks_bind; [apply asks_showInputBox | intros vaultName].
  destruct (isInputEmpty vaultName); [apply asks_ret|].
  apply asks_bind; [apply asks_gets | intros c].
  destruct (vaultNameTaken c _); [apply asks_throw|].
  destruct sourceType; [apply asks_ret|].
  apply asks_bind; [apply asks_showInputBox | intros url].
  destruct (isInputEmpty url); apply asks_ret.
Qed.

(** [gatherInputs] opens with the source type pick; everything it does
    after that is a prompt, and the workspace is left as it was. *)
Lemma gatherInputs_prompts (st : State) :
  ∃ ps, prompted st (snd (gatherInputs st))
          (EShowQuickPick ["local"; "remote"] :: ps).
Proof.
  assert (∀ o : option VaultRemoteSource, asks
    (match o with
     | None => ret None
     | Some sourceType =>
         do c <~ gets config ;;
         if default false (enableSelfContainedVaults c)
         then gatherVaultSelfContained sourceType
         else gatherVaultStandard sourceType
     end)%cmd) as Hrest.
  { intros [sourceType|]; [|apply asks_ret].
    apply asks_bind; [apply asks_gets | intros c].
    destruct (default false _);
      [apply asks_gatherVaultSelfContained | apply asks_gatherVaultStandard]. }
  set (st1 := setTrace (trace st ++ [EShowQuickPick ["local"; "remote"]]) st).
  destruct (Hrest (quickPick st1) st1) as (ps & Hps).
  exists ps.
  destruct Hps as (Ht & Hf & Hty & Hr & Hc & Hw).
  unfold prompted.
  change (snd (gatherInputs st)) with
    (snd ((match quickPick st1 with
           | None => ret None
           | Some sourceType =>
               do c <~ gets config ;;
               if default false (enableSelfContainedVaults c)
               then gatherVaultSelfContained sourceType
               else gatherVaultStandard sourceType
           end)%cmd st1)).
  rewrite Ht, Hty, Hr, Hc, Hw. subst st1. destruct st. simpl.
  rewrite <- app_assoc. simpl.
  repeat split; auto.
Qed.

Lemma registers_ret : registers (ret tt).
Proof. intros st. exists []. split; [apply patched_refl | by left]. Qed.

Lemma registers_emit (e : Event) :
  isRegistrationOrPatch e = true → registers (emit e).
Proof.
  intros He st. exists [e]. split; [|by left].
  destruct st. unfold patched. simpl. repeat split; auto.
Qed.

Lemma registers_bind (m1 m2 : M State unit) :
  registers m1 → registers m2 → registers (bind m1 (fun _ => m2)).
Proof.
  intros H1 H2 st. unfold bind.
  destruct (H1 st) as (b1 & Hp1 & Hr1).
  destruct (m1 st) as [r1 st1] eqn:Hm1. simpl in *.
  destruct Hr1 as [-> | (-> & Hty & Hc)].
  - destruct (H2 st1) as (b2 & Hp2 & Hr2).
    exists (b1 ++ b2). split; [by eapply patched_trans|].
    destruct Hr2 as [Hok | (Hthrow & Hty & Hc)]; [by left | right].
    destruct Hp1 as (_ & _ & Hty1 & _ & Hc1).
    repeat split; [done | congruence |].
    destruct (codeWorkspace st) as [c|] eqn:Hcst; [|done].
    destruct Hc1 as [c1 Hc1]; [by eexists | congruence].
  - exists b1. split; [done | by right].
Qed.

Lemma registers_forEach {A} (xs : list A) (body : A → M State unit) :
  (∀ x, registers (body x)) → registers (forEach xs body).
Proof.
  intros Hbody. induction xs as [|x xs IH]; simpl.
  - apply registers_ret.
  - by apply registers_bind.
Qed.

Lemma registers_addVaultToWorkspace (v : DVault) :
  registers (addVaultToWorkspace v).
Proof.
  intros st. destruct st as [ty root c cw qp ac ib tr].
  unfold addVaultToWorkspace, writeCodeWorkspaceSettings, addToGitignore,
    emit, modify, bind, gets, ret, throw, patched.
  destruct ty; simpl.
  { exists []. rewrite app_nil_r. repeat split; auto. }
  destruct cw as [ws|]; simpl.
  - destruct (findFolder v ws); simpl; eexists;
      (split; [|by left]); rewrite <- ?app_assoc; simpl;
      (split; [reflexivity|]); repeat split; eauto.
    all: by repeat constructor.
  - exists []. rewrite app_nil_r. repeat split; auto.
Qed.

Lemma registers_addWorkspaceToWorkspace (w : DWorkspace) :
  registers (addWorkspaceToWorkspace w).
Proof.
  intros st. unfold addWorkspaceToWorkspace.
  assert (registers
    (call forEach (wsVaults w) addVaultToWorkspace ;;
     call addToGitignore (wsName w) (wsRoot st) true ;;
     call emit (EEnsureDir (pathJoin [wsRoot st; wsName w])) ;;
     addToGitignore ".dendron.cache.*" (pathJoin [wsRoot st; wsName w])
       false)%cmd) as Hreg.
  { repeat apply registers_bind;
      try (by apply registers_emit).
    apply registers_forEach, registers_addVaultToWorkspace. }
  exact (Hreg st).
Qed.

Lemma findFolder_present (v : DVault) (ws : WorkspaceSettings) :
  (∃ ent, ent ∈ folders ws ∧ folderPath ent = getRelPath v) →
  is_Some (findFolder v ws).
Proof.
  intros (ent & Hin & Hpath). unfold findFolder.
  destruct (find _ (folders ws)) as [x|] eqn:Hfind; [by eexists|].
  apply list_elem_of_In in Hin.
  pose proof (find_none _ _ Hfind ent Hin) as Hne. simpl in Hne.
  rewrite Hpath, String.eqb_refl in Hne. discriminate.
Qed.

Lemma findFolder_absent (v : DVault) (ws : WorkspaceSettings) :
  (∀ ent, ent ∈ folders ws → folderPath ent ≠ getRelPath v) →
  findFolder v ws = None.
Proof.
  intros Hall. unfold findFolder.
  destruct (find _ (folders ws)) as [x|] eqn:Hfind; [|done].
  apply find_some in Hfind as [Hin Heq].
  apply list_elem_of_In in Hin. apply String.eqb_eq in Heq.
  by destruct (Hall x Hin).
Qed.

(** [addVaultToWorkspace] in a code workspace whose file is there. *)
Lemma addVaultToWorkspace_code (v : DVault) (st : State)
    (ws : WorkspaceSettings) :
  wsType st = CODE → codeWorkspace st = Some ws →
  let vaultDir := pathJoin [wsRoot st; fsPath v] in
  let ignores := [EAddToGitignore (fsPath v) (wsRoot st) true;
                  EEnsureDir vaultDir;
                  EAddToGitignore ".dendron.cache.*" vaultDir false] in
  let ws' := assignFolders ([toWorkspaceFolder v] ++ folders ws) ws in
  fst (addVaultToWorkspace v st) = Ok tt
  ∧ match findFolder v ws with
    | Some _ =>
        codeWorkspace (snd (addVaultToWorkspace v st)) = Some ws
        ∧ trace (snd (addVaultToWorkspace v st)) = trace st ++ ignores
    | None =>
        codeWorkspace (snd (addVaultToWorkspace v st)) = Some ws'
        ∧ trace (snd (addVaultToWorkspace v st))
          = trace st ++ EWriteCodeWorkspaceSettings ws' :: ignores
    end.
Proof.
  intros Hty Hcw. destruct st as [ty root c cw qp ac ib tr].
  simpl in *. subst ty cw.
  unfold addVaultToWorkspace, writeCodeWorkspaceSettings, addToGitignore,
    emit, modify, bind, gets, ret. simpl.
  destruct (findFolder v ws); simpl;
    (split; [done|]); (split; [done|]); by rewrite <- !app_assoc.
Qed.

(** In a code workspace with its file, [addVaultToWorkspace] completes;
    afterwards the folders list has an entry for the vault and still has
    every entry it had, and the vault's path is in [.gitignore]. *)
Lemma addVaultToWorkspace_patches (v : DVault) (st : State)
    (ws : WorkspaceSettings) :
  wsType st = CODE → codeWorkspace st = Some ws →
  let st1 := snd (addVaultToWorkspace v st) in
  fst (addVaultToWorkspace v st) = Ok tt
  ∧ hasFolder v st1
  ∧ (∃ ws1, codeWorkspace st1 = Some ws1
            ∧ ∀ ent, ent ∈ folders ws → ent ∈ folders ws1)
  ∧ ∃ body, trace st1 = trace st ++ body
            ∧ EAddToGitignore (fsPath v) (wsRoot st) true ∈ body.
Proof.
  intros Hty Hcw st1. subst st1.
  destruct (addVaultToWorkspace_code v st ws Hty Hcw) as (Hok & Hres).
  split; [exact Hok|].
  destruct (findFolder v ws) as [ent|] eqn:Hfind.
  - destruct Hres as (Hcw1 & Htr). split; [|split].
    + exists ws, ent. split; [done|].
      unfold findFolder in Hfind. apply find_some in Hfind as [Hin Heq].
      split; [by apply list_elem_of_In | right; by apply String.eqb_eq].
    + by exists ws.
    + eexists. split; [exact Htr | left].
  - destruct Hres as (Hcw1 & Htr). split; [|split].
    + eexists _, (toWorkspaceFolder v). split; [exact Hcw1|].
      split; [left | by left].
    + eexists. split; [exact Hcw1|]. intros ent Hent. simpl. by right.
    + eexists. split; [exact Htr | right; left].
Qed.

Lemma registers_createAndAdd (v : DVault) : registers (createAndAdd v).
Proof.
  apply registers_bind;
    [by apply registers_emit | apply registers_addVaultToWorkspace].
Qed.

(** When [createAndAdd] completes, the registration of the vault is the
    first thing it has added to the trace. *)
Lemma createAndAdd_registered (v : DVault) (st : State) :
  ∃ body, trace (snd (createAndAdd v st)) = trace st ++ ECreateVault v :: body.
Proof.
  unfold createAndAdd, bind, emit, modify. simpl.
  set (st0 := setTrace (trace st ++ [ECreateVault v]) st).
  destruct (registers_addVaultToWorkspace v st0) as (body & (Ht & _) & _).
  exists body.
  destruct (addVaultToWorkspace v st0) as [[[]|e|] st1]; simpl in *;
    rewrite Ht; subst st0; destruct st; simpl; by rewrite <- app_assoc.
Qed.

(** In a code workspace whose [dendron.code-workspace] is missing,
    [addVaultToWorkspace] throws before it has done anything. *)
Lemma addVaultToWorkspace_missing (v : DVault) (st : State) :
  wsType st = CODE → codeWorkspace st = None →
  addVaultToWorkspace v st = (Throw noCodeWorkspaceError, st).
Proof. intros Hty Hcw. destruct st. simpl in *. by subst. Qed.

Lemma createAndAdd_unfold (v : DVault) (st : State) :
  createAndAdd v st
  = addVaultToWorkspace v (setTrace (trace st ++ [ECreateVault v]) st).
Proof. reflexivity. Qed.

(** One more vault added keeps the folder entries that were there. *)
Lemma createAndAdd_keeps_folder (u v : DVault) (st : State) :
  wsType st = CODE → fst (createAndAdd v st) = Ok tt →
  hasFolder u st → hasFolder u (snd (createAndAdd v st)).
Proof.
  intros Hty Hok (ws & ent & Hcw & Hin & Hent).
  rewrite createAndAdd_unfold in *.
  set (st0 := setTrace (trace st ++ [ECreateVault v]) st) in *.
  assert (wsType st0 = CODE) as Hty0 by (subst st0; by destruct st).
  assert (codeWorkspace st0 = Some ws) as Hcw0 by (subst st0; by destruct st).
  destruct (addVaultToWorkspace_patches v st0 ws Hty0 Hcw0)
    as (_ & _ & (ws1 & Hcw1 & Hkeep) & _).
  exists ws1, ent. auto.
Qed.

Lemma forEach_keeps_folder (u : DVault) (vs : list DVault) (st : State) :
  wsType st = CODE → fst (forEach vs createAndAdd st) = Ok tt →
  hasFolder u st → hasFolder u (snd (forEach vs createAndAdd st)).
Proof.
  revert st. induction vs as [|v vs IH]; intros st Hty Hok Hu; [done|].
  simpl in *. unfold bind in *.
  pose proof (createAndAdd_keeps_folder u v st Hty) as Hkeep.
  destruct (registers_createAndAdd v st) as (b & (_ & _ & Hty1 & _) & _).
  destruct (createAndAdd v st) as [[[]|e|] st1]; simpl in *; try done.
  apply IH; [congruence | done | by apply Hkeep].
Qed.

(** When the loop over the vaults completes, every vault has been
    registered; in a code workspace every vault's path is in [.gitignore]
    and every vault has its entry in the folders list. *)
Lemma forEach_registered (vs : list DVault) (st : State) :
  fst (forEach vs createAndAdd st) = Ok tt →
  ∃ body, trace (snd (forEach vs createAndAdd st)) = trace st ++ body
          ∧ ∀ v, v ∈ vs →
              ECreateVault v ∈ body
              ∧ (wsType st = CODE →
                 EAddToGitignore (fsPath v) (wsRoot st) true ∈ body
                 ∧ hasFolder v (snd (forEach vs createAndAdd st))).
Proof.
  revert st. induction vs as [|v vs IH]; intros st; simpl.
  - intros _. exists []. split; [by rewrite app_nil_r|].
    intros v Hv. by apply elem_of_nil in Hv.
  - unfold bind.
    destruct (createAndAdd_registered v st) as (b1 & Hb1).
    destruct (registers_createAndAdd v st)
      as (b & (_ & _ & Hty1 & Hroot1 & _) & Hres).
    pose proof (createAndAdd_unfold v st) as Hunf.
    destruct (createAndAdd v st) as [[[]|e|] st1] eqn:Hstep;
      simpl in *; try done.
    intros Hok. destruct (IH st1 Hok) as (b2 & Hb2 & Hin).
    exists (ECreateVault v :: b1 ++ b2). split.
    { rewrite Hb2, Hb1, <- app_assoc. done. }
    intros v' [->|Hv']%elem_of_cons.
    + split; [left|]. intros Hty.
      set (st0 := setTrace (trace st ++ [ECreateVault v]) st) in *.
      assert (wsType st0 = CODE) as Hty0 by (subst st0; by destruct st).
      destruct (codeWorkspace st0) as [ws|] eqn:Hcw0.
      2:{ rewrite (addVaultToWorkspace_missing v st0 Hty0 Hcw0) in Hunf.
          discriminate. }
      destruct (addVaultToWorkspace_patches v st0 ws Hty0 Hcw0)
        as (_ & Hfolder & _ & (b0 & Hb0 & Hig)).
      rewrite <- Hunf in Hfolder, Hb0. simpl in *.
      split.
      * assert (b0 = b1) as <-.
        { rewrite Hb1 in Hb0. subst st0. destruct st. simpl in *.
          rewrite <- app_assoc in Hb0. simpl in Hb0.
          apply app_inv_head in Hb0. by injection Hb0. }
        assert (wsRoot st0 = wsRoot st) as Hr0
          by (subst st0; by destruct st).
        rewrite ?Hr0 in Hig.
        right. apply elem_of_app. by left.
      * apply forEach_keeps_folder; [congruence | done | done].
    + destruct (Hin v' Hv') as (Hreg & Hcode).
      split; [right; apply elem_of_app; by right|].
      intros Hty. rewrite <- Hty1, <- Hroot1 in *.
      destruct (Hcode Hty) as (Hig & Hfolder).
      split; [|done]. right. apply elem_of_app. by right.
Qed.

(** The four steps [handleRemoteRepo] opens with. *)
Lemma handleRemoteRepo_unfold (opts : CommandOpts) (st : State) :
  let repoPath := pathJoin [wsRoot st; path opts] in
  let found := getVaultsFromRepo repoPath (wsRoot st) (pathRemote opts) in
  let vs := readVaults (renameFirst opts found) found in
  let st1 := setTrace (trace st
                       ++ [EProgress "cloning repo";
                           EGitClone (pathRemote opts) (path opts);
                           EGetVaultsFromRepo repoPath;
                           EProgress "adding vault"]) st in
  handleRemoteRepo opts st
  = bind (registerDiscovered vs
            (readWorkspace (renameFirst opts found) found))
      (fun _ => ret (vs, readWorkspace (renameFirst opts found) found)) st1.
Proof.
  intros repoPath found vs st1. subst repoPath found vs st1.
  destruct st as [ty root c cw qp ac ib tr].
  unfold handleRemoteRepo, bind, emit, modify, gets, setTrace. simpl.
  by rewrite <- !app_assoc.
Qed.

(** The [vaults] array read after the assignment of the name holds the
    discovered vaults with the name overridden. *)
Lemma readVaults_renamed (opts : CommandOpts) (d : Discovered) :
  readVaults (renameFirst opts d) d
  = overrideName opts (readVaults (objects d) d).
Proof.
  unfold readVaults, renameFirst, overrideName. rewrite length_map.
  destruct (Nat.eqb (length (vaultRefs d)) 1 && truthy (optName opts))
    eqn:Hcond; [|done].
  apply andb_true_iff in Hcond as [Hlen _]. apply Nat.eqb_eq in Hlen.
  destruct (vaultRefs d) as [|r [|r' rs]]; try done.
  simpl. by rewrite fn_lookup_insert.
Qed.

(** Without exactly one vault and a name, the store is left as it was. *)
Lemma renameFirst_unchanged (opts : CommandOpts) (d : Discovered) :
  length (vaultRefs d) ≠ 1 ∨ truthy (optName opts) = false →
  renameFirst opts d = objects d.
Proof.
  unfold renameFirst. intros [Hlen | Hname].
  - apply Nat.eqb_neq in Hlen. by rewrite Hlen.
  - by rewrite Hname, andb_false_r.
Qed.

(** With exactly one vault and a name, the object of that vault, and no
    other, has the name. *)
Lemma renameFirst_single (opts : CommandOpts) (d : Discovered) (r : nat) :
  vaultRefs d = [r] → truthy (optName opts) = true →
  renameFirst opts d r
  = {| fsPath := fsPath (objects d r); name := optName opts;
       selfContained := selfContained (objects d r) |}
  ∧ ∀ r', r' ≠ r → renameFirst opts d r' = objects d r'.
Proof.
  intros Hrefs Hname. unfold renameFirst. rewrite Hrefs, Hname. simpl.
  split; [by rewrite fn_lookup_insert|].
  intros r' Hr'. by rewrite fn_lookup_insert_ne.
Qed.

Lemma overrideName_single (opts : CommandOpts) (vs : list DVault) :
  length vs = 1 → truthy (optName opts) = true →
  ∃ v, vs = [v] ∧ overrideName opts vs = [withName (optName opts) v].
Proof.
  intros Hlen Hname. destruct vs as [|v [|v' vs]]; try done.
  exists v. unfold overrideName. by rewrite Hname.
Qed.

Lemma overrideName_unchanged (opts : CommandOpts) (vs : list DVault) :
  length vs ≠ 1 ∨ truthy (optName opts) = false → overrideName opts vs = vs.
Proof.
  unfold overrideName. intros [Hlen | Hname].
  - apply Nat.eqb_neq in Hlen. by rewrite Hlen.
  - by rewrite Hname, andb_false_r.
Qed.

(** What the registration part of [handleRemoteRepo] does. *)
Lemma registers_remote (vs : list DVault) (w : option DWorkspace) :
  registers (registerDiscovered vs w).
Proof.
  destruct w as [w|]; simpl.
  - apply registers_bind;
      [by apply registers_emit | apply registers_addWorkspaceToWorkspace].
  - apply registers_forEach, registers_createAndAdd.
Qed.

Lemma hasFolder_setTrace (v : DVault) (tr : list Event) (st : State) :
  hasFolder v st → hasFolder v (setTrace tr st).
Proof. by destruct st. Qed.

(** When the registration part completes, the workspace found, or else
    every vault, has been registered, and in a code workspace every vault
    is in [.gitignore] and in the folders list. *)
Lemma remote_registered (vs : list DVault) (w : option DWorkspace)
    (st : State) (body : list Event) :
  let m := registerDiscovered vs w in
  fst (m st) = Ok tt → trace (snd (m st)) = trace st ++ body →
  match w with
  | Some w => EAddWorkspace w ∈ body
  | None =>
      ∀ v, v ∈ vs →
        ECreateVault v ∈ body
        ∧ (wsType st = CODE →
           EAddToGitignore (fsPath v) (wsRoot st) true ∈ body
           ∧ hasFolder v (snd (m st)))
  end.
Proof.
  destruct w as [w|]; simpl; intros Hok Htr.
  - unfold bind, emit, modify in Htr. simpl in Htr.
    set (st0 := setTrace (trace st ++ [EAddWorkspace w]) st) in *.
    destruct (registers_addWorkspaceToWorkspace w st0) as (b & (Hb & _) & _).
    rewrite Hb in Htr. subst st0. destruct st. simpl in Htr.
    rewrite <- app_assoc in Htr. apply app_inv_head in Htr. subst body.
    by left.
  - destruct (forEach_registered vs st Hok) as (b & Hb & Hin).
    rewrite Hb in Htr. apply app_inv_head in Htr. by subst body.
Qed.

(** The first call of the registration part: [addWorkspace] for a
    workspace found, else [createVault] for the first vault. *)
Lemma registerDiscovered_first (vs : list DVault) (w : option DWorkspace)
    (st : State) :
  ∃ body, trace (snd (registerDiscovered vs w st)) = trace st ++ body
          ∧ match w with
            | Some w => ∃ b, body = EAddWorkspace w :: b
            | None => ∀ v rest, vs = v :: rest → ∃ b, body = ECreateVault v :: b
            end.
Proof.
  destruct w as [w|]; simpl.
  - unfold bind, emit, modify. simpl.
    set (st0 := setTrace (trace st ++ [EAddWorkspace w]) st).
    destruct (registers_addWorkspaceToWorkspace w st0)
      as (b & (Ht & _) & _).
    exists (EAddWorkspace w :: b). split; [|by exists b].
    rewrite Ht. subst st0. destruct st. simpl. by rewrite <- app_assoc.
  - destruct (registers_forEach vs createAndAdd registers_createAndAdd st)
      as (body & (Ht & _) & _).
    exists body. split; [exact Ht|].
    intros v rest ->. simpl in Ht. unfold bind in Ht.
    destruct (createAndAdd_registered v st) as (b1 & Hb1).
    destruct (createAndAdd v st) as [[[]|e|] st1]; simpl in *.
    + destruct (registers_forEach rest createAndAdd registers_createAndAdd st1)
        as (b2 & (Ht2 & _) & _).
      rewrite Ht2, Hb1, <- app_assoc in Ht. apply app_inv_head in Ht.
      subst body. by eexists.
    + rewrite Hb1 in Ht. apply app_inv_head in Ht. subst body. by eexists.
    + rewrite Hb1 in Ht. apply app_inv_head in Ht. subst body. by eexists.
Qed.

(** C8.  In [handleRemoteRepo] the name the user supplied overrides the
    name of the discovered vault exactly when the repository yields one
    vault and a name was supplied: then the object of that vault has the
    supplied name, with its path and its self contained flag as
    discovered, and no other object is changed; when the repository
    yields another number of vaults, or no name (or the empty one) was
    supplied, every discovered object, and so every vault of [vaults] and
    of the workspace, is left as it is.  The assignment is made in place:
    what [handleRemoteRepo] returns, the workspace it hands to
    [addWorkspace] and the first vault it hands to [createVault] are read
    after it. *)
Theorem handleRemoteRepo_name_override (opts : CommandOpts) (st : State) :
  let found := getVaultsFromRepo (pathJoin [wsRoot st; path opts])
                 (wsRoot st) (pathRemote opts) in
  let store := renameFirst opts found in
  (∀ r, vaultRefs found = [r] → truthy (optName opts) = true →
     let renamed := {| fsPath := fsPath (objects found r);
                       name := optName opts;
                       selfContained := selfContained (objects found r) |} in
     readVaults store found = [renamed]
     ∧ store r = renamed
     ∧ ∀ r', r' ≠ r → store r' = objects found r')
  ∧ (length (vaultRefs found) ≠ 1 ∨ truthy (optName opts) = false →
       (∀ r, store r = objects found r)
       ∧ readVaults store found = readVaults (objects found) found
       ∧ readWorkspace store found = readWorkspace (objects found) found)
  ∧ readVaults store found
    = overrideName opts (readVaults (objects found) found)
  ∧ match fst (handleRemoteRepo opts st) with
    | Ok r => r = (readVaults store found, readWorkspace store found)
    | Throw e =>
        e = noCodeWorkspaceError ∧ wsType st = CODE ∧ codeWorkspace st = None
    | Pending => False
    end
  ∧ (∀ w, readWorkspace store found = Some w →
          EAddWorkspace w ∈ added st (snd (handleRemoteRepo opts st)))
  ∧ (∀ v rest, readWorkspace store found = None →
               readVaults store found = v :: rest →
               ECreateVault v ∈ added st (snd (handleRemoteRepo opts st))).
Proof.
  intros found store.
  assert (∃ body,
            added st (snd (handleRemoteRepo opts st))
            = [EProgress "cloning repo";
               EGitClone (pathRemote opts) (path opts);
               EGetVaultsFromRepo (pathJoin [wsRoot st; path opts]);
               EProgress "adding vault"] ++ body
            ∧ match readWorkspace store found with
              | Some w => ∃ b, body = EAddWorkspace w :: b
              | None => ∀ v rest, readVaults store found = v :: rest →
                                  ∃ b, body = ECreateVault v :: b
              end) as (body & Hadded & Hfirst).
  { rewrite handleRemoteRepo_unfold. fold found. fold store.
    set (st1 := setTrace _ st).
    destruct (registerDiscovered_first (readVaults store found)
                (readWorkspace store found) st1) as (body & Htr & Hfirst).
    exists body. split; [|exact Hfirst].
    apply added_app. unfold bind.
    destruct (registerDiscovered _ _ st1) as [[[]|e|] st2]; simpl in *;
      rewrite Htr; subst st1; destruct st; simpl; by rewrite <- !app_assoc. }
  split; [|split; [|split; [|split; [|split]]]].
  - intros r Hrefs Hname renamed.
    destruct (renameFirst_single opts found r Hrefs Hname) as (Hr & Hother).
    split; [|split; [exact Hr | exact Hother]].
    unfold readVaults. rewrite Hrefs. simpl. f_equal. exact Hr.
  - intros Hcond. subst store.
    rewrite (renameFirst_unchanged opts found Hcond). by repeat split.
  - apply readVaults_renamed.
  - rewrite handleRemoteRepo_unfold. fold found. fold store.
    set (st1 := setTrace _ st).
    destruct (registers_remote (readVaults store found)
                (readWorkspace store found) st1) as (b & _ & Hres).
    unfold bind.
    destruct (registerDiscovered _ _ st1) as [r st2]; simpl in *.
    destruct Hres as [-> | (-> & Hty & Hcw)]; [done|].
    subst st1. destruct st. simpl in *. auto.
  - intros w Hw. rewrite Hadded. rewrite Hw in Hfirst.
    destruct Hfirst as (b & ->). apply elem_of_app; right. by left.
  - intros v rest Hnone Hvs. rewrite Hadded. rewrite Hnone in Hfirst.
    destruct (Hfirst v rest Hvs) as (b & ->). apply elem_of_app; right.
    by left.
Qed.

Lemma raisesOnly_bind {A B} (P : DendronError → Prop) (m : M State A)
    (k : A → M State B) :
  raisesOnly P m → (∀ a, raisesOnly P (k a)) → raisesOnly P (bind m k).
Proof.
  intros Hm Hk st e. unfold bind.
  pose proof (Hm st) as Hm'.
  destruct (m st) as [[a|e'|] st1]; simpl in *; [apply Hk | | done].
  intros [= <-]. by apply Hm'.
Qed.

Lemma raisesOnly_total {A} (P : DendronError → Prop) (m : M State A) :
  (∀ st, ∃ a, fst (m st) = Ok a) → raisesOnly P m.
Proof. intros Hm st e He. destruct (Hm st) as [a Ha]. congruence. Qed.

Lemma showInputBox_returns (prompt : string) (value : option string)
    (st : State) :
  ∃ a, fst (showInputBox prompt value st) = Ok a.
Proof. by eexists. Qed.

Lemma onDidAccept_returns (sourceType : VaultRemoteSource) (value : string)
    (selected : SourceQuickPickEntry) (settled : option (option CommandOpts))
    (st : State) :
  ∃ a, fst (onDidAccept sourceType value selected settled st) = Ok a.
Proof.
  unfold onDidAccept. destruct (_ && _); [by eexists|].
  unfold showInputBox, openInputBox, awaitInputBox, nameAnswered, bind, emit,
    modify, gets, ret. simpl.
  destruct (if isInputEmpty _ then _ else _); by eexists.
Qed.

Lemma acceptLoop_returns (sourceType : VaultRemoteSource)
    (events : list (string * SourceQuickPickEntry)) (st : State) :
  ∃ a, fst (acceptLoop sourceType events st) = Ok a.
Proof.
  revert st. induction events as [|[value selected] events IH]; intros st.
  - by eexists.
  - simpl. unfold bind at 1. simpl. unfold bind at 1.
    destruct (onDidAccept_returns sourceType value selected None
                (setAccepts events st)) as [a Ha].
    destruct (onDidAccept _ _ _ _ _) as [r st1]. simpl in Ha. subst r.
    destruct a as [r|]; [by eexists | apply IH].
Qed.

(** The one error gathering raises is the one of the name that is taken. *)
Lemma gatherInputs_raises :
  raisesOnly (fun e => ∃ vaultName, e = duplicateVaultError vaultName)
    gatherInputs.
Proof.
  unfold gatherInputs.
  apply raisesOnly_bind; [by apply raisesOnly_total; eexists | intros [ty|]];
    [|by apply raisesOnly_total; eexists].
  apply raisesOnly_bind; [by apply raisesOnly_total; eexists | intros c].
  destruct (default false _).
  - unfold gatherVaultSelfContained.
    apply raisesOnly_bind;
      [apply raisesOnly_total, showInputBox_returns | intros vaultName].
    destruct (isInputEmpty vaultName); [by apply raisesOnly_total; eexists|].
    apply raisesOnly_bind; [by apply raisesOnly_total; eexists | intros c'].
    destruct (vaultNameTaken c' _).
    { intros st e [= <-]. by eexists. }
    destruct ty; [by apply raisesOnly_total; eexists|].
    apply raisesOnly_bind;
      [apply raisesOnly_total, showInputBox_returns | intros url].
    destruct (isInputEmpty url); by apply raisesOnly_total; eexists.
  - unfold gatherVaultStandard. destruct ty.
    + apply raisesOnly_bind;
        [apply raisesOnly_total, showInputBox_returns | intros out].
      destruct (isInputEmpty out); [by apply raisesOnly_total; eexists|].
      apply raisesOnly_bind;
        [apply raisesOnly_total, showInputBox_returns | intros n].
      by apply raisesOnly_total; eexists.
    + apply raisesOnly_bind; [by apply raisesOnly_total; eexists | intros _].
      apply raisesOnly_bind; [by apply raisesOnly_total; eexists | intros ev].
      apply raisesOnly_bind;
        [apply raisesOnly_total, acceptLoop_returns | intros [r|]].
      * by apply raisesOnly_total; eexists.
      * intros st e. done.
Qed.

(** What [run] throws is what [gatherInputs] or [execute] threw: nothing
    is caught on the way. *)
Lemma wizard_throws_gathered (st : State) (e : DendronError) :
  fst (gatherInputs st) = Throw e → fst (run st) = Throw e.
Proof.
  intros Hg. unfold run, bind.
  destruct (gatherInputs st) as [r st1]. simpl in Hg. by subst r.
Qed.

Lemma wizard_throws_executed (st : State) (o : CommandOpts) (e : DendronError) :
  fst (gatherInputs st) = Ok (Some o) →
  fst (execute o (snd (gatherInputs st))) = Throw e →
  fst (run st) = Throw e.
Proof.
  intros Hg Hex. unfold run, bind.
  destruct (gatherInputs st) as [r st1]. simpl in *. subst r.
  destruct (execute o st1) as [r st2]. simpl in *. by subst r.
Qed.

(** [execute] on a remote source: the four opening steps, then
    registrations and patches only, then, if nothing was thrown, the
    message and the reload. *)
Lemma execute_remote (opts : CommandOpts) (st : State) :
  type opts = remote →
  let repoPath := pathJoin [wsRoot st; path opts] in
  let found := getVaultsFromRepo repoPath (wsRoot st) (pathRemote opts) in
  let opening := [EProgress "cloning repo";
                  EGitClone (pathRemote opts) (path opts);
                  EGetVaultsFromRepo repoPath;
                  EProgress "adding vault"] in
  ∃ body,
    Forall (fun e => isRegistrationOrPatch e = true) body
    ∧ match fst (execute opts st) with
      | Ok out =>
          vaults out = readVaults (renameFirst opts found) found
          ∧ trace (snd (execute opts st))
            = trace st ++ opening ++ body
              ++ [EShowInformationMessage "finished adding vault";
                  EReloadWindow]
          ∧ match readWorkspace (renameFirst opts found) found with
            | Some w => EAddWorkspace w ∈ body
            | None =>
                ∀ v, v ∈ vaults out →
                  ECreateVault v ∈ body
                  ∧ (wsType st = CODE →
                     EAddToGitignore (fsPath v) (wsRoot st) true ∈ body
                     ∧ hasFolder v (snd (execute opts st)))
            end
      | Throw e =>
          e = noCodeWorkspaceError
          ∧ trace (snd (execute opts st)) = trace st ++ opening ++ body
      | Pending => False
      end.
Proof.
  intros Hty repoPath found opening.
  set (st1 := setTrace (trace st ++ opening) st).
  set (vs := readVaults (renameFirst opts found) found).
  set (workspace := readWorkspace (renameFirst opts found) found).
  destruct (registers_remote vs workspace st1) as (body & Hp & Hres).
  pose proof (remote_registered vs workspace st1 body) as Hreg.
  exists body. destruct Hp as (Htr & Hall & _). split; [exact Hall|].
  assert (execute opts st
          = bind (bind (registerDiscovered vs workspace) (fun _ => ret vs))
              (fun vs =>
                 call showInformationMessage "finished adding vault" ;;
                 call emit EReloadWindow ;;
                 ret {| vaults := vs |})%cmd st1) as ->.
  { unfold execute. rewrite Hty. unfold bind at 1 2.
    rewrite handleRemoteRepo_unfold. unfold bind.
    fold repoPath. fold found. fold opening. fold st1. fold vs.
    fold workspace.
    by destruct (registerDiscovered vs workspace st1) as [[[]|e|] st2]. }
  unfold bind.
  destruct (registerDiscovered vs workspace st1) as [r st2] eqn:Hrd;
    simpl in *.
  rewrite Hrd in Hreg. simpl in Hreg.
  destruct Hres as [-> | (-> & _)]; simpl.
  - split; [done|]. split; [|by apply Hreg].
    destruct st2. simpl in *. rewrite Htr.
    by rewrite <- !app_assoc.
  - split; [done|]. by rewrite Htr, <- app_assoc.
Qed.

(** [execute] on a local source: the vault is registered, the workspace
    is patched, then, if nothing was thrown, come the message and the
    reload. *)
Lemma execute_local (opts : CommandOpts) (st : State) :
  type opts = local →
  let v := {| fsPath := normVaultPath (path opts) (wsRoot st);
              name := optName opts;
              selfContained := isSelfContained opts |} in
  let registration := if isSelfContainedVault v
                      then ECreateSelfContainedVault v else ECreateVault v in
  ∃ body,
    Forall (fun e => isRegistrationOrPatch e = true) body
    ∧ match fst (execute opts st) with
      | Ok out =>
          vaults out = [v]
          ∧ trace (snd (execute opts st))
            = trace st ++ registration :: body
              ++ [EShowInformationMessage "finished adding vault";
                  EReloadWindow]
      | Throw e =>
          e = noCodeWorkspaceError
          ∧ wsType st = CODE ∧ codeWorkspace st = None
          ∧ trace (snd (execute opts st)) = trace st ++ registration :: body
      | Pending => False
      end.
Proof.
  intros Hty v registration.
  set (st1 := setTrace (trace st ++ [registration]) st).
  destruct (registers_addVaultToWorkspace v st1) as (body & Hp & Hres).
  exists body. destruct Hp as (Htr & Hall & _). split; [exact Hall|].
  assert (execute opts st
          = bind (bind (addVaultToWorkspace v) (fun _ => ret [v]))
              (fun vs =>
                 call showInformationMessage "finished adding vault" ;;
                 call emit EReloadWindow ;;
                 ret {| vaults := vs |})%cmd st1) as ->.
  { unfold execute. rewrite Hty. unfold bind, gets, emit, modify.
    fold v. subst st1 registration.
    destruct (isSelfContainedVault v); simpl;
      by destruct (addVaultToWorkspace v _) as [[[]|e|] st2]. }
  unfold bind.
  destruct (addVaultToWorkspace v st1) as [r st2] eqn:Hadd; simpl in *.
  destruct Hres as [-> | (-> & Hcode & Hcw)]; simpl.
  - split; [done|]. destruct st2. simpl in *. rewrite Htr.
    by rewrite <- !app_assoc.
  - split; [done|]. rewrite Htr, <- app_assoc. by destruct st.
Qed.

(** The one error [execute] raises is the one of the missing
    [dendron.code-workspace]. *)
Lemma execute_raises (opts : CommandOpts) :
  raisesOnly (fun e => e = noCodeWorkspaceError) (execute opts).
Proof.
  intros st e He. destruct (type opts) eqn:Hty.
  - destruct (execute_local opts st Hty) as (body & _ & Hres).
    rewrite He in Hres. by destruct Hres.
  - destruct (execute_remote opts st Hty) as (body & _ & Hres).
    rewrite He in Hres. by destruct Hres.
Qed.

Ltac unfold_gather :=
  unfold gatherInputs, showQuickPick, gatherVaultStandard,
    gatherVaultSelfContained, showInputBox, openInputBox, awaitInputBox,
    showInformationMessage, emit, modify, bind, gets, ret, throw, pending;
  simpl.

(** Dismissing the source type pick abandons the command. *)
Lemma gatherInputs_cancel_pick (st : State) :
  quickPick st = None → fst (gatherInputs st) = Ok None.
Proof.
  intros Hqp. destruct st. simpl in *. subst. by unfold_gather.
Qed.

(** Standard flow, local source: an empty or dismissed path prompt
    abandons the command. *)
Lemma gatherInputs_cancel_path_local (st : State) :
  quickPick st = Some local →
  default false (enableSelfContainedVaults (config st)) = false →
  isInputEmpty (mjoin (head (inputBox st))) = true →
  fst (gatherInputs st) = Ok None.
Proof.
  intros Hqp Hsc Hin. destruct st. simpl in *. subst. unfold_gather.
  rewrite Hsc. simpl. by rewrite Hin.
Qed.

(** Standard flow, remote source: after an accepted entry, an empty or
    dismissed path prompt settles the promise with [undefined]. *)
Lemma gatherInputs_cancel_path_remote (st : State) (value : string)
    (selected : SourceQuickPickEntry)
    (rest : list (string * SourceQuickPickEntry)) :
  quickPick st = Some remote →
  default false (enableSelfContainedVaults (config st)) = false →
  accepts st = (value, selected) :: rest →
  String.eqb (label selected) "custom" && isInputEmpty (Some value) = false →
  isInputEmpty (mjoin (head (inputBox st))) = true →
  fst (gatherInputs st) = Ok None.
Proof.
  intros Hqp Hsc Hacc Hsel Hin. destruct st. simpl in *. subst. unfold_gather.
  rewrite Hsc. simpl. unfold onDidAccept. simpl. rewrite Hsel.
  unfold_gather. by rewrite Hin.
Qed.

(** Standard flow, remote source: an empty custom endpoint is answered
    with a message and settles nothing; the pick stays open, and gathering
    does not return as long as the user accepts nothing else. *)
Lemma gatherInputs_empty_endpoint (st : State) (value : string)
    (selected : SourceQuickPickEntry) :
  quickPick st = Some remote →
  default false (enableSelfContainedVaults (config st)) = false →
  accepts st = [(value, selected)] →
  String.eqb (label selected) "custom" && isInputEmpty (Some value) = true →
  fst (gatherInputs st) = Pending
  ∧ trace (snd (gatherInputs st))
    = trace st ++ [EShowQuickPick ["local"; "remote"];
                   EQuickPickShow generateRemoteEntries;
                   EShowInformationMessage "please enter an endpoint"].
Proof.
  intros Hqp Hsc Hacc Hsel. destruct st. simpl in *. subst. unfold_gather.
  rewrite Hsc. simpl. unfold onDidAccept. simpl. rewrite Hsel.
  unfold_gather. by rewrite <- !app_assoc.
Qed.

(** Self contained flow: an empty or dismissed name prompt abandons the
    command. *)
Lemma gatherInputs_cancel_name (st : State) (ty : VaultRemoteSource) :
  quickPick st = Some ty →
  default false (enableSelfContainedVaults (config st)) = true →
  isInputEmpty (mjoin (head (inputBox st))) = true →
  fst (gatherInputs st) = Ok None.
Proof.
  intros Hqp Hsc Hin. destruct st. simpl in *. subst. unfold_gather.
  rewrite Hsc. simpl. by rewrite Hin.
Qed.

(** Self contained flow, remote source: an empty or dismissed URL prompt
    abandons the command. *)
Lemma gatherInputs_cancel_url (st : State) (vaultName : string)
    (url : option string) (rest : list (option string)) :
  quickPick st = Some remote →
  default false (enableSelfContainedVaults (config st)) = true →
  inputBox st = Some vaultName :: url :: rest →
  isInputEmpty (Some vaultName) = false →
  vaultNameTaken (config st) vaultName = false →
  isInputEmpty url = true →
  fst (gatherInputs st) = Ok None.
Proof.
  intros Hqp Hsc Hib Hname Htaken Hurl.
  destruct st. simpl in *. subst. unfold_gather.
  rewrite Hsc. simpl. rewrite Hname. simpl. rewrite Htaken. simpl.
  by rewrite Hurl.
Qed.

(** Standard flow, local source: whatever the answer to the optional name
    prompt, also none, gathering returns the options. *)
Lemma gatherInputs_optional_name (st : State) (out : string)
    (sourceName : option string) (rest : list (option string)) :
  quickPick st = Some local →
  default false (enableSelfContainedVaults (config st)) = false →
  inputBox st = Some out :: sourceName :: rest →
  isInputEmpty (Some out) = false →
  fst (gatherInputs st)
  = Ok (Some {| type := local; path := out; pathRemote := None;
                optName := sourceName; isSelfContained := None |}).
Proof.
  intros Hqp Hsc Hib Hout. destruct st. simpl in *. subst. unfold_gather.
  rewrite Hsc. simpl. rewrite Hout. simpl. by destruct sourceName.
Qed.

(** Self contained flow: a name that a vault of the workspace already has
    is refused with an error. *)
Lemma gatherInputs_name_taken (st : State) (ty : VaultRemoteSource)
    (vaultName : string) :
  quickPick st = Some ty →
  default false (enableSelfContainedVaults (config st)) = true →
  mjoin (head (inputBox st)) = Some vaultName →
  isInputEmpty (Some vaultName) = false →
  vaultNameTaken (config st) vaultName = true →
  fst (gatherInputs st) = Throw (duplicateVaultError vaultName).
Proof.
  intros Hqp Hsc Hib Hname Htaken.
  destruct st. simpl in *. subst. unfold_gather.
  rewrite Hsc. simpl. rewrite Hib. simpl in *. rewrite Hname. simpl.
  by rewrite Htaken.
Qed.

(** ... and [execute] on a local source throws the same error after the
    registration, without the reload. *)
Lemma execute_local_missing (opts : CommandOpts) (st : State) :
  type opts = local → wsType st = CODE → codeWorkspace st = None →
  fst (execute opts st) = Throw noCodeWorkspaceError
  ∧ EReloadWindow ∉ drop (length (trace st)) (trace (snd (execute opts st))).
Proof.
  intros Hty Hcode Hcw. destruct st. simpl in *. subst.
  unfold execute. rewrite Hty.
  unfold addVaultToWorkspace, emit, modify, bind, gets, ret, throw. simpl.
  destruct (isSelfContainedVault _); simpl;
    (split; [done|]); rewrite drop_app_length;
    by intros [=]%list_elem_of_singleton.
Qed.

(** [execute] on a local source is the registration of the vault
    followed by [addVaultToWorkspace], the message and the reload. *)
Lemma execute_local_unfold (opts : CommandOpts) (st : State) :
  type opts = local →
  let v := {| fsPath := normVaultPath (path opts) (wsRoot st);
              name := optName opts;
              selfContained := isSelfContained opts |} in
  let registration := if isSelfContainedVault v
                      then ECreateSelfContainedVault v else ECreateVault v in
  execute opts st
  = match addVaultToWorkspace v (setTrace (trace st ++ [registration]) st) with
    | (Ok _, st2) =>
        (Ok {| vaults := [v] |},
         setTrace (trace st2
                   ++ [EShowInformationMessage "finished adding vault";
                       EReloadWindow]) st2)
    | (Throw e, st2) => (Throw e, st2)
    | (Pending, st2) => (Pending, st2)
    end.
Proof.
  intros Hty v registration. unfold execute. rewrite Hty.
  unfold bind, gets, emit, modify, showInformationMessage, ret.
  fold v. subst registration.
  destruct (isSelfContainedVault v); simpl;
    (destruct (addVaultToWorkspace v _) as [[[]|e|] st2]; [|done..]);
    destruct st2; simpl; by rewrite <- app_assoc.
Qed.

(** [execute] on a remote source is the four opening steps followed by
    the registration of what was discovered, the message and the
    reload. *)
Lemma execute_remote_unfold (opts : CommandOpts) (st : State) :
  type opts = remote →
  let repoPath := pathJoin [wsRoot st; path opts] in
  let found := getVaultsFromRepo repoPath (wsRoot st) (pathRemote opts) in
  let vs := readVaults (renameFirst opts found) found in
  let opening := [EProgress "cloning repo";
                  EGitClone (pathRemote opts) (path opts);
                  EGetVaultsFromRepo repoPath;
                  EProgress "adding vault"] in
  execute opts st
  = match registerDiscovered vs (readWorkspace (renameFirst opts found) found)
            (setTrace (trace st ++ opening) st) with
    | (Ok _, st2) =>
        (Ok {| vaults := vs |},
         setTrace (trace st2
                   ++ [EShowInformationMessage "finished adding vault";
                       EReloadWindow]) st2)
    | (Throw e, st2) => (Throw e, st2)
    | (Pending, st2) => (Pending, st2)
    end.
Proof.
  intros Hty repoPath found vs opening.
  unfold execute. rewrite Hty. unfold bind at 1 2.
  rewrite handleRemoteRepo_unfold. unfold bind.
  fold repoPath. fold found. fold opening. fold vs.
  destruct (registerDiscovered vs _ _) as [[[]|e|] st2]; [|done..].
  unfold showInformationMessage, emit, modify, ret. simpl.
  by rewrite <- app_assoc.
Qed.

(** What [addVaultToWorkspace] adds when it completes. *)
Lemma addVaultToWorkspace_segment (v : DVault) (st : State) :
  fst (addVaultToWorkspace v st) = Ok tt →
  let st1 := snd (addVaultToWorkspace v st) in
  ∃ seg, vaultPatch (wsType st) (wsRoot st) v seg
         ∧ trace st1 = trace st ++ seg
         ∧ wsType st1 = wsType st ∧ wsRoot st1 = wsRoot st
         ∧ (wsType st = CODE → hasFolder v st1)
         ∧ (∀ u, hasFolder u st → hasFolder u st1).
Proof.
  intros Hok st1. subst st1.
  destruct (registers_addVaultToWorkspace v st)
    as (b & (_ & _ & Hty1 & Hroot1 & _) & _).
  destruct (wsType st) eqn:Hty.
  - assert (addVaultToWorkspace v st = (Ok tt, st)) as ->
      by (destruct st; simpl in *; by subst).
    exists []. simpl. rewrite app_nil_r. by repeat split.
  - destruct (codeWorkspace st) as [ws|] eqn:Hcw.
    2:{ rewrite addVaultToWorkspace_missing in Hok by done. discriminate. }
    destruct (addVaultToWorkspace_code v st ws Hty Hcw) as (_ & Hres).
    destruct (addVaultToWorkspace_patches v st ws Hty Hcw)
      as (_ & Hfolder & (ws1 & Hcw1 & Hkeep) & _).
    assert (∀ u, hasFolder u st → hasFolder u (snd (addVaultToWorkspace v st)))
      as Hkeeps.
    { intros u (ws0 & ent & Hcw0 & Hin & Hent).
      rewrite Hcw in Hcw0. injection Hcw0 as <-. exists ws1, ent. auto. }
    destruct (findFolder v ws) eqn:Hfind; destruct Hres as (_ & Htr).
    + eexists. split; [exists []; split; [reflexivity | by left]|].
      by repeat split.
    + set (s := assignFolders ([toWorkspaceFolder v] ++ folders ws) ws) in *.
      eexists. split;
        [exists [EWriteCodeWorkspaceSettings s]; split;
           [reflexivity | right; exists s; split; reflexivity]|].
      by repeat split.
Qed.





(** [execute] on a local source, in a native workspace or a code
    workspace with its file. *)
Lemma execute_local_steps (opts : CommandOpts) (st : State) :
  type opts = local →
  wsType st = NATIVE ∨ is_Some (codeWorkspace st) →
  let v := {| fsPath := normVaultPath (path opts) (wsRoot st);
              name := optName opts;
              selfContained := isSelfContained opts |} in
  let st1 := snd (execute opts st) in
  fst (execute opts st) = Ok {| vaults := [v] |}
  ∧ ∃ seg,
      vaultPatch (wsType st) (wsRoot st) v seg
      ∧ trace st1
        = trace st
          ++ (if isSelfContainedVault v
              then ECreateSelfContainedVault v else ECreateVault v)
          :: seg
          ++ [EShowInformationMessage "finished adding vault"; EReloadWindow]
      ∧ (wsType st = CODE → hasFolder v st1).
Proof.
  intros Hsrc Hgood v st1. subst st1.
  rewrite (execute_local_unfold opts st Hsrc). fold v.
  set (st0 := setTrace _ st).
  assert (trace st0
          = trace st ++ [if isSelfContainedVault v
                         then ECreateSelfContainedVault v else ECreateVault v]
          ∧ wsType st0 = wsType st ∧ wsRoot st0 = wsRoot st
          ∧ codeWorkspace st0 = codeWorkspace st)
    as (Htr0 & Hty0 & Hroot0 & Hcw0) by (subst st0; by destruct st).
  assert (fst (addVaultToWorkspace v st0) = Ok tt) as Hok.
  { destruct (registers_addVaultToWorkspace v st0)
      as (b & _ & [Hok | (_ & Hcode & Hnone)]); [exact Hok|].
    rewrite Hty0 in Hcode. rewrite Hcw0 in Hnone.
    destruct Hgood as [Hnat | [ws Hws]]; congruence. }
  pose proof (addVaultToWorkspace_segment v st0 Hok) as Hseg.
  destruct (addVaultToWorkspace v st0) as [r st2]; simpl in *. subst r.
  destruct Hseg as (seg & Hpatch & Htr & _ & _ & Hv & _).
  rewrite ?Hty0, ?Hroot0 in Hpatch. rewrite ?Hty0 in Hv.
  split; [done|]. exists seg. split; [exact Hpatch|]. split.
  - simpl. rewrite Htr, <- !app_assoc. reflexivity.
  - intros Hcode. by apply hasFolder_setTrace, Hv.
Qed.




(** A second [addVaultToWorkspace] for the same vault leaves the folders
    as the first one left them. *)
Lemma addVaultToWorkspace_twice (v : DVault) (st : State) :
  folderPath (toWorkspaceFolder v) = getRelPath v →
  let st1 := snd (addVaultToWorkspace v st) in
  codeWorkspace (snd (addVaultToWorkspace v st1)) = codeWorkspace st1.
Proof.
  intros Hpath st1. subst st1.
  destruct (wsType st) eqn:Hty.
  { destruct st. simpl in *. subst. reflexivity. }
  destruct (codeWorkspace st) as [ws|] eqn:Hcw.
  2:{ destruct st. simpl in *. subst. reflexivity. }
  destruct (addVaultToWorkspace_code v st ws Hty Hcw) as (_ & Hfirst).
  destruct (registers_addVaultToWorkspace v st) as (b & (_ & _ & Hty1 & _) & _).
  rewrite Hty in Hty1.
  destruct (findFolder v ws) as [ent|] eqn:Hfind.
  - destruct Hfirst as (Hcw1 & _).
    destruct (addVaultToWorkspace_code v _ ws Hty1 Hcw1) as (_ & Hsecond).
    rewrite Hfind in Hsecond. destruct Hsecond as (-> & _). by rewrite Hcw1.
  - destruct Hfirst as (Hcw1 & _).
    destruct (addVaultToWorkspace_code v _ _ Hty1 Hcw1) as (_ & Hsecond).
    destruct (findFolder v (assignFolders _ ws)) as [ent|] eqn:Hfind'.
    + destruct Hsecond as (-> & _). by rewrite Hcw1.
    + unfold findFolder in Hfind'. simpl in Hfind'.
      by rewrite Hpath, String.eqb_refl in Hfind'.
Qed.

(** C9.  In a code workspace with its [dendron.code-workspace]: when a
    folder entry with the vault's relative path is already in the folders
    list, [addVaultToWorkspace] does not rewrite the settings file;
    otherwise it writes the file once, with the vault's folder entry put in
    front of the folders.  In any workspace, applying it twice for the same
    vault, whose folder entry carries its relative path, yields the same
    folders list as applying it once. *)
Theorem addVaultToWorkspace_idempotent (v : DVault) (st : State) :
  let st1 := snd (addVaultToWorkspace v st) in
  let vaultDir := pathJoin [wsRoot st; fsPath v] in
  let ignores := [EAddToGitignore (fsPath v) (wsRoot st) true;
                  EEnsureDir vaultDir;
                  EAddToGitignore ".dendron.cache.*" vaultDir false] in
  (∀ ws, wsType st = CODE → codeWorkspace st = Some ws →
     let ws' := {| folders := toWorkspaceFolder v :: folders ws;
                   rest := rest ws |} in
     ((∃ ent, ent ∈ folders ws ∧ folderPath ent = getRelPath v) →
        codeWorkspace st1 = Some ws ∧ trace st1 = trace st ++ ignores)
     ∧ ((∀ ent, ent ∈ folders ws → folderPath ent ≠ getRelPath v) →
          codeWorkspace st1 = Some ws'
          ∧ trace st1
            = trace st ++ EWriteCodeWorkspaceSettings ws' :: ignores))
  ∧ (folderPath (toWorkspaceFolder v) = getRelPath v →
       folders <$> codeWorkspace (snd (addVaultToWorkspace v st1))
       = folders <$> codeWorkspace st1).
Proof.
  intros st1 vaultDir ignores. split.
  - intros ws Hty Hcw ws'.
    destruct (addVaultToWorkspace_code v st ws Hty Hcw) as (_ & Hfirst).
    split.
    + intros [ent Hent]%findFolder_present. by rewrite Hent in Hfirst.
    + intros Habs%findFolder_absent. by rewrite Habs in Hfirst.
  - intros Hpath. subst st1. by rewrite addVaultToWorkspace_twice.
Qed.

End Facts.

(** On the example workspace the vault [vault] is already a folder: the
    file is not rewritten.  The vault [site] is not: its entry is put in
    front, and a second application changes nothing more. *)
Lemma addVaultToWorkspace_idempotent_witness :
  let add := @addVaultToWorkspace Examples.vaultCollaborators in
  codeWorkspace (snd (add (Examples.vaultAt "vault") Examples.vaultHost))
  = Some Examples.vaultSettings
  ∧ folders <$> codeWorkspace (snd (add (Examples.vaultAt "site")
                                      Examples.vaultHost))
    = Some [{| folderPath := "site"; folderName := None |};
            {| folderPath := "vault"; folderName := None |}]
  ∧ folders <$> codeWorkspace
                  (snd (add (Examples.vaultAt "site")
                          (snd (add (Examples.vaultAt "site")
                                  Examples.vaultHost))))
    = Some [{| folderPath := "site"; folderName := None |};
            {| folderPath := "vault"; folderName := None |}].
Proof.
  intros add. subst add. split; [|split].
  - destruct (@addVaultToWorkspace_idempotent Examples.vaultCollaborators
                (Examples.vaultAt "vault") Examples.vaultHost) as (Hcode & _).
    destruct (Hcode Examples.vaultSettings eq_refl eq_refl)
      as (Hpresent & _).
    apply Hpresent.
    exists {| folderPath := "vault"; folderName := None |}.
    split; [left | reflexivity].
  - destruct (@addVaultToWorkspace_idempotent Examples.vaultCollaborators
                (Examples.vaultAt "site") Examples.vaultHost) as (Hcode & _).
    destruct (Hcode Examples.vaultSettings eq_refl eq_refl)
      as (_ & Habsent).
    destruct Habsent as [Hcw _].
    + intros ent [->|Hin]%elem_of_cons; [discriminate|].
      by apply elem_of_nil in Hin.
    + rewrite Hcw. reflexivity.
  - destruct (@addVaultToWorkspace_idempotent Examples.vaultCollaborators
                (Examples.vaultAt "site") Examples.vaultHost)
      as (Hcode & Htwice).
    rewrite (Htwice eq_refl).
    destruct (Hcode Examples.vaultSettings eq_refl eq_refl)
      as (_ & Habsent).
    destruct Habsent as [Hcw _].
    + intros ent [->|Hin]%elem_of_cons; [discriminate|].
      by apply elem_of_nil in Hin.
    + rewrite Hcw. reflexivity.
Defined.


(** A clone that holds the workspace [solo], whose single vault is the
    object of the [vaults] array, and the name [docs]: the vault
    returned and the vault of the workspace handed to [addWorkspace] are
    named [docs].  Two vaults: the names stay. *)
Lemma handleRemoteRepo_name_override_witness :
  let docs := {| fsPath := "solo/notes"; name := Some "docs";
                 selfContained := None |} in
  let solo := {| wsName := "solo"; wsVaults := [docs] |} in
  fst (@handleRemoteRepo Examples.vaultCollaborators
         (Examples.remoteOpts "solo" (Some "docs")) Examples.vaultHost)
  = Ok ([docs], Some solo)
  ∧ EAddWorkspace solo
    ∈ added Examples.vaultHost
        (snd (@handleRemoteRepo Examples.vaultCollaborators
                (Examples.remoteOpts "solo" (Some "docs"))
                Examples.vaultHost))
  ∧ fst (@handleRemoteRepo Examples.vaultCollaborators
           (Examples.remoteOpts "multi" (Some "docs")) Examples.vaultHost)
    = Ok ([Examples.vaultAt "multi/a"; Examples.vaultAt "multi/b"], None).
Proof.
  intros docs solo. split; [|split].
  - destruct (@handleRemoteRepo_name_override Examples.vaultCollaborators
                (Examples.remoteOpts "solo" (Some "docs")) Examples.vaultHost)
      as (Hone & _ & _ & Hres & _).
    destruct (Hone 0 eq_refl eq_refl) as (Hvs & _).
    destruct (fst (@handleRemoteRepo Examples.vaultCollaborators
                (Examples.remoteOpts "solo" (Some "docs")) Examples.vaultHost))
      as [r|e|]; [|by destruct Hres as (_ & _ & ?) | done].
    rewrite Hres, Hvs. reflexivity.
  - destruct (@handleRemoteRepo_name_override Examples.vaultCollaborators
                (Examples.remoteOpts "solo" (Some "docs")) Examples.vaultHost)
      as (_ & _ & _ & _ & Hws & _).
    exact (Hws solo eq_refl).
  - destruct (@handleRemoteRepo_name_override Examples.vaultCollaborators
                (Examples.remoteOpts "multi" (Some "docs")) Examples.vaultHost)
      as (_ & Hmany & _ & Hres & _).
    assert (2 ≠ 1) as Hne by discriminate.
    destruct (Hmany (or_introl Hne)) as (_ & Hvs & Hws).
    destruct (fst (@handleRemoteRepo Examples.vaultCollaborators
                (Examples.remoteOpts "multi" (Some "docs")) Examples.vaultHost))
      as [r|e|]; [|by destruct Hres as (_ & _ & ?) | done].
    rewrite Hres, Hvs, Hws. reflexivity.
Defined.

End VaultAddFacts.

(** ** Prompts and errors across the two commands *)

Module CommandFacts.
Import Host.

Section Facts.
Context `{RenameHeader.Collaborators} `{VaultAdd.Collaborators}.

(** C5 (amended).  For every prompt that asks for something the command
    cannot do without (rename-header: the new header text; vault-add: the
    source type, the vault path, the name of a self contained vault, the
    remote URL), an empty or dismissed answer makes the gathering function
    return [undefined]: it throws nothing, and the document, the workspace,
    its config and its files are as they were (only the prompts are added
    to the trace).  The optional name prompt of the standard vault-add
    flow is different: whatever its answer, also none, gathering goes on
    and returns the options, with the name as answered.  So is the preset
    pick of the remote standard flow: an empty custom endpoint is answered
    with a message and the pick stays open. *)
Theorem prompt_abandons :
  (∀ (st : RenameHeader.State) note0 ed sel header,
     RenameHeader.activeNote st = Some note0 →
     RenameHeader.activeTextEditor st = Some ed →
     RenameHeader.selection ed = Some sel →
     let ln := RenameHeader.lineAt (RenameHeader.document ed)
                 (RenameHeader.line (RenameHeader.start sel)) in
     RenameHeader.firstHeading (RenameHeader.parse ln) = Some header →
     truthy (mjoin (head (RenameHeader.inputBox st))) = false →
     let r := RenameHeader.gatherInputs None st in
     fst r = Ok None
     ∧ RenameHeader.activeTextEditor (snd r) = RenameHeader.activeTextEditor st
     ∧ RenameHeader.trace (snd r)
       = RenameHeader.trace st
         ++ [RenameHeader.EParse ln;
             RenameHeader.EShowInputBox (RenameHeader.headerText header)])
  ∧ (∀ (st : RenameHeader.State) note0 old src nt,
       RenameHeader.activeNote st = Some note0 →
       truthy (mjoin (head (RenameHeader.inputBox st))) = false →
       let r := RenameHeader.gatherInputs
                  (Some {| RenameHeader.oldHeader := Some old;
                           RenameHeader.newHeader := None;
                           RenameHeader.source := src;
                           RenameHeader.note := nt |}) st in
       fst r = Ok None
       ∧ RenameHeader.activeTextEditor (snd r)
         = RenameHeader.activeTextEditor st
       ∧ RenameHeader.trace (snd r)
         = RenameHeader.trace st
           ++ [RenameHeader.EShowInputBox (RenameHeader.text old)])
  ∧ (∀ st : VaultAdd.State,
       ∃ ps, VaultAdd.prompted st (snd (VaultAdd.gatherInputs st))
               (VaultAdd.EShowQuickPick ["local"; "remote"] :: ps))
  ∧ (∀ st : VaultAdd.State,
       VaultAdd.quickPick st = None →
       fst (VaultAdd.gatherInputs st) = Ok None)
  ∧ (∀ st : VaultAdd.State,
       VaultAdd.quickPick st = Some VaultAdd.local →
       default false (VaultAdd.enableSelfContainedVaults (VaultAdd.config st))
       = false →
       isInputEmpty (mjoin (head (VaultAdd.inputBox st))) = true →
       fst (VaultAdd.gatherInputs st) = Ok None)
  ∧ (∀ (st : VaultAdd.State) value selected rest,
       VaultAdd.quickPick st = Some VaultAdd.remote →
       default false (VaultAdd.enableSelfContainedVaults (VaultAdd.config st))
       = false →
       VaultAdd.accepts st = (value, selected) :: rest →
       String.eqb (VaultAdd.label selected) "custom"
       && isInputEmpty (Some value) = false →
       isInputEmpty (mjoin (head (VaultAdd.inputBox st))) = true →
       fst (VaultAdd.gatherInputs st) = Ok None)
  ∧ (∀ (st : VaultAdd.State) ty,
       VaultAdd.quickPick st = Some ty →
       default false (VaultAdd.enableSelfContainedVaults (VaultAdd.config st))
       = true →
       isInputEmpty (mjoin (head (VaultAdd.inputBox st))) = true →
       fst (VaultAdd.gatherInputs st) = Ok None)
  ∧ (∀ (st : VaultAdd.State) vaultName url rest,
       VaultAdd.quickPick st = Some VaultAdd.remote →
       default false (VaultAdd.enableSelfContainedVaults (VaultAdd.config st))
       = true →
       VaultAdd.inputBox st = Some vaultName :: url :: rest →
       isInputEmpty (Some vaultName) = false →
       VaultAdd.vaultNameTaken (VaultAdd.config st) vaultName = false →
       isInputEmpty url = true →
       fst (VaultAdd.gatherInputs st) = Ok None)
  ∧ (∀ (st : VaultAdd.State) out sourceName rest,
       VaultAdd.quickPick st = Some VaultAdd.local →
       default false (VaultAdd.enableSelfContainedVaults (VaultAdd.config st))
       = false →
       VaultAdd.inputBox st = Some out :: sourceName :: rest →
       isInputEmpty (Some out) = false →
       fst (VaultAdd.gatherInputs st)
       = Ok (Some {| VaultAdd.type := VaultAdd.local;
                     VaultAdd.path := out;
                     VaultAdd.pathRemote := None;
                     VaultAdd.optName := sourceName;
                     VaultAdd.isSelfContained := None |}))
  ∧ (∀ (st : VaultAdd.State) value selected,
       VaultAdd.quickPick st = Some VaultAdd.remote →
       default false (VaultAdd.enableSelfContainedVaults (VaultAdd.config st))
       = false →
       VaultAdd.accepts st = [(value, selected)] →
       String.eqb (VaultAdd.label selected) "custom"
       && isInputEmpty (Some value) = true →
       fst (VaultAdd.gatherInputs st) = Pending
       ∧ VaultAdd.trace (snd (VaultAdd.gatherInputs st))
         = VaultAdd.trace st
           ++ [VaultAdd.EShowQuickPick ["local"; "remote"];
               VaultAdd.EQuickPickShow VaultAdd.generateRemoteEntries;
               VaultAdd.EShowInformationMessage "please enter an endpoint"]).
Proof.
  repeat apply conj.
  - intros st note0 ed sel header Hnote Hed Hsel ln Hh Hans r. subst r.
    rewrite (RenameHeaderFacts.gatherInputs_parsed st note0 ed sel header
               Hnote Hed Hsel Hh).
    by rewrite Hans.
  - intros st note0 old src nt Hnote Hans r. subst r.
    rewrite (RenameHeaderFacts.gatherInputs_given st note0 old src nt Hnote).
    by rewrite Hans.
  - apply VaultAddFacts.gatherInputs_prompts.
  - apply VaultAddFacts.gatherInputs_cancel_pick.
  - apply VaultAddFacts.gatherInputs_cancel_path_local.
  - apply VaultAddFacts.gatherInputs_cancel_path_remote.
  - apply VaultAddFacts.gatherInputs_cancel_name.
  - apply VaultAddFacts.gatherInputs_cancel_url.
  - apply VaultAddFacts.gatherInputs_optional_name.
  - apply VaultAddFacts.gatherInputs_empty_endpoint.
Qed.

(** C7.  Every error the two commands raise is one [DendronError], a
    message with an optional status code, and what is thrown goes up
    through [run] to the host: no step catches or retries.  Rename-header
    raises its errors while gathering (no note open, no header selected)
    and none in [execute].  Vault-add raises one error while gathering, for
    a self contained vault name that a vault of the workspace config
    already has, and one in [execute], with status [INVALID_STATE], when
    [dendron.code-workspace] is missing; then the window is not
    reloaded. *)
Theorem errors_propagate :
  (∀ opts (st st' : RenameHeader.State) e,
     RenameHeader.gatherInputs opts st = (Throw e, st') →
     e = mkError "You must first open a note to rename a header."
     ∨ e = mkError "You must first select the header you want to rename.")
  ∧ (∀ opts (st : RenameHeader.State),
       RenameHeader.activeNote st = None →
       RenameHeader.gatherInputs opts st
       = (Throw (mkError "You must first open a note to rename a header."),
          st))
  ∧ (∀ opts (st : RenameHeader.State) e,
       fst (RenameHeader.gatherInputs opts st) = Throw e →
       fst (RenameHeader.run opts st) = Throw e)
  ∧ (∀ opts (st : RenameHeader.State),
       ∃ r st', RenameHeader.execute opts st = (Ok r, st'))
  ∧ (∀ (st : VaultAdd.State) e,
       fst (VaultAdd.gatherInputs st) = Throw e →
       ∃ vaultName, e = VaultAdd.duplicateVaultError vaultName)
  ∧ (∀ (st : VaultAdd.State) ty vaultName,
       VaultAdd.quickPick st = Some ty →
       default false (VaultAdd.enableSelfContainedVaults (VaultAdd.config st))
       = true →
       mjoin (head (VaultAdd.inputBox st)) = Some vaultName →
       isInputEmpty (Some vaultName) = false →
       VaultAdd.vaultNameTaken (VaultAdd.config st) vaultName = true →
       fst (VaultAdd.gatherInputs st)
       = Throw {| message := "There is already a vault with the name "
                             +:+ vaultName
                             +:+ ", please pick a different name.";
                  status := None |}
       ∧ fst (VaultAdd.run st)
         = Throw {| message := "There is already a vault with the name "
                               +:+ vaultName
                               +:+ ", please pick a different name.";
                    status := None |})
  ∧ (∀ opts (st : VaultAdd.State) e,
       fst (VaultAdd.execute opts st) = Throw e →
       e = {| message := "no dendron.code-workspace found";
              status := Some INVALID_STATE |})
  ∧ (∀ v (st : VaultAdd.State),
       VaultAdd.wsType st = VaultAdd.CODE →
       VaultAdd.codeWorkspace st = None →
       VaultAdd.addVaultToWorkspace v st
       = (Throw {| message := "no dendron.code-workspace found";
                   status := Some INVALID_STATE |}, st))
  ∧ (∀ opts (st : VaultAdd.State),
       VaultAdd.type opts = VaultAdd.local →
       VaultAdd.wsType st = VaultAdd.CODE →
       VaultAdd.codeWorkspace st = None →
       fst (VaultAdd.execute opts st)
       = Throw {| message := "no dendron.code-workspace found";
                  status := Some INVALID_STATE |}
       ∧ VaultAdd.EReloadWindow
         ∉ drop (length (VaultAdd.trace st))
             (VaultAdd.trace (snd (VaultAdd.execute opts st))))
  ∧ (∀ (st : VaultAdd.State) o e,
       fst (VaultAdd.gatherInputs st) = Ok (Some o) →
       fst (VaultAdd.execute o (snd (VaultAdd.gatherInputs st))) = Throw e →
       fst (VaultAdd.run st) = Throw e).
Proof.
  repeat apply conj.
  - intros opts st st' e Hg.
    by destruct (RenameHeaderFacts.gatherInputs_throws opts st st' e Hg).
  - apply RenameHeaderFacts.gatherInputs_no_note.
  - apply RenameHeaderFacts.run_throws_gathered.
  - apply RenameHeaderFacts.execute_returns.
  - apply VaultAddFacts.gatherInputs_raises.
  - intros st ty vaultName Hqp Hsc Hib Hname Htaken.
    pose proof (VaultAddFacts.gatherInputs_name_taken st ty vaultName
                  Hqp Hsc Hib Hname Htaken) as Hg.
    split; [exact Hg|].
    by apply VaultAddFacts.wizard_throws_gathered.
  - apply VaultAddFacts.execute_raises.
  - apply VaultAddFacts.addVaultToWorkspace_missing.
  - apply VaultAddFacts.execute_local_missing.
  - apply VaultAddFacts.wizard_throws_executed.
Qed.

End Facts.

(** C5, as stated, fails: in the standard flow with a local source the
    user gives the path [vault2] and dismisses the name prompt, and
    gathering returns the options all the same. *)
Lemma optional_name_counterexample :
  VaultAdd.inputBox Examples.vaultHostLocal = [Some "vault2"; None]
  ∧ fst (@VaultAdd.gatherInputs Examples.vaultCollaborators
           Examples.vaultHostLocal)
    = Ok (Some (Examples.localOpts "vault2" None))
  ∧ fst (@VaultAdd.gatherInputs Examples.vaultCollaborators
           Examples.vaultHostLocal)
    ≠ Ok None.
Proof. repeat split; by vm_compute. Qed.

(** A dismissed rename prompt and a dismissed source type pick both
    abandon their command. *)
Lemma prompt_abandons_witness :
  fst (@RenameHeader.gatherInputs Examples.renameCollaborators None
         Examples.renameHostCancelled) = Ok None
  ∧ fst (@VaultAdd.gatherInputs Examples.vaultCollaborators
           Examples.vaultHostNoFile) = Ok None.
Proof.
  destruct (@prompt_abandons Examples.renameCollaborators
              Examples.vaultCollaborators)
    as (Hrename & _ & _ & Hpick & _).
  split.
  - by destruct (Hrename Examples.renameHostCancelled Examples.demoNote
                   Examples.demoEditor (Examples.demoRange (0, 0) 1)
                   "## Old header" eq_refl eq_refl eq_refl eq_refl eq_refl).
  - by apply Hpick.
Defined.

(** The name [vault] is taken, and the workspace file is missing. *)
Lemma errors_propagate_witness :
  fst (@VaultAdd.run Examples.vaultCollaborators Examples.vaultHostTaken)
  = Throw {| message := "There is already a vault with the name vault, "
                        +:+ "please pick a different name.";
             status := None |}
  ∧ fst (@VaultAdd.execute Examples.vaultCollaborators
           (Examples.localOpts "vault2" None) Examples.vaultHostNoFile)
    = Throw {| message := "no dendron.code-workspace found";
               status := Some INVALID_STATE |}.
Proof.
  destruct (@errors_propagate Examples.renameCollaborators
              Examples.vaultCollaborators)
    as (_ & _ & _ & _ & _ & Htaken & _ & _ & Hmissing & _).
  split.
  - destruct (Htaken Examples.vaultHostTaken VaultAdd.local "vault"
                eq_refl eq_refl eq_refl eq_refl eq_refl) as [_ Hrun].
    exact Hrun.
  - by destruct (Hmissing (Examples.localOpts "vault2" None)
                   Examples.vaultHostNoFile eq_refl eq_refl eq_refl).
Defined.

End CommandFacts.

(** * Further properties of the commands *)

(** ** [VaultAddCommand]: local sources, native workspaces, failures *)

Module VaultAddMore.
Import Host VaultAdd VaultAddTrace VaultAddFacts.

Lemma isPatch_registers (e : Event) :
  isPatch e = true → isRegistrationOrPatch e = true.
Proof. by destruct e. Qed.

Section Facts.
Context `{Collaborators}.

(** [addVaultToWorkspace] in a native workspace: line 281. *)
Lemma addVaultToWorkspace_native (v : DVault) (st : State) :
  wsType st = NATIVE → addVaultToWorkspace v st = (Ok tt, st).
Proof. intros Hty. destruct st. simpl in *. by subst. Qed.

(** What [addVaultToWorkspace] adds are patches, and it completes unless
    the workspace is a code workspace without its file. *)
Lemma addVaultToWorkspace_outcome (v : DVault) (st : State) :
  ∃ body,
    trace (snd (addVaultToWorkspace v st)) = trace st ++ body
    ∧ Forall (fun e => isPatch e = true) body
    ∧ ((wsType st = NATIVE ∨ is_Some (codeWorkspace st)) ∧
       fst (addVaultToWorkspace v st) = Ok tt
       ∨ (wsType st = CODE ∧ codeWorkspace st = None) ∧ body = [] ∧
         fst (addVaultToWorkspace v st) = Throw noCodeWorkspaceError).
Proof.
  destruct (wsType st) eqn:Hty.
  - rewrite (addVaultToWorkspace_native v st Hty). exists []. simpl.
    rewrite app_nil_r. repeat split; auto.
  - destruct (codeWorkspace st) as [ws|] eqn:Hcw.
    + destruct (addVaultToWorkspace_code v st ws Hty Hcw) as (Hok & Hres).
      destruct (findFolder v ws); destruct Hres as (_ & Htr);
        eexists; (split; [exact Htr|]);
        (split; [by repeat constructor|]); left; split; eauto.
    + rewrite (addVaultToWorkspace_missing v st Hty Hcw). exists []. simpl.
      rewrite app_nil_r. repeat split; auto.
Qed.

(** The two outcomes of [execute] on a local source. *)
Lemma execute_local_traced (opts : CommandOpts) (st : State) :
  type opts = local →
  let v := {| fsPath := normVaultPath (path opts) (wsRoot st);
              name := optName opts;
              selfContained := isSelfContained opts |} in
  let registration := if isSelfContainedVault v
                      then ECreateSelfContainedVault v else ECreateVault v in
  (wsType st = NATIVE ∨ is_Some (codeWorkspace st) →
     fst (execute opts st) = Ok {| vaults := [v] |}
     ∧ ∃ body,
         Forall (fun e => isPatch e = true) body
         ∧ trace (snd (execute opts st))
           = trace st
             ++ registration :: body
             ++ [EShowInformationMessage "finished adding vault";
                 EReloadWindow])
  ∧ (wsType st = CODE → codeWorkspace st = None →
       fst (execute opts st) = Throw noCodeWorkspaceError
       ∧ trace (snd (execute opts st)) = trace st ++ [registration]).
Proof.
  intros Hty v registration.
  rewrite (execute_local_unfold opts st Hty). fold v. fold registration.
  set (st1 := setTrace (trace st ++ [registration]) st).
  assert (trace st1 = trace st ++ [registration]
          ∧ wsType st1 = wsType st
          ∧ codeWorkspace st1 = codeWorkspace st) as (Htr1 & Hty1 & Hcw1)
    by (subst st1; by destruct st).
  destruct (addVaultToWorkspace_outcome v st1)
    as (body & Htr & Hbody & Hres).
  rewrite Htr1, Hty1, Hcw1 in *.
  destruct (addVaultToWorkspace v st1) as [r st2]. simpl in *.
  split.
  - intros Hgood.
    destruct Hres as [(_ & ->) | ((Hcode & Hnone) & _)].
    + split; [done|]. exists body. split; [done|].
      simpl. rewrite Htr.
      by rewrite <- !app_assoc.
    + destruct Hgood as [Hnat | [ws Hws]]; congruence.
  - intros Hcode Hnone.
    destruct Hres as [([Hnat | [ws Hws]] & _) | (_ & -> & ->)];
      [congruence | congruence |].
    split; [done|]. simpl. by rewrite Htr, app_nil_r.
Qed.

Lemma execute_local_outcome (opts : CommandOpts) (st : State) :
  type opts = local →
  let v := {| fsPath := normVaultPath (path opts) (wsRoot st);
              name := optName opts;
              selfContained := isSelfContained opts |} in
  let registration := if isSelfContainedVault v
                      then ECreateSelfContainedVault v else ECreateVault v in
  (wsType st = NATIVE ∨ is_Some (codeWorkspace st) →
     fst (execute opts st) = Ok {| vaults := [v] |}
     ∧ ∃ body,
         Forall (fun e => isPatch e = true) body
         ∧ added st (snd (execute opts st))
           = registration :: body
             ++ [EShowInformationMessage "finished adding vault";
                 EReloadWindow])
  ∧ (wsType st = CODE → codeWorkspace st = None →
       fst (execute opts st) = Throw noCodeWorkspaceError
       ∧ added st (snd (execute opts st)) = [registration]).
Proof.
  intros Hty v registration.
  destruct (execute_local_traced opts st Hty) as (Hok & Hthrow).
  fold v in Hok, Hthrow. fold registration in Hok, Hthrow.
  split.
  - intros Hgood. destruct (Hok Hgood) as (Hres & body & Hbody & Htr).
    split; [exact Hres|]. exists body. split; [exact Hbody|].
    by apply added_app.
  - intros Hcode Hnone. destruct (Hthrow Hcode Hnone) as (Hres & Htr).
    split; [exact Hres|]. by apply added_app.
Qed.

(** X1.  On a local source [execute] first registers the vault built from
    the options with the workspace service ([createSelfContainedVault]
    when [VaultUtils.isSelfContained] holds of it, [createVault]
    otherwise).  In a native workspace, or a code workspace with its file,
    it then patches, shows the message, reloads the window and returns
    exactly that vault.  In a code workspace whose file is missing it
    throws the [INVALID_STATE] error after the registration, which is not
    undone. *)
Theorem execute_local_vault (opts : CommandOpts) (st : State) :
  type opts = local →
  let v := {| fsPath := normVaultPath (path opts) (wsRoot st);
              name := optName opts;
              selfContained := isSelfContained opts |} in
  let registration := if isSelfContainedVault v
                      then ECreateSelfContainedVault v else ECreateVault v in
  (wsType st = NATIVE ∨ is_Some (codeWorkspace st) →
     fst (execute opts st) = Ok {| vaults := [v] |}
     ∧ ∃ body,
         Forall (fun e => isPatch e = true) body
         ∧ added st (snd (execute opts st))
           = registration :: body
             ++ [EShowInformationMessage "finished adding vault";
                 EReloadWindow])
  ∧ (wsType st = CODE → codeWorkspace st = None →
       fst (execute opts st) = Throw noCodeWorkspaceError
       ∧ added st (snd (execute opts st)) = [registration]).
Proof. apply execute_local_outcome. Qed.

Lemma setTrace_setTrace (t1 t2 : list Event) (st : State) :
  setTrace t2 (setTrace t1 st) = setTrace t2 st.
Proof. by destruct st. Qed.

(** In a native workspace the loop of [handleRemoteRepo] registers every
    vault and does nothing else. *)
Lemma forEach_createAndAdd_native (vs : list DVault) (st : State) :
  wsType st = NATIVE →
  forEach vs createAndAdd st
  = (Ok tt, setTrace (trace st ++ map ECreateVault vs) st).
Proof.
  revert st. induction vs as [|v vs IH]; intros st Hty; simpl.
  - rewrite app_nil_r. by destruct st.
  - unfold bind. rewrite createAndAdd_unfold.
    rewrite addVaultToWorkspace_native by (by destruct st).
    rewrite IH by (by destruct st).
    rewrite setTrace_setTrace. f_equal. f_equal.
    destruct st. simpl. by rewrite <- app_assoc.
Qed.

(** In a native workspace the loop of [addWorkspaceToWorkspace] does
    nothing. *)
Lemma forEach_addVault_native (vs : list DVault) (st : State) :
  wsType st = NATIVE → forEach vs addVaultToWorkspace st = (Ok tt, st).
Proof.
  intros Hty. induction vs as [|v vs IH]; simpl; [done|].
  unfold bind. by rewrite addVaultToWorkspace_native, IH.
Qed.

(** In a native workspace [addWorkspaceToWorkspace] still writes its two
    [.gitignore] entries: lines 265 to 277 are not behind the guard of
    line 281. *)
Lemma addWorkspaceToWorkspace_native (w : DWorkspace) (st : State) :
  wsType st = NATIVE →
  let workspaceDir := pathJoin [wsRoot st; wsName w] in
  addWorkspaceToWorkspace w st
  = (Ok tt,
     setTrace (trace st
               ++ [EAddToGitignore (wsName w) (wsRoot st) true;
                   EEnsureDir workspaceDir;
                   EAddToGitignore ".dendron.cache.*" workspaceDir false])
       st).
Proof.
  intros Hty workspaceDir. subst workspaceDir.
  unfold addWorkspaceToWorkspace. unfold bind at 1. unfold gets at 1.
  unfold bind at 1. rewrite forEach_addVault_native by done.
  unfold addToGitignore, bind, emit, modify, setTrace. destruct st. simpl.
  by rewrite <- !app_assoc.
Qed.

Lemma registerDiscovered_native (vs : list DVault) (w : option DWorkspace)
    (st : State) :
  wsType st = NATIVE →
  registerDiscovered vs w st
  = (Ok tt,
     setTrace
       (trace st
        ++ match w with
           | None => map ECreateVault vs
           | Some w =>
               let workspaceDir := pathJoin [wsRoot st; wsName w] in
               [EAddWorkspace w;
                EAddToGitignore (wsName w) (wsRoot st) true;
                EEnsureDir workspaceDir;
                EAddToGitignore ".dendron.cache.*" workspaceDir false]
           end) st).
Proof.
  intros Hty. destruct w as [w|]; simpl.
  - unfold bind at 1. unfold emit at 1. unfold modify at 1.
    rewrite addWorkspaceToWorkspace_native by (by destruct st).
    destruct st. simpl. by rewrite <- !app_assoc.
  - by apply forEach_createAndAdd_native.
Qed.

(** The embedding in a native workspace, where the clone and the discovery
    are calls that return: [execute] adds exactly the registration, or the
    clone, the discovery and the registrations, and the message and the
    reload. *)
Lemma execute_native_outcome (opts : CommandOpts) (st : State) :
  wsType st = NATIVE →
  let repoPath := pathJoin [wsRoot st; path opts] in
  let found := getVaultsFromRepo repoPath (wsRoot st) (pathRemote opts) in
  let store := renameFirst opts found in
  let vs := readVaults store found in
  let v := {| fsPath := normVaultPath (path opts) (wsRoot st);
              name := optName opts;
              selfContained := isSelfContained opts |} in
  let finish := [EShowInformationMessage "finished adding vault";
                 EReloadWindow] in
  codeWorkspace (snd (execute opts st)) = codeWorkspace st
  ∧ match type opts with
    | local =>
        fst (execute opts st) = Ok {| vaults := [v] |}
        ∧ added st (snd (execute opts st))
          = (if isSelfContainedVault v
             then ECreateSelfContainedVault v else ECreateVault v) :: finish
    | remote =>
        fst (execute opts st) = Ok {| vaults := vs |}
        ∧ added st (snd (execute opts st))
          = [EProgress "cloning repo";
             EGitClone (pathRemote opts) (path opts);
             EGetVaultsFromRepo repoPath;
             EProgress "adding vault"]
            ++ match readWorkspace store found with
               | None => map ECreateVault vs
               | Some w =>
                   let workspaceDir := pathJoin [wsRoot st; wsName w] in
                   [EAddWorkspace w;
                    EAddToGitignore (wsName w) (wsRoot st) true;
                    EEnsureDir workspaceDir;
                    EAddToGitignore ".dendron.cache.*" workspaceDir false]
               end
            ++ finish
    end.
Proof.
  intros Hty repoPath found store vs v finish.
  destruct (type opts) eqn:Hsrc.
  - rewrite (execute_local_unfold opts st Hsrc). fold v.
    rewrite addVaultToWorkspace_native by (by destruct st).
    simpl. split; [by destruct st|]. split; [done|].
    apply added_app. destruct st. simpl. by rewrite <- app_assoc.
  - rewrite (execute_remote_unfold opts st Hsrc).
    fold repoPath. fold found. fold store. fold vs.
    rewrite registerDiscovered_native by (by destruct st).
    split; [by destruct st|]. split; [done|].
    apply added_app. destruct st. simpl.
    destruct (readWorkspace store found) as [w|]; simpl;
      by rewrite <- !app_assoc.
Qed.

(** X2.  In a native workspace [execute] leaves [dendron.code-workspace]
    alone; on a local source it returns the vault built from the options;
    and whenever it returns an output, on either source, what it has
    added is exact: on a local source the registration of the vault; on a
    remote source the clone and the discovery, then one [createVault] per
    vault returned, or, when the clone holds a workspace, [addWorkspace]
    for the workspace as it is after the name was assigned and the two
    [.gitignore] entries of [addWorkspaceToWorkspace], which are written
    also there; in each case the message and the reload come last. *)
Theorem execute_native (opts : CommandOpts) (st : State) :
  wsType st = NATIVE →
  let repoPath := pathJoin [wsRoot st; path opts] in
  let found := getVaultsFromRepo repoPath (wsRoot st) (pathRemote opts) in
  let store := renameFirst opts found in
  let v := {| fsPath := normVaultPath (path opts) (wsRoot st);
              name := optName opts;
              selfContained := isSelfContained opts |} in
  let finish := [EShowInformationMessage "finished adding vault";
                 EReloadWindow] in
  codeWorkspace (snd (execute opts st)) = codeWorkspace st
  ∧ (type opts = local → fst (execute opts st) = Ok {| vaults := [v] |})
  ∧ ∀ out, fst (execute opts st) = Ok out →
      match type opts with
      | local =>
          vaults out = [v]
          ∧ added st (snd (execute opts st))
            = (if isSelfContainedVault v
               then ECreateSelfContainedVault v else ECreateVault v)
              :: finish
      | remote =>
          vaults out = readVaults store found
          ∧ added st (snd (execute opts st))
            = [EProgress "cloning repo";
               EGitClone (pathRemote opts) (path opts);
               EGetVaultsFromRepo repoPath;
               EProgress "adding vault"]
              ++ match readWorkspace store found with
                 | None => map ECreateVault (vaults out)
                 | Some w =>
                     let workspaceDir := pathJoin [wsRoot st; wsName w] in
                     [EAddWorkspace w;
                      EAddToGitignore (wsName w) (wsRoot st) true;
                      EEnsureDir workspaceDir;
                      EAddToGitignore ".dendron.cache.*" workspaceDir false]
                 end
              ++ finish
      end.
Proof.
  intros Hty repoPath found store v finish.
  destruct (execute_native_outcome opts st Hty) as (Hcw & Hout).
  fold repoPath found store v finish in Hout.
  split; [exact Hcw|]. split.
  - intros Hsrc. rewrite Hsrc in Hout. by destruct Hout as (Hres & _).
  - intros out Hok.
    destruct (type opts); destruct Hout as (Hres & Hadded);
      rewrite Hres in Hok; injection Hok as <-; by split.
Qed.

(** X3.  The output of [execute].  On a local source, in a native
    workspace or a code workspace with its file, [execute] returns the
    vault built from the options.  Whenever [execute] returns an output,
    on a local and on a remote source alike, the output holds that vault,
    or the vaults of the clone read after the name was assigned, and the
    message and the reload are the last two things [execute] has done,
    the reload occurring nowhere before. *)
Theorem execute_output (opts : CommandOpts) (st : State) :
  let found := getVaultsFromRepo (pathJoin [wsRoot st; path opts])
                 (wsRoot st) (pathRemote opts) in
  let v := {| fsPath := normVaultPath (path opts) (wsRoot st);
              name := optName opts;
              selfContained := isSelfContained opts |} in
  (type opts = local →
   wsType st = NATIVE ∨ is_Some (codeWorkspace st) →
   fst (execute opts st) = Ok {| vaults := [v] |})
  ∧ ∀ out, fst (execute opts st) = Ok out →
      vaults out = match type opts with
                   | local => [v]
                   | remote => readVaults (renameFirst opts found) found
                   end
      ∧ ∃ evs, added st (snd (execute opts st))
               = evs ++ [EShowInformationMessage "finished adding vault";
                         EReloadWindow]
               ∧ EReloadWindow ∉ evs.
Proof.
  intros found v. split.
  { intros Hsrc Hgood.
    by destruct (execute_local_steps opts st Hsrc Hgood) as (Hres & _). }
  intros out Hok. destruct (type opts) eqn:Hsrc.
  - destruct (execute_local opts st Hsrc) as (body & Hall & Hex).
    rewrite Hok in Hex. destruct Hex as (Hvs & Htr).
    split; [exact Hvs|]. eexists (_ :: body).
    split; [by apply added_app|].
    rewrite Forall_forall in Hall.
    intros [Hreg | Hin]%elem_of_cons.
    + by destruct (isSelfContainedVault _).
    + by specialize (Hall _ Hin).
  - destruct (execute_remote opts st Hsrc) as (body & Hall & Hex).
    rewrite Hok in Hex. destruct Hex as (Hvs & Htr & _).
    split; [exact Hvs|].
    exists ([EProgress "cloning repo";
             EGitClone (pathRemote opts) (path opts);
             EGetVaultsFromRepo (pathJoin [wsRoot st; path opts]);
             EProgress "adding vault"] ++ body).
    split; [apply added_app; by rewrite Htr, <- !app_assoc|].
    rewrite Forall_forall in Hall.
    intros [Hin | Hin]%elem_of_app.
    + repeat (apply elem_of_cons in Hin as [Hin | Hin]; [done|]).
      by apply elem_of_nil in Hin.
    + by specialize (Hall _ Hin).
Qed.

(** With the file missing, the loop of [handleRemoteRepo] stops at the
    first vault, after registering it. *)
Lemma forEach_createAndAdd_missing (v : DVault) (vs : list DVault)
    (st : State) :
  wsType st = CODE → codeWorkspace st = None →
  forEach (v :: vs) createAndAdd st
  = (Throw noCodeWorkspaceError, setTrace (trace st ++ [ECreateVault v]) st).
Proof.
  intros Hty Hcw. simpl. unfold bind. rewrite createAndAdd_unfold.
  by rewrite addVaultToWorkspace_missing by (by destruct st).
Qed.

(** ... and [addWorkspaceToWorkspace] throws at the first vault of the
    workspace, before it has done anything. *)
Lemma addWorkspaceToWorkspace_missing (w : DWorkspace) (v : DVault)
    (vs : list DVault) (st : State) :
  wsType st = CODE → codeWorkspace st = None → wsVaults w = v :: vs →
  addWorkspaceToWorkspace w st = (Throw noCodeWorkspaceError, st).
Proof.
  intros Hty Hcw Hvs. unfold addWorkspaceToWorkspace.
  unfold bind at 1. unfold gets at 1. unfold bind at 1.
  rewrite Hvs. simpl. unfold bind at 1.
  by rewrite addVaultToWorkspace_missing.
Qed.

Lemma registerDiscovered_missing (vs : list DVault) (w : DWorkspace)
    (v : DVault) (vs' : list DVault) (st : State) :
  wsType st = CODE → codeWorkspace st = None → wsVaults w = v :: vs' →
  registerDiscovered vs (Some w) st
  = (Throw noCodeWorkspaceError, setTrace (trace st ++ [EAddWorkspace w]) st).
Proof.
  intros Hty Hcw Hvs. unfold registerDiscovered, bind, emit, modify.
  by rewrite (addWorkspaceToWorkspace_missing w v vs') by (by destruct st).
Qed.

(** X4.  In a code workspace whose [dendron.code-workspace] is missing,
    [execute] on a remote source throws and reloads nothing as soon as
    there is a vault to add to the workspace, and when the error is the
    [INVALID_STATE] error of [addVaultToWorkspace] it has cloned and
    discovered all the same and has thrown right after [createVault] of
    the first vault of the clone, or right after [addWorkspace] of a
    workspace found that has a vault, the workspace being read after the
    name was assigned: that registration is not undone and no later vault
    is touched. *)
Theorem execute_remote_missing_file (opts : CommandOpts) (st : State) :
  type opts = remote → wsType st = CODE → codeWorkspace st = None →
  let repoPath := pathJoin [wsRoot st; path opts] in
  let found := getVaultsFromRepo repoPath (wsRoot st) (pathRemote opts) in
  let store := renameFirst opts found in
  let opening := [EProgress "cloning repo";
                  EGitClone (pathRemote opts) (path opts);
                  EGetVaultsFromRepo repoPath;
                  EProgress "adding vault"] in
  (∀ v vs, readWorkspace store found = None →
           readVaults store found = v :: vs →
     (∃ e, fst (execute opts st) = Throw e)
     ∧ (EReloadWindow ∉ added st (snd (execute opts st)))
     ∧ (fst (execute opts st) = Throw noCodeWorkspaceError →
        added st (snd (execute opts st)) = opening ++ [ECreateVault v]))
  ∧ (∀ w v vs, readWorkspace store found = Some w → wsVaults w = v :: vs →
       (∃ e, fst (execute opts st) = Throw e)
       ∧ (EReloadWindow ∉ added st (snd (execute opts st)))
       ∧ (fst (execute opts st) = Throw noCodeWorkspaceError →
          added st (snd (execute opts st)) = opening ++ [EAddWorkspace w])).
Proof.
  intros Hsrc Hty Hcw repoPath found store opening.
  rewrite (execute_remote_unfold opts st Hsrc).
  fold repoPath. fold found. fold store. fold opening.
  set (st1 := setTrace (trace st ++ opening) st).
  assert (wsType st1 = CODE ∧ codeWorkspace st1 = None) as [Hty1 Hcw1]
    by (subst st1; by destruct st).
  split.
  - intros v vs Hnone Hvs. rewrite Hnone, Hvs.
    unfold registerDiscovered.
    rewrite forEach_createAndAdd_missing by done.
    assert (added st (setTrace (trace st1 ++ [ECreateVault v]) st1)
            = opening ++ [ECreateVault v]) as Hadded.
    { apply added_app. subst st1. destruct st. simpl.
      by rewrite <- app_assoc. }
    cbn [fst snd]. rewrite Hadded. split; [by eexists|]. split; [|done].
    intros Hin. subst opening.
    repeat (apply elem_of_cons in Hin as [Hin | Hin]; [done|]).
    by apply elem_of_nil in Hin.
  - intros w v vs Hsome Hvs. rewrite Hsome.
    rewrite (registerDiscovered_missing _ w v vs) by done.
    assert (added st (setTrace (trace st1 ++ [EAddWorkspace w]) st1)
            = opening ++ [EAddWorkspace w]) as Hadded.
    { apply added_app. subst st1. destruct st. simpl.
      by rewrite <- app_assoc. }
    cbn [fst snd]. rewrite Hadded. split; [by eexists|]. split; [|done].
    intros Hin. subst opening.
    repeat (apply elem_of_cons in Hin as [Hin | Hin]; [done|]).
    by apply elem_of_nil in Hin.
Qed.

Lemma keepsFolders_ret {A} (a : A) : keepsFolders (ret a).
Proof.
  intros st. simpl. destruct (codeWorkspace st) as [ws|]; [|done].
  by exists [], ws.
Qed.

Lemma keepsFolders_same {A} (m : M State A) :
  (∀ st, codeWorkspace (snd (m st)) = codeWorkspace st) → keepsFolders m.
Proof.
  intros Hm st. rewrite Hm. destruct (codeWorkspace st) as [ws|]; [|done].
  by exists [], ws.
Qed.

Lemma keepsFolders_emit (e : Event) : keepsFolders (emit e).
Proof. apply keepsFolders_same. by intros []. Qed.

Lemma keepsFolders_bind {A B} (m : M State A) (k : A → M State B) :
  keepsFolders m → (∀ a, keepsFolders (k a)) → keepsFolders (bind m k).
Proof.
  intros Hm Hk st. unfold bind. specialize (Hm st).
  destruct (m st) as [[a|e|] st1]; simpl in *; try done.
  specialize (Hk a st1).
  destruct (codeWorkspace st) as [ws|].
  - destruct Hm as (new & ws1 & Hcw1 & Hf1 & Hr1). rewrite Hcw1 in Hk.
    destruct Hk as (new' & ws2 & Hcw2 & Hf2 & Hr2).
    exists (new' ++ new), ws2. split; [done|]. split; [|congruence].
    by rewrite Hf2, Hf1, app_assoc.
  - by rewrite Hm in Hk.
Qed.

Lemma keepsFolders_forEach {A} (xs : list A) (body : A → M State unit) :
  (∀ x, keepsFolders (body x)) → keepsFolders (forEach xs body).
Proof.
  intros Hbody. induction xs as [|x xs IH]; simpl.
  - apply keepsFolders_ret.
  - by apply keepsFolders_bind.
Qed.

Lemma keepsFolders_addVaultToWorkspace (v : DVault) :
  keepsFolders (addVaultToWorkspace v).
Proof.
  intros st. destruct (wsType st) eqn:Hty.
  { rewrite addVaultToWorkspace_native by done. simpl.
    destruct (codeWorkspace st) as [ws|]; [by exists [], ws | done]. }
  destruct (codeWorkspace st) as [ws|] eqn:Hcw.
  - destruct (addVaultToWorkspace_code v st ws Hty Hcw) as (_ & Hres).
    destruct (findFolder v ws); destruct Hres as (Hcw1 & _).
    + by exists [], ws.
    + by eexists [_], _.
  - by rewrite addVaultToWorkspace_missing.
Qed.

Lemma keepsFolders_execute (opts : CommandOpts) : keepsFolders (execute opts).
Proof.
  unfold execute. apply keepsFolders_bind.
  - destruct (type opts).
    + apply keepsFolders_bind; [by apply keepsFolders_same | intros root].
      apply keepsFolders_bind.
      { destruct (isSelfContainedVault _); apply keepsFolders_emit. }
      intros _. apply keepsFolders_bind;
        [apply keepsFolders_addVaultToWorkspace | intros _].
      apply keepsFolders_ret.
    + apply keepsFolders_bind; [|intros r; apply keepsFolders_ret].
      unfold handleRemoteRepo.
      apply keepsFolders_bind; [apply keepsFolders_emit | intros _].
      apply keepsFolders_bind; [by apply keepsFolders_same | intros root].
      apply keepsFolders_bind; [apply keepsFolders_emit | intros _].
      apply keepsFolders_bind; [apply keepsFolders_emit | intros _].
      set (found := getVaultsFromRepo _ _ _).
      apply keepsFolders_bind; [apply keepsFolders_emit | intros _].
      apply keepsFolders_bind; [|intros _; apply keepsFolders_ret].
      destruct (readWorkspace (renameFirst opts found) found) as [w|]; simpl.
      * apply keepsFolders_bind; [apply keepsFolders_emit | intros _].
        unfold addWorkspaceToWorkspace.
        apply keepsFolders_bind; [by apply keepsFolders_same | intros root'].
        apply keepsFolders_bind;
          [apply keepsFolders_forEach, keepsFolders_addVaultToWorkspace
          | intros _].
        apply keepsFolders_bind; [apply keepsFolders_emit | intros _].
        apply keepsFolders_bind; [apply keepsFolders_emit | intros _].
        apply keepsFolders_emit.
      * apply keepsFolders_forEach. intros v.
        apply keepsFolders_bind; [apply keepsFolders_emit | intros _].
        apply keepsFolders_addVaultToWorkspace.
  - intros vs. unfold showInformationMessage.
    apply keepsFolders_bind; [apply keepsFolders_emit | intros _].
    apply keepsFolders_bind; [apply keepsFolders_emit | intros _].
    apply keepsFolders_ret.
Qed.

(** X5.  The command never creates a missing [dendron.code-workspace] and
    never removes or reorders folder entries: whatever the options, the
    answers of the user and the outcome (completed, thrown or
    abandoned), the folders that were in the file before [execute], and
    before the whole command, are still there afterwards, in their order,
    behind whatever entries were put in front of them, and the other
    settings of the file are untouched. *)
Theorem command_keeps_folders :
  (∀ opts, keepsFolders (execute opts)) ∧ keepsFolders run.
Proof.
  split; [apply keepsFolders_execute|].
  unfold run. apply keepsFolders_bind.
  - apply keepsFolders_same. intros st.
    destruct (gatherInputs_prompts st) as (ps & Hps).
    by destruct Hps as (_ & _ & _ & _ & _ & ->).
  - intros [o|]; [|apply keepsFolders_ret].
    apply keepsFolders_bind; [apply keepsFolders_execute | intros out].
    apply keepsFolders_ret.
Qed.

Lemma hasFolder_grows (v : DVault) (st st' : State)
    (ws ws' : WorkspaceSettings) :
  codeWorkspace st = Some ws → codeWorkspace st' = Some ws' →
  (∀ ent, ent ∈ folders ws → ent ∈ folders ws') →
  hasFolder v st → hasFolder v st'.
Proof.
  intros Hcw Hcw' Hsub (ws0 & ent & Hcw0 & Hin & Hent).
  rewrite Hcw in Hcw0. injection Hcw0 as <-.
  exists ws', ent. auto.
Qed.

(** In a code workspace with its file the loop of
    [addWorkspaceToWorkspace] completes, only patches, and leaves every
    vault with a folder entry. *)
Lemma forEach_addVault_code (vs : list DVault) (st : State)
    (ws : WorkspaceSettings) :
  wsType st = CODE → codeWorkspace st = Some ws →
  let st' := snd (forEach vs addVaultToWorkspace st) in
  fst (forEach vs addVaultToWorkspace st) = Ok tt
  ∧ wsType st' = CODE ∧ wsRoot st' = wsRoot st
  ∧ (∃ body, trace st' = trace st ++ body
             ∧ Forall (fun e => isPatch e = true) body)
  ∧ (∃ ws', codeWorkspace st' = Some ws'
            ∧ ∀ ent, ent ∈ folders ws → ent ∈ folders ws')
  ∧ ∀ v, v ∈ vs → hasFolder v st'.
Proof.
  revert st ws. induction vs as [|v vs IH]; intros st ws Hty Hcw; simpl.
  - repeat split; try done.
    + exists []. by rewrite app_nil_r.
    + by exists ws.
    + intros v Hv. by apply elem_of_nil in Hv.
  - unfold bind.
    destruct (addVaultToWorkspace_patches v st ws Hty Hcw)
      as (Hok & Hfolder & (ws1 & Hcw1 & Hsub1) & _).
    destruct (addVaultToWorkspace_outcome v st) as (b1 & Htr1 & Hb1 & _).
    destruct (registers_addVaultToWorkspace v st)
      as (b & (_ & _ & Hty1 & Hroot1 & _) & _).
    destruct (addVaultToWorkspace v st) as [r st1]. simpl in *. subst r.
    rewrite Hty in Hty1.
    destruct (IH st1 ws1 Hty1 Hcw1)
      as (Hok2 & Hty2 & Hroot2 & (b2 & Htr2 & Hb2) & (ws2 & Hcw2 & Hsub2)
          & Hfolders).
    repeat split; try done.
    + congruence.
    + exists (b1 ++ b2). split; [by rewrite Htr2, Htr1, app_assoc|].
      by apply Forall_app.
    + exists ws2. split; [done|]. auto.
    + intros v' [->|Hv']%elem_of_cons; [|by apply Hfolders].
      by apply (hasFolder_grows v st1 _ ws1 ws2).
Qed.

(** In a code workspace with its file [addWorkspaceToWorkspace]
    completes: it patches for the vaults of the workspace, then records
    the two [.gitignore] entries around the workspace directory. *)
Lemma addWorkspaceToWorkspace_code (w : DWorkspace) (st : State)
    (ws : WorkspaceSettings) :
  wsType st = CODE → codeWorkspace st = Some ws →
  let workspaceDir := pathJoin [wsRoot st; wsName w] in
  ∃ body st2,
    addWorkspaceToWorkspace w st
    = (Ok tt,
       setTrace (trace st2
                 ++ [EAddToGitignore (wsName w) (wsRoot st) true;
                     EEnsureDir workspaceDir;
                     EAddToGitignore ".dendron.cache.*" workspaceDir false])
         st2)
    ∧ trace st2 = trace st ++ body
    ∧ Forall (fun e => isPatch e = true) body
    ∧ ∀ v, v ∈ wsVaults w → hasFolder v st2.
Proof.
  intros Hty Hcw workspaceDir.
  destruct (forEach_addVault_code (wsVaults w) st ws Hty Hcw)
    as (Hok & Hty2 & Hroot2 & (body & Htr & Hbody) & _ & Hfolders).
  destruct (forEach (wsVaults w) addVaultToWorkspace st) as [r st2] eqn:Hfe.
  simpl in *. subst r.
  exists body, st2. split; [|done].
  unfold addWorkspaceToWorkspace, bind, gets. rewrite Hfe.
  unfold addToGitignore, emit, modify. simpl.
  fold workspaceDir. by rewrite <- !app_assoc.
Qed.

(** X6.  When the clone holds a workspace, in a code workspace with its
    file, and [execute] returns an output: [execute] has registered the
    workspace once with [addWorkspace], the workspace being read after
    the name was assigned, so that a vault object it shares with the
    [vaults] array carries the new name, and has called [createVault] for
    no vault; it has then only patched, ended [addWorkspaceToWorkspace]
    with the two [.gitignore] entries of the workspace, shown the message
    and reloaded.  Afterwards every vault of the workspace has an entry in
    the folders list. *)
Theorem execute_remote_workspace (opts : CommandOpts) (st : State)
    (ws : WorkspaceSettings) (w : DWorkspace) (out : CommandOutput) :
  type opts = remote → wsType st = CODE → codeWorkspace st = Some ws →
  let repoPath := pathJoin [wsRoot st; path opts] in
  let found := getVaultsFromRepo repoPath (wsRoot st) (pathRemote opts) in
  let store := renameFirst opts found in
  let workspaceDir := pathJoin [wsRoot st; wsName w] in
  readWorkspace store found = Some w →
  fst (execute opts st) = Ok out →
  vaults out = readVaults store found
  ∧ (∀ name refs, workspaceRefs found = Some (name, refs) →
       wsName w = name ∧ wsVaults w = map store refs)
  ∧ (∃ body,
       Forall (fun e => isPatch e = true) body
       ∧ added st (snd (execute opts st))
         = [EProgress "cloning repo";
            EGitClone (pathRemote opts) (path opts);
            EGetVaultsFromRepo repoPath;
            EProgress "adding vault";
            EAddWorkspace w]
           ++ body
           ++ [EAddToGitignore (wsName w) (wsRoot st) true;
               EEnsureDir workspaceDir;
               EAddToGitignore ".dendron.cache.*" workspaceDir false;
               EShowInformationMessage "finished adding vault";
               EReloadWindow])
  ∧ ∀ v, v ∈ wsVaults w → hasFolder v (snd (execute opts st)).
Proof.
  intros Hsrc Hty Hcw repoPath found store workspaceDir Hw.
  rewrite (execute_remote_unfold opts st Hsrc).
  fold repoPath. fold found. fold store. rewrite Hw.
  set (vs := readVaults store found).
  set (st0 := setTrace _ st).
  set (st1 := setTrace (trace st0 ++ [EAddWorkspace w]) st0).
  change (registerDiscovered vs (Some w) st0)
    with (addWorkspaceToWorkspace w st1).
  assert (wsType st1 = CODE ∧ codeWorkspace st1 = Some ws
          ∧ wsRoot st1 = wsRoot st) as (Hty1 & Hcw1 & Hroot1)
    by (subst st1 st0; by destruct st).
  destruct (addWorkspaceToWorkspace_code w st1 ws Hty1 Hcw1)
    as (body & st2 & -> & Htr & Hbody & Hfolders).
  rewrite Hroot1. fold workspaceDir. simpl.
  intros [= <-]. split; [done|]. split; [|split].
  - intros name refs Hrefs. unfold readWorkspace in Hw.
    rewrite Hrefs in Hw. simpl in Hw. by injection Hw as <-.
  - exists body. split; [done|]. apply added_app. simpl. rewrite Htr.
    subst st1 st0. destruct st. simpl. by rewrite <- !app_assoc.
  - intros v Hv. by apply hasFolder_setTrace, hasFolder_setTrace, Hfolders.
Qed.

(** X7.  The name override of [handleRemoteRepo] changes nothing but a
    name: the number of vaults, their paths and their self contained flags
    are as discovered, every vault is a discovered one or carries the name
    supplied, and applying the override again changes nothing more. *)
Theorem overrideName_frame (opts : CommandOpts) (vs : list DVault) :
  length (overrideName opts vs) = length vs
  ∧ map fsPath (overrideName opts vs) = map fsPath vs
  ∧ map selfContained (overrideName opts vs) = map selfContained vs
  ∧ (∀ v, v ∈ overrideName opts vs → v ∈ vs ∨ name v = optName opts)
  ∧ overrideName opts (overrideName opts vs) = overrideName opts vs.
Proof.
  unfold overrideName.
  destruct vs as [|v [|v' vs]]; simpl; destruct (truthy (optName opts));
    simpl; repeat split; auto.
  intros v0 [->|Hin]%elem_of_cons; [by right | by apply elem_of_nil in Hin].
Qed.

Ltac unfold_wizard :=
  unfold gatherInputs, showQuickPick, gatherVaultStandard,
    gatherVaultSelfContained, showInputBox, openInputBox, awaitInputBox,
    showInformationMessage, emit, modify, bind, gets, ret, throw, pending;
  simpl.

(** The source type pick answered with [remote], standard flow: what
    [gatherInputs] returns is what the accepts of the preset pick settle
    the promise with. *)
Lemma gatherInputs_remote_standard (st : State) :
  quickPick st = Some remote →
  default false (enableSelfContainedVaults (config st)) = false →
  gatherInputs st
  = match acceptLoop remote (accepts st)
            (setTrace (trace st
                       ++ [EShowQuickPick ["local"; "remote"];
                           EQuickPickShow generateRemoteEntries]) st) with
    | (Ok (Some r), st1) => (Ok r, st1)
    | (Ok None, st1) => (Pending, st1)
    | (Throw e, st1) => (Throw e, st1)
    | (Pending, st1) => (Pending, st1)
    end.
Proof.
  intros Hqp Hsc. destruct st. simpl in *. subst. unfold_wizard.
  rewrite Hsc. simpl. rewrite <- !app_assoc. simpl.
  by destruct (acceptLoop _ _ _) as [[[r|]|e|] st1].
Qed.

(** An accept of the custom entry with nothing typed shows the message
    and leaves the pick open for the next accept. *)
Lemma acceptLoop_empty_endpoints
    (empties events : list (string * SourceQuickPickEntry)) (st : State) :
  Forall (fun a => String.eqb (label (snd a)) "custom"
                   && isInputEmpty (Some (fst a)) = true) empties →
  ∃ st1,
    acceptLoop remote (empties ++ events) st = acceptLoop remote events st1
    ∧ trace st1
      = trace st
        ++ replicate (length empties)
             (EShowInformationMessage "please enter an endpoint")
    ∧ inputBox st1 = inputBox st.
Proof.
  revert st. induction empties as [|[value selected] empties IH];
    intros st Hall.
  - exists st. simpl. by rewrite app_nil_r.
  - apply Forall_cons in Hall as [Ha Hall]. cbn [fst snd] in Ha.
    destruct (IH (setTrace
                    (trace st
                     ++ [EShowInformationMessage "please enter an endpoint"])
                    (setAccepts (empties ++ events) st)) Hall)
      as (st1 & Hloop & Htr & Hib).
    exists st1. split; [|split].
    + rewrite <- Hloop. cbn [acceptLoop app].
      unfold bind at 1, modify at 1.
      unfold bind at 1, onDidAccept. rewrite Ha.
      unfold showInformationMessage, bind at 1, emit, modify, ret.
      by destruct st.
    + rewrite Htr. destruct st. simpl. by rewrite <- app_assoc.
    + rewrite Hib. by destruct st.
Qed.

(** X8.  Standard flow, remote source.  Every accept of the custom entry
    with nothing typed is answered with one message and the pick stays
    open.  The first other accept settles it: when the user then answers
    the path prompt, the options carry the path and the name as answered
    and, as remote, the source of the preset or, for the custom entry,
    the endpoint typed; both prompts propose the label of the preset, or
    the repository name of the typed endpoint, and the pick is hidden
    after them.  Later accepts are not looked at.  When nothing but empty
    custom accepts come, gathering does not return. *)
Theorem gather_remote_options (st : State)
    (empties : list (string * SourceQuickPickEntry)) :
  quickPick st = Some remote →
  default false (enableSelfContainedVaults (config st)) = false →
  Forall (fun a => String.eqb (label (snd a)) "custom"
                   && isInputEmpty (Some (fst a)) = true) empties →
  let messages := replicate (length empties)
                    (EShowInformationMessage "please enter an endpoint") in
  (∀ value selected rest out sourceName answers,
     accepts st = empties ++ (value, selected) :: rest →
     String.eqb (label selected) "custom" && isInputEmpty (Some value)
     = false →
     inputBox st = Some out :: sourceName :: answers →
     isInputEmpty (Some out) = false →
     let custom := String.eqb (label selected) "custom" in
     let endpoint := if custom then value else src selected in
     let proposal := if custom then getRepoNameFromURL endpoint
                     else label selected in
     fst (gatherInputs st)
     = Ok (Some {| type := remote; path := out; pathRemote := Some endpoint;
                   optName := sourceName; isSelfContained := None |})
     ∧ added st (snd (gatherInputs st))
       = [EShowQuickPick ["local"; "remote"];
          EQuickPickShow generateRemoteEntries]
         ++ messages
         ++ [EShowInputBox
               "Path to your new vault (relative to your workspace root)"
               (Some proposal);
             EShowInputBox "Name of new vault (optional, press enter to skip)"
               (Some proposal);
             EQuickPickHide]
     ∧ inputBox (snd (gatherInputs st)) = answers
     ∧ accepts (snd (gatherInputs st)) = rest)
  ∧ (accepts st = empties →
     fst (gatherInputs st) = Pending
     ∧ added st (snd (gatherInputs st))
       = [EShowQuickPick ["local"; "remote"];
          EQuickPickShow generateRemoteEntries] ++ messages
     ∧ inputBox (snd (gatherInputs st)) = inputBox st).
Proof.
  intros Hqp Hsc Hall messages.
  rewrite (gatherInputs_remote_standard st Hqp Hsc).
  set (st0 := setTrace _ st).
  split.
  - intros value selected rest out sourceName answers Hacc Hsel Hib Hout
      custom endpoint proposal.
    rewrite Hacc.
    destruct (acceptLoop_empty_endpoints empties ((value, selected) :: rest)
                st0 Hall) as (st1 & -> & Htr & Hib1).
    assert (inputBox st1 = Some out :: sourceName :: answers) as Hib2
      by (rewrite Hib1; subst st0; by destruct st).
    cbn [acceptLoop]. unfold bind at 1, modify at 1.
    unfold bind at 1, onDidAccept.
    rewrite Hsel. fold custom. fold endpoint. fold proposal.
    unfold showInputBox, openInputBox, awaitInputBox, nameAnswered, bind,
      emit, modify, gets, ret. simpl.
    rewrite Hib2. simpl. simpl in Hout. rewrite Hout. simpl.
    repeat split. apply added_app. simpl. rewrite Htr.
    subst st0. destruct st. simpl. by rewrite <- !app_assoc.
  - intros Hacc. rewrite Hacc.
    destruct (acceptLoop_empty_endpoints empties [] st0 Hall)
      as (st1 & Hloop & Htr & Hib1).
    rewrite app_nil_r in Hloop. rewrite Hloop. simpl.
    split; [done|]. split.
    + apply added_app. rewrite Htr. subst st0. destruct st. simpl.
      by rewrite <- !app_assoc.
    + rewrite Hib1. subst st0. by destruct st.
Qed.

(** X9.  Standard flow, an empty or dismissed path prompt.  On a local
    source gathering returns [undefined] at once.  On a remote source the
    promise is settled with [undefined] but the callback goes on (line 94
    has no [return]) and opens the name prompt all the same; gathering
    returns [undefined] with that prompt open, the pick still shown and no
    second answer consumed.  The callback is left waiting: once the name
    prompt is answered it takes that answer and hides the pick, and its
    [resolve] changes nothing, the promise staying settled with
    [undefined]. *)
Theorem dismissed_path_prompt (st : State) :
  default false (enableSelfContainedVaults (config st)) = false →
  isInputEmpty (mjoin (head (inputBox st))) = true →
  (quickPick st = Some local →
     fst (gatherInputs st) = Ok None
     ∧ added st (snd (gatherInputs st))
       = [EShowQuickPick ["local"; "remote"];
          EShowInputBox
            "Path to your new vault (relative to your workspace root)" None]
     ∧ inputBox (snd (gatherInputs st)) = tail (inputBox st))
  ∧ (∀ value selected rest,
       quickPick st = Some remote →
       accepts st = (value, selected) :: rest →
       String.eqb (label selected) "custom" && isInputEmpty (Some value)
       = false →
       let custom := String.eqb (label selected) "custom" in
       let endpoint := if custom then value else src selected in
       let proposal := if custom then getRepoNameFromURL endpoint
                       else label selected in
       let st1 := snd (gatherInputs st) in
       let waiting := nameAnswered remote
                        (default "" (mjoin (head (inputBox st)))) endpoint
                        (Some None) in
       fst (gatherInputs st) = Ok None
       ∧ added st st1
         = [EShowQuickPick ["local"; "remote"];
            EQuickPickShow generateRemoteEntries;
            EShowInputBox
              "Path to your new vault (relative to your workspace root)"
              (Some proposal);
            EShowInputBox "Name of new vault (optional, press enter to skip)"
              (Some proposal)]
       ∧ inputBox st1 = tail (inputBox st)
       ∧ accepts st1 = rest
       ∧ fst (waiting st1) = Ok (Some None)
       ∧ added st1 (snd (waiting st1)) = [EQuickPickHide]
       ∧ inputBox (snd (waiting st1)) = tail (tail (inputBox st))).
Proof.
  intros Hsc Hin. split.
  - intros Hqp. destruct st. simpl in *. subst. unfold_wizard.
    rewrite Hsc. simpl. rewrite Hin. simpl.
    repeat split. unfold added. simpl.
    rewrite <- !app_assoc. by rewrite drop_app_length.
  - intros value selected rest Hqp Hacc Hsel custom endpoint proposal st1
      waiting.
    subst custom endpoint proposal st1 waiting.
    destruct st. simpl in *. subst. unfold_wizard.
    rewrite Hsc. simpl. unfold onDidAccept. simpl. rewrite Hsel.
    unfold_wizard. rewrite Hin. simpl.
    unfold nameAnswered, awaitInputBox, resolve, bind, gets, modify, emit,
      ret. simpl.
    repeat split.
    + unfold added. simpl.
      rewrite <- !app_assoc. by rewrite drop_app_length.
    + unfold added. simpl. by rewrite drop_app_length.
Qed.

(** The command after a gathering that returned options: the state of
    [run] is the state of [execute] on these options. *)
Lemma run_executes (st st1 : State) (o : CommandOpts) :
  gatherInputs st = (Ok (Some o), st1) →
  snd (run st) = snd (execute o st1).
Proof.
  intros Hg. unfold run, bind at 1. rewrite Hg. unfold bind, ret.
  by destruct (execute o st1) as [[out|e|] st2].
Qed.

(** X10.  Self contained flow: the options gathered carry the name
    answered, the self contained flag, a path under the dependencies
    folder and never a remote.  So on a remote source the URL answered
    only names the folder: the command then calls [git.clone] with an
    undefined remote and that folder as its target. *)
Theorem gather_self_contained (st : State) (ty : VaultRemoteSource)
    (vaultName : string) :
  quickPick st = Some ty →
  default false (enableSelfContainedVaults (config st)) = true →
  mjoin (head (inputBox st)) = Some vaultName →
  isInputEmpty (Some vaultName) = false →
  vaultNameTaken (config st) vaultName = false →
  (ty = local →
     fst (gatherInputs st)
     = Ok (Some {| type := local;
                   path := pathJoin
                             [DEPENDENCIES; LOCAL_DEPENDENCY; vaultName];
                   pathRemote := None;
                   optName := Some vaultName;
                   isSelfContained := Some true |})
     ∧ added st (snd (gatherInputs st))
       = [EShowQuickPick ["local"; "remote"];
          EShowInputBox "Name for the new vault" None])
  ∧ (∀ url, ty = remote →
       mjoin (head (tail (inputBox st))) = Some url →
       isInputEmpty (Some url) = false →
       let target := pathJoin
                       [DEPENDENCIES;
                        remoteUrlToDependencyPath vaultName url] in
       fst (gatherInputs st)
       = Ok (Some {| type := remote;
                     path := target;
                     pathRemote := None;
                     optName := Some vaultName;
                     isSelfContained := Some true |})
       ∧ added st (snd (gatherInputs st))
         = [EShowQuickPick ["local"; "remote"];
            EShowInputBox "Name for the new vault" None;
            EShowInputBox "Enter the URL for the git remote" None]
       ∧ EGitClone None target ∈ added st (snd (run st))).
Proof.
  intros Hqp Hsc Hname Hne Htaken. split.
  - intros ->. destruct st. simpl in *. subst. unfold_wizard.
    rewrite Hsc. simpl. rewrite Hname. simpl. rewrite Hne. simpl.
    rewrite Htaken. simpl.
    split; [done|]. unfold added. simpl.
    rewrite <- !app_assoc. by rewrite drop_app_length.
  - intros url -> Hurl Hue target.
    set (o := {| type := remote; path := target; pathRemote := None;
                 optName := Some vaultName; isSelfContained := Some true |}).
    assert (∃ st1, gatherInputs st = (Ok (Some o), st1)
                   ∧ trace st1
                     = trace st
                       ++ [EShowQuickPick ["local"; "remote"];
                           EShowInputBox "Name for the new vault" None;
                           EShowInputBox "Enter the URL for the git remote"
                             None]) as (st1 & Hg & Htr).
    { subst o target. destruct st. simpl in *. subst. unfold_wizard.
      rewrite Hsc. simpl. rewrite Hname. simpl. rewrite Hne. simpl.
      rewrite Htaken. simpl. rewrite Hurl. simpl. rewrite Hue. simpl.
      eexists. split; [reflexivity|]. simpl. by rewrite <- !app_assoc. }
    rewrite (run_executes st st1 o Hg). rewrite Hg. simpl.
    split; [done|]. split; [by apply added_app|].
    destruct (execute_remote o st1 eq_refl) as (body & _ & Hex).
    simpl in Hex.
    unfold added.
    destruct (fst (execute o st1)) as [out|e|]; [| |done].
    + destruct Hex as (_ & -> & _). rewrite Htr, <- !app_assoc.
      rewrite drop_app_length. set_solver.
    + destruct Hex as (_ & ->). rewrite Htr, <- !app_assoc.
      rewrite drop_app_length. set_solver.
Qed.

(** The command on a local source, after a gathering that returned
    options and left the workspace as it was. *)
Lemma run_local_after (st st1 : State) (o : CommandOpts)
    (prompts : list Event) :
  gatherInputs st = (Ok (Some o), st1) →
  type o = local →
  trace st1 = trace st ++ prompts →
  wsRoot st1 = wsRoot st →
  wsType st1 = NATIVE ∨ is_Some (codeWorkspace st1) →
  let v := {| fsPath := normVaultPath (path o) (wsRoot st);
              name := optName o;
              selfContained := isSelfContained o |} in
  fst (run st) = Ok (Some {| vaults := [v] |})
  ∧ ∃ body,
      Forall (fun e => isPatch e = true) body
      ∧ added st (snd (run st))
        = prompts
          ++ [if isSelfContainedVault v
              then ECreateSelfContainedVault v else ECreateVault v]
          ++ body
          ++ [EShowInformationMessage "finished adding vault";
              EReloadWindow].
Proof.
  intros Hg Hsrc Htr Hroot Hgood v.
  destruct (execute_local_traced o st1 Hsrc) as (Hok & _).
  destruct (Hok Hgood) as (Hres & body & Hbody & Htr2).
  rewrite Hroot in Hres, Htr2. fold v in Hres, Htr2.
  split.
  - unfold run, bind at 1. rewrite Hg. unfold bind, ret.
    by destruct (execute o st1) as [[out|e|] st2]; simpl in *; simplify_eq.
  - exists body. split; [exact Hbody|].
    rewrite (run_executes st st1 o Hg).
    apply added_app. rewrite Htr2, Htr. by rewrite <- !app_assoc.
Qed.

(** X11.  The whole command on a local source, in a native workspace or a
    code workspace with its file.  Standard flow: the vault returned has
    the path answered, normalised against the workspace root, and the name
    answered, or none when the name prompt was dismissed.  Self contained
    flow: the vault is named as answered, lies under the local
    dependencies folder and carries the self contained flag.  After the
    prompts the vault is registered, the files are patched, the message is
    shown and the window reloaded. *)
Theorem run_local_vault (st : State) :
  quickPick st = Some local →
  wsType st = NATIVE ∨ is_Some (codeWorkspace st) →
  let finish := [EShowInformationMessage "finished adding vault";
                 EReloadWindow] in
  (∀ out sourceName answers,
     default false (enableSelfContainedVaults (config st)) = false →
     inputBox st = Some out :: sourceName :: answers →
     isInputEmpty (Some out) = false →
     let v := {| fsPath := normVaultPath out (wsRoot st);
                 name := sourceName;
                 selfContained := None |} in
     fst (run st) = Ok (Some {| vaults := [v] |})
     ∧ ∃ body,
         Forall (fun e => isPatch e = true) body
         ∧ added st (snd (run st))
           = [EShowQuickPick ["local"; "remote"];
              EShowInputBox
                "Path to your new vault (relative to your workspace root)"
                None;
              EShowInputBox
                "Name of new vault (optional, press enter to skip)" None]
             ++ [if isSelfContainedVault v
                 then ECreateSelfContainedVault v else ECreateVault v]
             ++ body ++ finish)
  ∧ (∀ vaultName,
       default false (enableSelfContainedVaults (config st)) = true →
       mjoin (head (inputBox st)) = Some vaultName →
       isInputEmpty (Some vaultName) = false →
       vaultNameTaken (config st) vaultName = false →
       let v := {| fsPath := normVaultPath
                               (pathJoin [DEPENDENCIES; LOCAL_DEPENDENCY;
                                          vaultName]) (wsRoot st);
                   name := Some vaultName;
                   selfContained := Some true |} in
       fst (run st) = Ok (Some {| vaults := [v] |})
       ∧ ∃ body,
           Forall (fun e => isPatch e = true) body
           ∧ added st (snd (run st))
             = [EShowQuickPick ["local"; "remote"];
                EShowInputBox "Name for the new vault" None]
               ++ [if isSelfContainedVault v
                   then ECreateSelfContainedVault v else ECreateVault v]
               ++ body ++ finish).
Proof.
  intros Hqp Hgood finish. split.
  - intros out sourceName answers Hsc Hib Hout v.
    set (o := {| type := local; path := out; pathRemote := None;
                 optName := sourceName; isSelfContained := None |}).
    assert (∃ st1, gatherInputs st = (Ok (Some o), st1)
                   ∧ trace st1
                     = trace st
                       ++ [EShowQuickPick ["local"; "remote"];
                           EShowInputBox
                             "Path to your new vault (relative to your workspace root)"
                             None;
                           EShowInputBox
                             "Name of new vault (optional, press enter to skip)"
                             None]
                   ∧ wsRoot st1 = wsRoot st ∧ wsType st1 = wsType st
                   ∧ codeWorkspace st1 = codeWorkspace st)
      as (st1 & Hg & Htr & Hroot & Hty & Hcw).
    { subst o. destruct st. simpl in *. subst. unfold_wizard.
      rewrite Hsc. simpl. simpl in Hout. rewrite Hout. simpl.
      eexists. split; [reflexivity|]. simpl. by rewrite <- !app_assoc. }
    rewrite <- Hty, <- Hcw in Hgood.
    exact (run_local_after st st1 o _ Hg eq_refl Htr Hroot Hgood).
  - intros vaultName Hsc Hname Hne Htaken v.
    set (o := {| type := local;
                 path := pathJoin [DEPENDENCIES; LOCAL_DEPENDENCY; vaultName];
                 pathRemote := None; optName := Some vaultName;
                 isSelfContained := Some true |}).
    assert (∃ st1, gatherInputs st = (Ok (Some o), st1)
                   ∧ trace st1
                     = trace st
                       ++ [EShowQuickPick ["local"; "remote"];
                           EShowInputBox "Name for the new vault" None]
                   ∧ wsRoot st1 = wsRoot st ∧ wsType st1 = wsType st
                   ∧ codeWorkspace st1 = codeWorkspace st)
      as (st1 & Hg & Htr & Hroot & Hty & Hcw).
    { subst o. destruct st. simpl in *. subst. unfold_wizard.
      rewrite Hsc. simpl. rewrite Hname. simpl. rewrite Hne. simpl.
      rewrite Htaken. simpl.
      eexists. split; [reflexivity|]. simpl. by rewrite <- !app_assoc. }
    rewrite <- Hty, <- Hcw in Hgood.
    exact (run_local_after st st1 o _ Hg eq_refl Htr Hroot Hgood).
Qed.

(** [execute] never hangs, and what it adds to the trace holds the
    reload exactly when it completes. *)
Lemma execute_reloads (opts : CommandOpts) (st : State) :
  ∃ evs, trace (snd (execute opts st)) = trace st ++ evs
         ∧ (EReloadWindow ∈ evs ↔ ∃ out, fst (execute opts st) = Ok out)
         ∧ fst (execute opts st) ≠ Pending.
Proof.
  destruct (type opts) eqn:Hsrc.
  - destruct (execute_local_traced opts st Hsrc) as (Hok & Hthrow).
    assert (wsType st = NATIVE ∨ is_Some (codeWorkspace st)
            ∨ (wsType st = CODE ∧ codeWorkspace st = None))
      as [Hnat | [Hcw | [Hcode Hnone]]].
    { destruct (wsType st); [by left | right].
      destruct (codeWorkspace st); [left; by eexists | by right]. }
    + destruct (Hok (or_introl Hnat)) as (Hres & body & _ & Htr).
      eexists. split; [exact Htr|]. rewrite Hres.
      split; [|done]. split; [by eexists | intros _].
      apply elem_of_cons; right. apply elem_of_app; right.
      apply elem_of_cons; right. by apply list_elem_of_singleton.
    + destruct (Hok (or_intror Hcw)) as (Hres & body & _ & Htr).
      eexists. split; [exact Htr|]. rewrite Hres.
      split; [|done]. split; [by eexists | intros _].
      apply elem_of_cons; right. apply elem_of_app; right.
      apply elem_of_cons; right. by apply list_elem_of_singleton.
    + destruct (Hthrow Hcode Hnone) as (Hres & Htr).
      eexists. split; [exact Htr|]. rewrite Hres.
      split; [|done]. split; [|by intros [out Hout]].
      intros Hin%list_elem_of_singleton.
      by destruct (isSelfContainedVault _).
  - destruct (execute_remote opts st Hsrc) as (body & Hbody & Hex).
    rewrite Forall_forall in Hbody.
    destruct (fst (execute opts st)) as [out|e|]; [| |done].
    + destruct Hex as (_ & Htr & _).
      eexists. split; [exact Htr|].
      split; [|done]. split; [by eexists | intros _].
      apply elem_of_app; right. apply elem_of_app; right.
      apply elem_of_cons; right. by apply list_elem_of_singleton.
    + destruct Hex as (_ & Htr).
      eexists. split; [exact Htr|].
      split; [|done]. split; [|by intros [out Hout]].
      intros [Hin | Hin]%elem_of_app.
      * repeat (apply elem_of_cons in Hin as [Hin | Hin]; [done|]).
        by apply elem_of_nil in Hin.
      * by specialize (Hbody _ Hin).
Qed.

(** X12.  The window is reloaded exactly when the command completes with
    an output: whatever the workspace and the answers of the user, the
    events the command adds hold [workbench.action.reloadWindow] if and
    only if [run] returns the vaults added.  A command that is abandoned
    at a prompt, refuses a name or throws on a missing workspace file
    reloads nothing. *)
Theorem reload_iff_completed (st : State) :
  EReloadWindow ∈ added st (snd (run st))
  ↔ ∃ out, fst (run st) = Ok (Some out).
Proof.
  destruct (gatherInputs_prompts st) as (ps & Htr & Hall & _).
  rewrite Forall_forall in Hall.
  assert (EReloadWindow ∉ EShowQuickPick ["local"; "remote"] :: ps)
    as Hprompts by (intros Hin; by specialize (Hall _ Hin)).
  unfold run, bind.
  destruct (gatherInputs st) as [[[o|]|e|] st1]; simpl in *.
  - destruct (execute_reloads o st1) as (evs & Htr2 & Hiff & Hnp).
    destruct (execute o st1) as [r st2]. simpl in *.
    rewrite Htr, <- app_assoc in Htr2.
    assert (added st (snd (match r with
                           | Ok a => ret (Some a) st2
                           | Throw e => (Throw e, st2)
                           | Pending => (Pending, st2)
                           end))
            = (EShowQuickPick ["local"; "remote"] :: ps) ++ evs) as ->
      by (apply added_app; by destruct r).
    rewrite elem_of_app, Hiff.
    destruct r as [out|e|]; simpl.
    + split; [by eexists | intros _; right; by eexists].
    + split; [intros [?|[out ?]]; done | by intros [out ?]].
    + done.
  - rewrite (added_app _ _ _ Htr). split; [done | by intros [out ?]].
  - rewrite (added_app _ _ _ Htr). split; [done | by intros [out ?]].
  - rewrite (added_app _ _ _ Htr). split; [done | by intros [out ?]].
Qed.

End Facts.

(** A local vault at [vault2]: added in the example workspace, and refused
    after its registration where the workspace file is missing. *)
Lemma execute_local_vault_witness :
  fst (@execute Examples.vaultCollaborators
         (Examples.localOpts "vault2" None) Examples.vaultHostLocal)
  = Ok {| vaults := [Examples.vaultAt "vault2"] |}
  ∧ fst (@execute Examples.vaultCollaborators
           (Examples.localOpts "vault2" None) Examples.vaultHostNoFile)
    = Throw noCodeWorkspaceError
  ∧ added Examples.vaultHostNoFile
      (snd (@execute Examples.vaultCollaborators
              (Examples.localOpts "vault2" None) Examples.vaultHostNoFile))
    = [ECreateVault (Examples.vaultAt "vault2")].
Proof.
  split.
  - destruct (@execute_local_vault Examples.vaultCollaborators
                (Examples.localOpts "vault2" None) Examples.vaultHostLocal
                eq_refl) as (Hok & _).
    destruct (Hok (or_intror (ex_intro _ Examples.vaultSettings eq_refl)))
      as (Hres & _).
    exact Hres.
  - destruct (@execute_local_vault Examples.vaultCollaborators
                (Examples.localOpts "vault2" None) Examples.vaultHostNoFile
                eq_refl) as (_ & Hthrow).
    exact (Hthrow eq_refl eq_refl).
Defined.

(** The preset cloned into a native workspace. *)
Lemma execute_native_witness :
  let out := @execute Examples.vaultCollaborators
               (Examples.remoteOpts "site" (Some "docs"))
               MoreExamples.nativeHost in
  let docs := withName (Some "docs") (Examples.vaultAt "site") in
  codeWorkspace (snd out) = None
  ∧ fst out = Ok {| vaults := [docs] |}
  ∧ vaults {| vaults := [docs] |} = [docs]
  ∧ added MoreExamples.nativeHost (snd out)
    = [EProgress "cloning repo";
       EGitClone (Some "https://example.org/dendron-site.git") "site";
       EGetVaultsFromRepo "/ws/site";
       EProgress "adding vault";
       ECreateVault docs;
       EShowInformationMessage "finished adding vault";
       EReloadWindow].
Proof.
  destruct (@execute_native Examples.vaultCollaborators
              (Examples.remoteOpts "site" (Some "docs"))
              MoreExamples.nativeHost eq_refl) as (Hcw & _ & Hout).
  split; [exact Hcw|]. split; [reflexivity|].
  exact (Hout _ eq_refl).
Defined.

(** The preset cloned into the example workspace. *)
Lemma execute_output_witness :
  let out := @execute Examples.vaultCollaborators
               (Examples.remoteOpts "site" (Some "docs"))
               Examples.vaultHost in
  let docs := withName (Some "docs") (Examples.vaultAt "site") in
  fst out = Ok {| vaults := [docs] |}
  ∧ vaults {| vaults := [docs] |} = [docs]
  ∧ ∃ evs, added Examples.vaultHost (snd out)
           = evs ++ [EShowInformationMessage "finished adding vault";
                     EReloadWindow]
           ∧ EReloadWindow ∉ evs.
Proof.
  split; [reflexivity|].
  destruct (@execute_output Examples.vaultCollaborators
              (Examples.remoteOpts "site" (Some "docs")) Examples.vaultHost)
    as (_ & Hout).
  exact (Hout _ eq_refl).
Defined.

(** The preset, and a clone that holds the workspace [solo], cloned where
    the workspace file is missing: the workspace is recorded with its
    vault under the name supplied. *)
Lemma execute_remote_missing_file_witness :
  let out := @execute Examples.vaultCollaborators
               (Examples.remoteOpts "site" None) Examples.vaultHostNoFile in
  let out' := @execute Examples.vaultCollaborators
                (Examples.remoteOpts "solo" (Some "docs"))
                Examples.vaultHostNoFile in
  let docs := withName (Some "docs") (Examples.vaultAt "solo/notes") in
  (fst out = Throw noCodeWorkspaceError
   ∧ (EReloadWindow ∉ added Examples.vaultHostNoFile (snd out))
   ∧ added Examples.vaultHostNoFile (snd out)
     = [EProgress "cloning repo";
        EGitClone (Some "https://example.org/dendron-site.git") "site";
        EGetVaultsFromRepo "/ws/site";
        EProgress "adding vault";
        ECreateVault (Examples.vaultAt "site")])
  ∧ (fst out' = Throw noCodeWorkspaceError
     ∧ added Examples.vaultHostNoFile (snd out')
       = [EProgress "cloning repo";
          EGitClone (Some "https://example.org/dendron-site.git") "solo";
          EGetVaultsFromRepo "/ws/solo";
          EProgress "adding vault";
          EAddWorkspace {| wsName := "solo"; wsVaults := [docs] |}]).
Proof.
  split.
  - destruct (@execute_remote_missing_file Examples.vaultCollaborators
                (Examples.remoteOpts "site" None) Examples.vaultHostNoFile
                eq_refl eq_refl eq_refl) as (Hvault & _).
    destruct (Hvault (Examples.vaultAt "site") [] eq_refl eq_refl)
      as (_ & Hno & Htr).
    split; [reflexivity|]. split; [exact Hno | exact (Htr eq_refl)].
  - destruct (@execute_remote_missing_file Examples.vaultCollaborators
                (Examples.remoteOpts "solo" (Some "docs"))
                Examples.vaultHostNoFile eq_refl eq_refl eq_refl)
      as (_ & Hworkspace).
    destruct (Hworkspace
                {| wsName := "solo";
                   wsVaults := [withName (Some "docs")
                                  (Examples.vaultAt "solo/notes")] |}
                (withName (Some "docs") (Examples.vaultAt "solo/notes")) []
                eq_refl eq_refl) as (_ & _ & Htr).
    split; [reflexivity | exact (Htr eq_refl)].
Defined.

(** A clone that holds the workspace [solo], whose one vault is the one
    vault of the clone, added under the name [docs]: the workspace is
    registered with the vault under that name. *)
Lemma execute_remote_workspace_witness :
  let out := @execute Examples.vaultCollaborators
               (Examples.remoteOpts "solo" (Some "docs"))
               Examples.vaultHost in
  let docs := withName (Some "docs") (Examples.vaultAt "solo/notes") in
  fst out = Ok {| vaults := [docs] |}
  ∧ vaults {| vaults := [docs] |} = [docs]
  ∧ (∃ body,
       Forall (fun e => isPatch e = true) body
       ∧ added Examples.vaultHost (snd out)
         = [EProgress "cloning repo";
            EGitClone (Some "https://example.org/dendron-site.git") "solo";
            EGetVaultsFromRepo "/ws/solo";
            EProgress "adding vault";
            EAddWorkspace {| wsName := "solo"; wsVaults := [docs] |}]
           ++ body
           ++ [EAddToGitignore "solo" "/ws" true;
               EEnsureDir "/ws/solo";
               EAddToGitignore ".dendron.cache.*" "/ws/solo" false;
               EShowInformationMessage "finished adding vault";
               EReloadWindow])
  ∧ @hasFolder Examples.vaultCollaborators docs (snd out).
Proof.
  destruct (@execute_remote_workspace Examples.vaultCollaborators
              (Examples.remoteOpts "solo" (Some "docs")) Examples.vaultHost
              Examples.vaultSettings
              {| wsName := "solo";
                 wsVaults := [withName (Some "docs")
                                (Examples.vaultAt "solo/notes")] |}
              {| vaults := [withName (Some "docs")
                              (Examples.vaultAt "solo/notes")] |}
              eq_refl eq_refl eq_refl eq_refl eq_refl)
    as (Hres & _ & Htrace & Hfolders).
  split; [reflexivity|]. split; [exact Hres|]. split; [exact Htrace|].
  apply Hfolders. repeat constructor.
Defined.

(** The custom entry accepted with nothing typed, then the preset. *)
Lemma gather_remote_options_witness :
  let out := @gatherInputs Examples.vaultCollaborators
               MoreExamples.vaultHostRetry in
  fst out
  = Ok (Some {| type := remote; path := "site";
                pathRemote := Some "https://example.org/dendron-site.git";
                optName := Some "docs"; isSelfContained := None |})
  ∧ added MoreExamples.vaultHostRetry (snd out)
    = [EShowQuickPick ["local"; "remote"];
       EQuickPickShow (@generateRemoteEntries Examples.vaultCollaborators);
       EShowInformationMessage "please enter an endpoint";
       EShowInputBox
         "Path to your new vault (relative to your workspace root)"
         (Some "dendron");
       EShowInputBox "Name of new vault (optional, press enter to skip)"
         (Some "dendron");
       EQuickPickHide]
  ∧ inputBox (snd out) = []
  ∧ accepts (snd out) = [].
Proof.
  assert (Forall (fun a => String.eqb (label (snd a)) "custom"
                           && isInputEmpty (Some (fst a)) = true)
            [("", MoreExamples.customEntry)]) as Hall
    by (repeat constructor).
  destruct (@gather_remote_options Examples.vaultCollaborators
              MoreExamples.vaultHostRetry [("", MoreExamples.customEntry)]
              eq_refl eq_refl Hall)
    as (Hsettled & _).
  exact (Hsettled "" Examples.presetEntry [] "site" (Some "docs") []
           eq_refl eq_refl eq_refl eq_refl).
Defined.

(** The path prompt dismissed after the preset was accepted: gathering
    returns with the name prompt open and its answer [docs] not taken; the
    callback takes it afterwards and hides the pick. *)
Lemma dismissed_path_prompt_witness :
  let out := @gatherInputs Examples.vaultCollaborators
               MoreExamples.vaultHostDismissed in
  let waiting := nameAnswered remote ""
                   "https://example.org/dendron-site.git" (Some None) in
  fst out = Ok None
  ∧ added MoreExamples.vaultHostDismissed (snd out)
    = [EShowQuickPick ["local"; "remote"];
       EQuickPickShow (@generateRemoteEntries Examples.vaultCollaborators);
       EShowInputBox
         "Path to your new vault (relative to your workspace root)"
         (Some "dendron");
       EShowInputBox "Name of new vault (optional, press enter to skip)"
         (Some "dendron")]
  ∧ inputBox (snd out) = [Some "docs"]
  ∧ accepts (snd out) = []
  ∧ fst (waiting (snd out)) = Ok (Some None)
  ∧ added (snd out) (snd (waiting (snd out))) = [EQuickPickHide]
  ∧ inputBox (snd (waiting (snd out))) = [].
Proof.
  destruct (@dismissed_path_prompt Examples.vaultCollaborators
              MoreExamples.vaultHostDismissed eq_refl eq_refl)
    as (_ & Hremote).
  exact (Hremote "" Examples.presetEntry [] eq_refl eq_refl eq_refl).
Defined.

(** A self contained vault [notes] from a remote: the URL answered names
    the folder, and the clone is called without a remote. *)
Lemma gather_self_contained_witness :
  let target := Examples.joinPath
                  ["dependencies"; "example.org/notes.git/notes"] in
  fst (@gatherInputs Examples.vaultCollaborators
         MoreExamples.vaultHostSelfContained)
  = Ok (Some {| type := remote; path := target; pathRemote := None;
                optName := Some "notes"; isSelfContained := Some true |})
  ∧ EGitClone None target
    ∈ added MoreExamples.vaultHostSelfContained
        (snd (@run Examples.vaultCollaborators
                MoreExamples.vaultHostSelfContained)).
Proof.
  destruct (@gather_self_contained Examples.vaultCollaborators
              MoreExamples.vaultHostSelfContained remote "notes"
              eq_refl eq_refl eq_refl eq_refl eq_refl) as (_ & Hremote).
  destruct (Hremote "example.org/notes.git" eq_refl eq_refl eq_refl)
    as (Hres & _ & Hclone).
  split; [exact Hres | exact Hclone].
Defined.

(** The local vault [vault2] of the example workspace, from the pick to
    the output. *)
Lemma run_local_vault_witness :
  fst (@run Examples.vaultCollaborators Examples.vaultHostLocal)
  = Ok (Some {| vaults := [Examples.vaultAt "vault2"] |}).
Proof.
  destruct (@run_local_vault Examples.vaultCollaborators
              Examples.vaultHostLocal eq_refl
              (or_intror (ex_intro _ Examples.vaultSettings eq_refl)))
    as (Hstandard & _).
  destruct (Hstandard "vault2" None [] eq_refl eq_refl eq_refl)
    as (Hres & _).
  exact Hres.
Defined.

End VaultAddMore.

(** ** [RenameHeaderCommand]: supplied options, errors, locations *)

Module RenameHeaderMore.
Import Host RenameHeader RenameHeaderFacts.

Section Facts.
Context `{Collaborators}.

(** [gatherInputs] with both headers supplied: nothing is parsed, nothing
    is asked, and the note returned is the active note. *)
Lemma gatherInputs_supplied (st : State) (note0 : NoteProps)
    (old : OldHeader) (newH : string) (src : option string)
    (nt : option NoteProps) :
  activeNote st = Some note0 →
  gatherInputs (Some {| oldHeader := Some old; newHeader := Some newH;
                        source := src; note := nt |}) st
  = (Ok (Some {| inOldHeader := old; inNewHeader := newH;
                 inSource := default "command palette" src;
                 inNote := note0 |}), st).
Proof.
  intros Hnote. destruct st as [an ate gnd ib tr]. simpl in *. subst an.
  unfold gatherInputs, getSelection, gatherOldHeader, bind, gets, ret.
  simpl. by destruct ate as [[doc sel]|].
Qed.

(** The text of the new anchor: the text of the last heading of the
    re-parsed header, and the header as given when there is none. *)
Lemma newAnchorHeaderOf_last (newH : string) (parsed : Root) :
  newAnchorHeaderOf newH parsed
  = default newH (headerText <$> last (headings parsed)).
Proof.
  unfold newAnchorHeaderOf. generalize newH.
  induction (headings parsed) as [|h hs IH]; intros s; [done|].
  cbn [foldl]. rewrite IH. destruct hs as [|h' hs]; [done|].
  change (last (h :: h' :: hs)) with (last (h' :: hs)).
  by destruct (last (h' :: hs)) eqn:Hlast;
    [|apply last_None in Hlast].
Qed.

(** X13.  A new header supplied by the caller is taken as it is: with a
    note open and both headers supplied (the new one may be the empty
    string, which the prompt would take for a dismissal), the command asks
    nothing of the user, consumes none of the answers, returns the active
    note and the source, [command palette] when none was given, from
    [gatherInputs], and goes through the steps of [execute]; the [note]
    option of the caller is not read. *)
Theorem run_supplied_header (st : State) (note0 note : NoteProps)
    (ed : TextEditor) (old : OldHeader) (newH : string)
    (src : option string) (nt : option NoteProps) :
  activeNote st = Some note0 →
  activeTextEditor st = Some ed →
  getNoteFromDocument st (document ed) = Some note →
  let opts := Some {| oldHeader := Some old; newHeader := Some newH;
                      source := src; note := nt |} in
  let locs := renameLocs note (text old) newH in
  gatherInputs opts st
  = (Ok (Some {| inOldHeader := old; inNewHeader := newH;
                 inSource := default "command palette" src;
                 inNote := note0 |}), st)
  ∧ fst (run opts st) = Ok (Some (renameNote (fst locs) (snd locs)))
  ∧ trace (snd (run opts st)) = trace st ++ executeSteps old newH locs
  ∧ inputBox (snd (run opts st)) = inputBox st.
Proof.
  intros Hnote0 Hed Hnote opts locs. subst opts.
  pose proof (gatherInputs_supplied st note0 old newH src nt Hnote0) as Hg.
  split; [exact Hg|].
  rewrite (run_gathered _ _ _ _ Hg). unfold toOpts. simpl.
  destruct (execute_steps st ed note old newH
              (Some (default "command palette" src)) (Some note0) Hed Hnote)
    as (st' & -> & Htr & Hib).
  by simpl.
Qed.

(** The throws of the embedding of [gatherInputs].  The parser, the visit
    and the position helpers are total functions here, so the embedding
    throws at the two [throw] statements only; an error raised inside one
    of those helpers is outside it. *)
Lemma gatherInputs_throw_cases (opts : CommandOpts) (st : State)
    (e : DendronError) :
  fst (gatherInputs opts st) = Throw e
  ↔ (activeNote st = None
     ∧ e = mkError "You must first open a note to rename a header.")
    ∨ (is_Some (activeNote st)
       ∧ opts ≫= oldHeader = None
       ∧ e = mkError "You must first select the header you want to rename."
       ∧ match activeTextEditor st with
         | None => True
         | Some ed =>
             match selection ed with
             | None => True
             | Some sel =>
                 firstHeading
                   (parse (lineAt (document ed) (line (start sel)))) = None
             end
         end).
Proof.
  destruct st as [an ate gnd ib tr].
  unfold gatherInputs, getSelection, gatherOldHeader, procParse, showInputBox,
    emit, modify, bind, gets, ret, throw.
  destruct an as [note0|]; simpl.
  2:{ destruct ate as [[doc sel]|]; simpl; split.
      - intros [= <-]. by left.
      - intros [[_ ->] | [[x Hx] _]]; [done | done].
      - intros [= <-]. by left.
      - intros [[_ ->] | [[x Hx] _]]; [done | done]. }
  destruct opts as [[[old|] nh src nt]|]; simpl.
  - destruct ate as [[doc sel]|]; simpl; destruct nh as [nh|]; simpl;
      repeat case_step; simpl; split; try done;
      intros [[? _] | (_ & ? & _)]; done.
  - destruct ate as [[doc [sel|]]|]; simpl.
    + destruct (firstHeading _) as [h|] eqn:Hh; simpl.
      * destruct nh as [nh|]; simpl; repeat case_step; simpl; split;
          try done; intros [[? _] | (_ & _ & _ & ?)]; done.
      * split; [intros [= <-]; right; eauto | by intros [[? _]|(_&_&->&_)]].
    + split; [intros [= <-]; right; eauto | by intros [[? _]|(_&_&->&_)]].
    + split; [intros [= <-]; right; eauto | by intros [[? _]|(_&_&->&_)]].
  - destruct ate as [[doc [sel|]]|]; simpl.
    + destruct (firstHeading _) as [h|] eqn:Hh; simpl.
      * repeat case_step; simpl; split;
          try done; intros [[? _] | (_ & _ & _ & ?)]; done.
      * split; [intros [= <-]; right; eauto | by intros [[? _]|(_&_&->&_)]].
    + split; [intros [= <-]; right; eauto | by intros [[? _]|(_&_&->&_)]].
    + split; [intros [= <-]; right; eauto | by intros [[? _]|(_&_&->&_)]].
Qed.

(** X14.  The two [throw] statements of [gatherInputs], whatever else the
    caller supplied.  It throws the error to open a note exactly when no
    note is open.  It throws the error to select a header exactly when a
    note is open, no old header was supplied, and there is no editor, no
    selection, or no heading on the selected line.  A supplied old header
    is never checked against the document. *)
Theorem gather_error_cases (opts : CommandOpts) (st : State) :
  (fst (gatherInputs opts st)
   = Throw (mkError "You must first open a note to rename a header.")
   ↔ activeNote st = None)
  ∧ (fst (gatherInputs opts st)
     = Throw (mkError "You must first select the header you want to rename.")
     ↔ is_Some (activeNote st)
       ∧ opts ≫= oldHeader = None
       ∧ match activeTextEditor st with
         | None => True
         | Some ed =>
             match selection ed with
             | None => True
             | Some sel =>
                 firstHeading
                   (parse (lineAt (document ed) (line (start sel)))) = None
             end
         end).
Proof.
  split; split.
  - intros [[Hnone _] | (_ & _ & He & _)]%gatherInputs_throw_cases;
      [exact Hnone | discriminate He].
  - intros Hnone. apply gatherInputs_throw_cases. by left.
  - intros [[_ He] | (Hnote & Hold & _ & Hsel)]%gatherInputs_throw_cases;
      [discriminate He | done].
  - intros (Hnote & Hold & Hsel). apply gatherInputs_throw_cases. by right.
Qed.

(** X15.  The two locations [execute] hands to [engine.renameNote] are
    locations in one note, the note the active document resolves to: same
    file name, same vault name.  The old alias is the old header text; the
    new alias is the text of the last heading found when the new header is
    re-parsed, and the new header as typed when the parse finds none. *)
Theorem execute_rename_locations (st : State) (ed : TextEditor)
    (note : NoteProps) (old : OldHeader) (newH : string)
    (src : option string) (nt : option NoteProps) :
  activeTextEditor st = Some ed →
  getNoteFromDocument st (document ed) = Some note →
  let opts := Some {| oldHeader := Some old; newHeader := Some newH;
                      source := src; note := nt |} in
  ∃ oldLoc newLoc,
    fst (execute opts st) = Ok (Some (renameNote oldLoc newLoc))
    ∧ last (trace (snd (execute opts st))) = Some (ERenameNote oldLoc newLoc)
    ∧ locFname oldLoc = fname note ∧ locFname newLoc = fname note
    ∧ locVaultName oldLoc = getName (vault note)
    ∧ locVaultName newLoc = getName (vault note)
    ∧ alias oldLoc = text old
    ∧ alias newLoc
      = default newH
          (headerText <$> last (headings (parse ("## " +:+ newH)))).
Proof.
  intros Hed Hnote opts. subst opts.
  destruct (execute_steps st ed note old newH src nt Hed Hnote)
    as (st' & -> & Htr & _).
  eexists _, _. split; [reflexivity|]. simpl. rewrite Htr.
  unfold executeSteps. rewrite last_app.
  split; [reflexivity|]. simpl.
  by rewrite newAnchorHeaderOf_last.
Qed.

(** [execute] either goes through all its steps or does nothing. *)
Lemma execute_shape (opts : CommandOpts) (st : State) :
  (∃ resp old newH locs,
     fst (execute opts st) = Ok (Some resp)
     ∧ trace (snd (execute opts st)) = trace st ++ executeSteps old newH locs)
  ∨ execute opts st = (Ok None, st).
Proof.
  destruct opts as [[[old|] [newH|] src nt]|];
    try (right; unfold execute, bind, gets, ret; simpl;
         by destruct (activeTextEditor st)).
  destruct (activeTextEditor st) as [ed|] eqn:Hed.
  2:{ right. unfold execute, bind, gets, ret. simpl. by rewrite Hed. }
  destruct (getNoteFromDocument st (document ed)) as [note|] eqn:Hnote.
  2:{ right. unfold execute, bind, gets, ret. simpl. rewrite Hed.
      by rewrite Hnote. }
  left.
  destruct (execute_steps st ed note old newH src nt Hed Hnote)
    as (st' & -> & Htr & _).
  by eexists _, _, _, _.
Qed.

(** [gatherInputs] only parses and prompts. *)
Lemma gatherInputs_shape (opts : CommandOpts) (st : State) :
  ∃ pre, trace (snd (gatherInputs opts st)) = trace st ++ pre
         ∧ Forall (fun e => match e with
                            | EParse _ | EShowInputBox _ => True
                            | _ => False
                            end) pre.
Proof.
  destruct st as [an ate gnd ib tr].
  unfold gatherInputs, getSelection, gatherOldHeader, procParse, showInputBox,
    emit, modify, bind, gets, ret, throw.
  run_cmd;
    first [ exists []; split; [by rewrite app_nil_r | by constructor]
          | eexists [_]; split; [reflexivity | by repeat constructor]
          | eexists [_; _]; split;
              [by rewrite <- app_assoc | by repeat constructor] ].
Qed.

(** X17.  The document is edited, the document is saved and the engine is
    asked to rename exactly when the command returns a response of the
    engine: whatever the options and the host, each of the three is among
    the steps the command adds if and only if [run] returns a response.  A
    command that throws, is abandoned at the prompt, or finds no editor or
    no note for the document, has touched neither the document nor the
    engine. *)
Theorem rename_iff_response (opts : CommandOpts) (st : State) :
  let evs := drop (length (trace st)) (trace (snd (run opts st))) in
  let responded := ∃ resp, fst (run opts st) = Ok (Some resp) in
  ((∃ r newText, EEdit r newText ∈ evs) ↔ responded)
  ∧ (ESave ∈ evs ↔ responded)
  ∧ ((∃ oldLoc newLoc, ERenameNote oldLoc newLoc ∈ evs) ↔ responded).
Proof.
  intros evs responded.
  assert (∃ pre,
            Forall (fun e => match e with
                             | EParse _ | EShowInputBox _ => True
                             | _ => False
                             end) pre
            ∧ ((responded
                ∧ ∃ old newH locs, evs = pre ++ executeSteps old newH locs)
               ∨ (¬ responded ∧ evs = pre)))
    as (pre & Hpre & Hcases).
  { subst evs responded.
    destruct (gatherInputs_shape opts st) as (pre & Htr & Hpre).
    exists pre. split; [exact Hpre|].
    unfold run, bind.
    destruct (gatherInputs opts st) as [[[i|]|e|] st1]; simpl in *.
    - destruct (execute_shape (toOpts i) st1)
        as [(resp & old & newH & locs & Hres & Htr2) | ->].
      + left. split; [by exists resp|]. exists old, newH, locs.
        rewrite Htr2, Htr, <- app_assoc. by rewrite drop_app_length.
      + right. simpl. split; [by intros [resp ?]|].
        by rewrite Htr, drop_app_length.
    - right. split; [by intros [resp ?]|].
      by rewrite Htr, drop_app_length.
    - right. split; [by intros [resp ?]|].
      by rewrite Htr, drop_app_length.
    - right. split; [by intros [resp ?]|].
      by rewrite Htr, drop_app_length. }
  rewrite Forall_forall in Hpre.
  destruct Hcases as [(Hok & old & newH & locs & ->) | (Hno & ->)].
  - unfold executeSteps. repeat split; try (intros _; exact Hok); intros _.
    + eexists _, _. apply elem_of_app; right. by left.
    + apply elem_of_app; right. do 2 right. by left.
    + eexists _, _. apply elem_of_app; right. do 4 right. by left.
  - repeat split; try (intros ?; done).
    + intros (r & newText & Hin). by specialize (Hpre _ Hin).
    + intros Hin. by specialize (Hpre _ Hin).
    + intros (o & n & Hin). by specialize (Hpre _ Hin).
Qed.

End Facts.

(** The header of the note [foo] renamed to the empty string by a caller
    that supplies both headers: nothing is asked. *)
Lemma run_supplied_header_witness :
  let opts := Some {| oldHeader := Some MoreExamples.demoOldHeader;
                      newHeader := Some "";
                      source := None; note := None |} in
  let locs := @renameLocs Examples.renameCollaborators Examples.demoNote
                "Old header" "" in
  let out := @run Examples.renameCollaborators opts Examples.renameHost in
  fst out = Ok (Some locs)
  ∧ trace (snd out)
    = [EEdit (Examples.demoRange (3, 13) 1) ""; EParse "## "; ESave;
       EUpdateDecorations; ERenameNote (fst locs) (snd locs)]
  ∧ inputBox (snd out) = [Some "New header"].
Proof.
  destruct (@run_supplied_header Examples.renameCollaborators
              Examples.renameHost Examples.demoNote Examples.demoNote
              Examples.demoEditor MoreExamples.demoOldHeader "" None None
              eq_refl eq_refl eq_refl) as (_ & Hrun).
  exact Hrun.
Defined.

(** The locations of the rename of [Old header] to [New header] in the
    note [foo]. *)
Lemma execute_rename_locations_witness :
  ∃ oldLoc newLoc,
    fst (@execute Examples.renameCollaborators
           (Some {| oldHeader := Some MoreExamples.demoOldHeader;
                    newHeader := Some "New header";
                    source := None; note := None |}) Examples.renameHost)
    = Ok (Some (oldLoc, newLoc))
    ∧ locFname oldLoc = "foo" ∧ locFname newLoc = "foo"
    ∧ locVaultName oldLoc = "vault" ∧ locVaultName newLoc = "vault"
    ∧ alias oldLoc = "Old header" ∧ alias newLoc = "New header".
Proof.
  destruct (@execute_rename_locations Examples.renameCollaborators
              Examples.renameHost Examples.demoEditor Examples.demoNote
              MoreExamples.demoOldHeader "New header" None None
              eq_refl eq_refl)
    as (oldLoc & newLoc & Hres & _ & Hf1 & Hf2 & Hv1 & Hv2 & Ha1 & Ha2).
  exists oldLoc, newLoc. repeat split; assumption.
Defined.

End RenameHeaderMore.

(** ** The analytics of [RenameHeaderCommand] *)

Module AnalyticsFacts.
Import Host Analytics.

Section Facts.
Context `{Collaborators}.

(** What [trackProxyMetrics] does inside the [try] of
    [addAnalyticsPayload]: nothing without a note, else one call of
    [track], and one call of the logger when that call fails. *)
Lemma tryCatch_trackProxyMetrics (opts : option Opts) (counts : Props)
    (st : State) :
  tryCatch (trackProxyMetrics opts counts)
    (fun error => emit (ELogError error)) st
  = (Ok tt,
     {| numVaults := numVaults st;
        trackError := trackError st;
        trace :=
          trace st
          ++ match opts ≫= note with
             | None => []
             | Some n =>
                 ETrack RefactoringCommandUsed
                   (trackedProps n counts (numVaults st))
                 :: match trackError st with
                    | Some e => [ELogError e]
                    | None => []
                    end
             end |}).
Proof.
  destruct st as [nv te tr].
  unfold tryCatch, trackProxyMetrics, track, emit, modify, bind, gets, ret,
    throw.
  destruct opts as [[src [n|]]|]; simpl; try by rewrite app_nil_r.
  destruct te as [e|]; simpl; [|done].
  by rewrite <- app_assoc.
Qed.

(** X18.  [addAnalyticsPayload] never throws and never hangs, whether
    [AnalyticsUtils.track] fails or not, and its result does not depend on
    that: it is always the counts of the output overlaid with the payload
    of the source.  It calls [track] exactly when the options carry a
    note, once, with the number of vaults of the engine, and logs the
    error of a failed call once. *)
Theorem addAnalyticsPayload_total (opts : option Opts)
    (out : option (RespV2 RenameNotePayload)) (st : State) :
  fst (addAnalyticsPayload opts out st)
  = Ok (spread (countsOf out) (getAnalyticsPayload (opts ≫= source)))
  ∧ numVaults (snd (addAnalyticsPayload opts out st)) = numVaults st
  ∧ trackError (snd (addAnalyticsPayload opts out st)) = trackError st
  ∧ trace (snd (addAnalyticsPayload opts out st))
    = trace st
      ++ match opts ≫= note with
         | None => []
         | Some n =>
             ETrack RefactoringCommandUsed
               (trackedProps n (countsOf out) (numVaults st))
             :: match trackError st with
                | Some e => [ELogError e]
                | None => []
                end
         end.
Proof.
  unfold addAnalyticsPayload, bind.
  by rewrite tryCatch_trackProxyMetrics.
Qed.

(** X19.  The properties tracked: the counts of the output can replace
    the [command] key, which is written before them, but none of the
    metrics of the note, which are written after them; every other key is
    as the counts have it. *)
Theorem trackedProps_lookup (n : NoteProps) (counts : Props) (vaults : nat) :
  let props := trackedProps n counts vaults in
  props !! "numVaults" = Some (VNumber vaults)
  ∧ props !! "traits" = Some (from_option VStrings VUndefined (traits n))
  ∧ props !! "numChildren" = Some (VNumber (length (children n)))
  ∧ props !! "numLinks" = Some (VNumber (length (links n)))
  ∧ props !! "numChars" = Some (VNumber (String.length (body n)))
  ∧ props !! "noteDepth" = Some (VNumber (getDepth n))
  ∧ props !! "command" = Some (default (VString key) (counts !! "command"))
  ∧ ∀ k, k ∉ ["command"; "numVaults"; "traits"; "numChildren"; "numLinks";
              "numChars"; "noteDepth"] →
         props !! k = counts !! k.
Proof.
  intros props. subst props. unfold trackedProps, spread.
  repeat split.
  - by repeat (rewrite lookup_insert_ne by done); rewrite lookup_insert_eq.
  - by repeat (rewrite lookup_insert_ne by done); rewrite lookup_insert_eq.
  - by repeat (rewrite lookup_insert_ne by done); rewrite lookup_insert_eq.
  - by repeat (rewrite lookup_insert_ne by done); rewrite lookup_insert_eq.
  - by repeat (rewrite lookup_insert_ne by done); rewrite lookup_insert_eq.
  - by rewrite lookup_insert_eq.
  - repeat (rewrite lookup_insert_ne by done).
    rewrite lookup_union. rewrite lookup_singleton_eq.
    by destruct (counts !! "command").
  - intros k Hk.
    repeat (rewrite lookup_insert_ne by set_solver).
    rewrite lookup_union, lookup_singleton_ne by set_solver.
    by destruct (counts !! k).
Qed.

(** X20.  The payload returned: a key of the payload of the source has
    the value it has there, every other key the value the counts of the
    output give it; and with no output, or an output without data, the
    payload is the payload of the source alone. *)
Theorem addAnalyticsPayload_payload (opts : option Opts)
    (out : option (RespV2 RenameNotePayload)) (st : State) :
  ∃ payload,
    fst (addAnalyticsPayload opts out st) = Ok payload
    ∧ (∀ k v, getAnalyticsPayload (opts ≫= source) !! k = Some v →
              payload !! k = Some v)
    ∧ (∀ k, getAnalyticsPayload (opts ≫= source) !! k = None →
            payload !! k = countsOf out !! k)
    ∧ (out ≫= data = None →
       payload = getAnalyticsPayload (opts ≫= source)).
Proof.
  eexists. split.
  { unfold addAnalyticsPayload, bind.
    by rewrite tryCatch_trackProxyMetrics. }
  unfold spread. split; [|split].
  - intros k v Hk. by apply lookup_union_Some_l.
  - intros k Hk. by apply lookup_union_r.
  - intros Hout. unfold countsOf.
    destruct out as [[[d|]]|]; simpl in *; [done| |];
      by rewrite (right_id ∅ (∪)).
Qed.

End Facts.

End AnalyticsFacts.
